(** * ibkr-hmrc: cost-basis allocation and Corporation Tax computation

    A shallow embedding of
    - [scripts/section_104_pooling.py]  (class [Section104Pool]),
    - [scripts/ibkr_trial_balance.py]   ([TrialBalanceGenerator._calculate_fifo_cost]),
    - [scripts/tax_computation.py]      ([calculate_interest_relief],
                                         [calculate_corporation_tax]),
    and the properties of these functions that the design document states.

    Modelling conventions.
    - A [Decimal] is its exact rational value ([Q]); Python's [==], [<=], [<]
      on Decimals are the numeric comparisons [Qeq_bool], [Qle_bool].  NaN
      and infinities are not values of the model.
    - The [decimal] context rounds the result of every operation to 28
      significant digits, ROUND_HALF_EVEN ([round_ctx]).  Where the code
      multiplies a quotient before it quantizes ([take_from_pool],
      [consume_lot]) that rounding decides half-penny ties on everyday
      amounts, and quotient and product are rounded as the code rounds
      them.  Elsewhere [+], [-], [*] are exact, which they are in the code
      for results of at most 28 digits, and a quotient that is quantized at
      once ([ddiv]) is the exact quotient: rounding it first to 28 digits
      changes the quantized value only for a quotient of more than 24
      integer digits or one that lies within one part in 10^27 of a
      rounding tie without being one.
    - [quantize] is total: the [InvalidOperation] that [Decimal.quantize]
      raises when its result needs more than 28 digits (amounts from about
      10^24 upwards) is outside the model.
    - [x.quantize(Decimal('0.01'), rounding=ROUND_HALF_UP)] is [quantize 2 x]:
      the nearest multiple of 1/100, ties away from zero.  A [quantize] call
      without a rounding argument uses the context default, ROUND_HALF_EVEN.
    - A [datetime.date] is its proleptic Gregorian ordinal, 1 .. 3652059
      ([date.max] = 9999-12-31); [date + timedelta] raises [OverflowError]
      outside that range.
    - Methods that mutate [self] are functions from the object state to
      [Result] of the new state; [Raise e] is a Python exception that
      propagates to the caller.  What a method had already written to the
      object when it raised is not kept.
    - The [print(..., file=sys.stderr)] of the pool is a log kept in the
      state. *)

From Stdlib Require Import ZArith QArith Qround Qminmax Qabs Qpower Lia Lqa.
From stdpp Require Import base option list gmap strings.

Open Scope Q_scope.

(** ** Exceptions *)

Inductive exn : Set :=
  | DivisionByZero      (* decimal.DivisionByZero: x / 0 with x != 0 *)
  | InvalidOperation    (* decimal.InvalidOperation: 0 / 0 *)
  | OverflowError       (* date value out of range *)
  | AttributeError.     (* a method looked up on an object without it *)

Inductive Result (A : Type) : Type :=
  | Ok (a : A)
  | Raise (e : exn).
Arguments Ok {A} a.
Arguments Raise {A} e.

#[global] Instance Result_ret : MRet Result := fun A a => Ok a.
#[global] Instance Result_bind : MBind Result := fun A B f m =>
  match m with
  | Ok a => f a
  | Raise e => Raise e
  end.

Definition raises {A} (r : Result A) : Prop := exists e, r = Raise e.

(** ** Decimal arithmetic *)

Module Dec.

Definition Decimal : Set := Q.

Definition dle (x y : Decimal) : bool := Qle_bool x y.       (* x <= y *)
Definition dlt (x y : Decimal) : bool := negb (Qle_bool y x). (* x <  y *)
Definition deq (x y : Decimal) : bool := Qeq_bool x y.       (* x == y *)

(** Python's [min(a, b)]: the first argument unless the second is smaller. *)
Definition dmin (a b : Decimal) : Decimal := if dlt b a then b else a.

(** [x / y] on Decimals, where the code quantizes the quotient at once. *)
Definition ddiv (x y : Decimal) : Result Decimal :=
  if deq y 0 then
    (if deq x 0 then Raise InvalidOperation else Raise DivisionByZero)
  else Ok (x / y).

Fixpoint pow10 (places : nat) : positive :=
  match places with
  | O => 1%positive
  | S n => (10 * pow10 n)%positive
  end.

(** Nearest integer, ties away from zero (ROUND_HALF_UP). *)
Definition round_half_up (x : Q) : Z :=
  if Qle_bool 0 x then Qfloor (x + (1 # 2))
  else (- Qfloor (- x + (1 # 2)))%Z.

(** Nearest integer, ties to the even neighbour (ROUND_HALF_EVEN). *)
Definition round_half_even (x : Q) : Z :=
  let f := Qfloor x in
  let r := x - inject_Z f in
  if Qeq_bool r (1 # 2) then (if Z.even f then f else f + 1)%Z
  else if Qle_bool r (1 # 2) then f
  else (f + 1)%Z.

(** [x.quantize(Decimal(10) ** -places, rounding=ROUND_HALF_UP)] *)
Definition quantize (places : nat) (x : Decimal) : Decimal :=
  round_half_up (x * inject_Z (Zpos (pow10 places))) # pow10 places.

(** [x.quantize(Decimal(10) ** -places)] under the default context. *)
Definition quantize_default (places : nat) (x : Decimal) : Decimal :=
  round_half_even (x * inject_Z (Zpos (pow10 places))) # pow10 places.

(** The precision of the arithmetic context ([getcontext().prec]). *)
Definition PRECISION : Z := 28.

(** [floor (log10 x)] for [x > 0], the adjusted exponent of a Decimal:
    searched upwards from 0 for [x >= 1] and downwards from -1 for
    [x < 1]; [fuel] bounds the number of steps. *)
Fixpoint log10_up (fuel : nat) (x : Q) (a : Z) : Z :=
  match fuel with
  | O => a
  | S fuel' =>
      if Qle_bool (10 ^ (a + 1)) x then log10_up fuel' x (a + 1) else a
  end.

Fixpoint log10_down (fuel : nat) (x : Q) (a : Z) : Z :=
  match fuel with
  | O => a
  | S fuel' =>
      if Qle_bool (10 ^ a) x then a else log10_down fuel' x (a - 1)
  end.

Definition adjusted (x : Q) : Z :=
  if Qle_bool 1 x
  then log10_up (S (Z.to_nat (Z.log2 (Qnum x)))) x 0
  else log10_down (S (Z.to_nat (Z.log2 (Zpos (Qden x))))) x (-1).

(** What the context makes of an exact result: the nearest Decimal of 28
    significant digits, ties to the even neighbour. *)
Definition round_ctx (x : Decimal) : Decimal :=
  if Qeq_bool x 0 then 0
  else
    let e := (adjusted (Qabs x) - (PRECISION - 1))%Z in
    inject_Z (round_half_even (x / 10 ^ e)) * 10 ^ e.

(** [x / y] and [x * y] on Decimals, in the context. *)
Definition div_ctx (x y : Decimal) : Result Decimal :=
  if deq y 0 then
    (if deq x 0 then Raise InvalidOperation else Raise DivisionByZero)
  else Ok (round_ctx (x / y)).

Definition mul_ctx (x y : Decimal) : Decimal := round_ctx (x * y).

(** A Decimal that is a whole number of [10^-places]. *)
Definition on_grid (places : nat) (x : Decimal) : Prop :=
  exists n : Z, x == n # pow10 places.

End Dec.
Export Dec.

(** ** Dates *)

Definition date : Set := Z.
Bind Scope Z_scope with date.

Definition MINORDINAL : Z := 1.
Definition MAXORDINAL : Z := 3652059.   (* date(9999, 12, 31).toordinal() *)

Definition valid_date (d : date) : Prop := (MINORDINAL <= d <= MAXORDINAL)%Z.

(** [d + timedelta(days=n)] *)
Definition date_add (d : date) (n : Z) : Result date :=
  let o := (d + n)%Z in
  if ((MINORDINAL <=? o) && (o <=? MAXORDINAL))%Z then Ok o
  else Raise OverflowError.

(** ** Section 104 pooling ([section_104_pooling.py]) *)

Module Pooling.

Definition THIRTY_DAYS : Z := 30.

(** A disposal (or its unmatched portion) awaiting same-day/30-day matching. *)
Record DisposalRecord : Set := mkDisposalRecord {
  dr_date : date;
  dr_symbol : string;
  qty_remaining : Decimal;
  original_qty : Decimal;
  total_proceeds_gbp : Decimal
}.

Inductive MatchingRule : Set := same_day | thirty_day | section_104.

(** A completed disposal with cost and gain/loss. *)
Record MatchedDisposal : Set := mkMatchedDisposal {
  md_date : date;
  md_symbol : string;
  quantity : Decimal;
  proceeds_gbp : Decimal;
  cost_gbp : Decimal;
  gain_loss_gbp : Decimal;
  matching_rule : MatchingRule
}.

(** One entry of [self._pools]: the dict [{'qty': ..., 'cost': ...}]. *)
Record Pool : Set := mkPool { qty : Decimal; cost : Decimal }.

(** A line written to stderr: "Section 104 flush {qty} {symbol} but pool
    empty. Using zero cost." *)
Record Warning : Set := mkWarning { w_qty : Decimal; w_symbol : string }.

(** The object state of a [Section104Pool]. *)
Record Section104Pool : Type := mkSection104Pool {
  _pools : gmap string Pool;
  _pending_disposals : list DisposalRecord;
  _disposals : list MatchedDisposal;
  stderr : list Warning
}.

(** [Section104Pool()] *)
Definition init : Section104Pool :=
  {| _pools := ∅; _pending_disposals := []; _disposals := []; stderr := [] |}.

Definition empty_pool : Pool := {| qty := 0; cost := 0 |}.

(** [self._pools[symbol]] on the defaultdict, as a read. *)
Definition pool_of (s : Section104Pool) (symbol : string) : Pool :=
  default empty_pool (_pools s !! symbol).

(** Dataclass equality of two [DisposalRecord]s (field by field). *)
Definition disposal_eqb (a b : DisposalRecord) : bool :=
  (dr_date a =? dr_date b)%Z && String.eqb (dr_symbol a) (dr_symbol b)
  && deq (qty_remaining a) (qty_remaining b)
  && deq (original_qty a) (original_qty b)
  && deq (total_proceeds_gbp a) (total_proceeds_gbp b).

(** [enumerate(l)] *)
Definition enumerate {A} (l : list A) : list (nat * A) :=
  imap (fun i x => (i, x)) l.

(** [(i, d) in pairs] *)
Definition pair_in (i : nat) (d : DisposalRecord)
    (pairs : list (nat * DisposalRecord)) : bool :=
  existsb (fun p => Nat.eqb i (fst p) && disposal_eqb d (snd p)) pairs.

(** [l.sort(key=lambda x: x[1].date)]: stable, ascending. *)
Fixpoint insert_by_date (x : nat * DisposalRecord)
    (l : list (nat * DisposalRecord)) : list (nat * DisposalRecord) :=
  match l with
  | [] => [x]
  | y :: l' =>
      if (dr_date (snd y) <=? dr_date (snd x))%Z
      then y :: insert_by_date x l'
      else x :: y :: l'
  end.

Definition sort_by_date (l : list (nat * DisposalRecord))
    : list (nat * DisposalRecord) :=
  fold_right insert_by_date [] (rev l).

Definition same_day_candidates (pending : list DisposalRecord)
    (symbol : string) (acq_date : date) : list (nat * DisposalRecord) :=
  List.filter
    (fun p => String.eqb (dr_symbol (snd p)) symbol
              && (dr_date (snd p) =? acq_date)%Z)
    (enumerate pending).

Definition thirty_day_candidates (pending : list DisposalRecord)
    (symbol : string) (acq_date : date)
    (same : list (nat * DisposalRecord)) : list (nat * DisposalRecord) :=
  List.filter
    (fun p => String.eqb (dr_symbol (snd p)) symbol
              && (dr_date (snd p) <? acq_date)%Z
              && (acq_date - dr_date (snd p) <=? THIRTY_DAYS)%Z
              && negb (pair_in (fst p) (snd p) same))
    (enumerate pending).

(** The variables the matching loop of [add_acquisition] updates.  The
    [DisposalRecord] objects are shared with [self._pending_disposals]:
    [m_pending] is that list, and a loop variable [disp] is an index in it. *)
Record MatchState : Type := mkMatchState {
  m_pending : list DisposalRecord;
  m_remaining_qty : Decimal;
  m_remaining_cost : Decimal;
  m_disposals : list MatchedDisposal
}.

(** One iteration of [for _idx, disp in to_match]. *)
Definition match_one (symbol : string) (acq_date : date)
    (cost_per_unit : Decimal) (st : MatchState) (idx : nat)
    : Result MatchState :=
  match m_pending st !! idx with
  | None => Ok st
  | Some disp =>
      if dle (m_remaining_qty st) 0 || dle (qty_remaining disp) 0 then Ok st
      else
        let match_qty := dmin (m_remaining_qty st) (qty_remaining disp) in
        let match_cost := quantize 2 (cost_per_unit * match_qty) in
        q ← ddiv (total_proceeds_gbp disp * match_qty) (original_qty disp);
        let match_proceeds := quantize 2 q in
        let rule :=
          if (dr_date disp =? acq_date)%Z then same_day else thirty_day in
        Ok {| m_pending :=
                <[idx := {| dr_date := dr_date disp;
                            dr_symbol := dr_symbol disp;
                            qty_remaining := qty_remaining disp - match_qty;
                            original_qty := original_qty disp;
                            total_proceeds_gbp := total_proceeds_gbp disp |}]>
                  (m_pending st);
              m_remaining_qty := m_remaining_qty st - match_qty;
              m_remaining_cost := m_remaining_cost st - match_cost;
              m_disposals :=
                m_disposals st ++
                [{| md_date := dr_date disp;
                    md_symbol := symbol;
                    quantity := match_qty;
                    proceeds_gbp := match_proceeds;
                    cost_gbp := match_cost;
                    gain_loss_gbp := match_proceeds - match_cost;
                    matching_rule := rule |}] |}
  end.

Fixpoint match_loop (symbol : string) (acq_date : date)
    (cost_per_unit : Decimal) (to_match : list nat) (st : MatchState)
    : Result MatchState :=
  match to_match with
  | [] => Ok st
  | idx :: rest =>
      st' ← match_one symbol acq_date cost_per_unit st idx;
      match_loop symbol acq_date cost_per_unit rest st'
  end.

(** [Section104Pool.add_acquisition] *)
Definition add_acquisition (acq_date : date) (symbol : string)
    (qty0 cost_gbp0 : Decimal) (s : Section104Pool) : Result Section104Pool :=
  if dle qty0 0 then Ok s
  else
    cost_per_unit ←
      (if deq qty0 0 then Ok 0
       else q ← ddiv cost_gbp0 qty0; Ok (quantize 4 q));
    let same := same_day_candidates (_pending_disposals s) symbol acq_date in
    let thirty :=
      sort_by_date
        (thirty_day_candidates (_pending_disposals s) symbol acq_date same) in
    let to_match := same ++ thirty in
    st ← match_loop symbol acq_date cost_per_unit (map fst to_match)
           {| m_pending := _pending_disposals s;
              m_remaining_qty := qty0;
              m_remaining_cost := cost_gbp0;
              m_disposals := _disposals s |};
    let pending' :=
      List.filter (fun d => dlt 0 (qty_remaining d)) (m_pending st) in
    let pools' :=
      if dlt 0 (m_remaining_qty st) then
        let pool := pool_of s symbol in
        <[symbol := {| qty := qty pool + m_remaining_qty st;
                       cost := cost pool + m_remaining_cost st |}]> (_pools s)
      else _pools s in
    Ok {| _pools := pools';
          _pending_disposals := pending';
          _disposals := m_disposals st;
          stderr := stderr s |}.

(** The variables the loop of [_flush_pending_disposals_for_symbol]
    updates: the pool dict of the symbol (mutated in place), [new_pending],
    [self._disposals] and stderr. *)
Record FlushState : Type := mkFlushState {
  f_pool : Pool;
  f_new_pending : list DisposalRecord;
  f_disposals : list MatchedDisposal;
  f_stderr : list Warning
}.

Definition keep_pending (disp : DisposalRecord) (st : FlushState)
    : FlushState :=
  {| f_pool := f_pool st;
     f_new_pending := f_new_pending st ++ [disp];
     f_disposals := f_disposals st;
     f_stderr := f_stderr st |}.

(** The pool debit inside the flush: the cost taken, the pool afterwards and
    the warnings written. *)
Definition take_from_pool (symbol : string) (pool : Pool)
    (qty_to_take : Decimal) : Result (Decimal * Pool * list Warning) :=
  if dle (qty pool) 0 then
    Ok (0, pool, [{| w_qty := qty_to_take; w_symbol := symbol |}])
  else
    avg_cost ← div_ctx (cost pool) (qty pool);
    let cost_gbp1 := quantize 2 (mul_ctx avg_cost qty_to_take) in
    let cost1 := cost pool - cost_gbp1 in
    let qty1 := qty pool - qty_to_take in
    let qty2 := if dlt qty1 0 then 0 else qty1 in
    let cost2 := if dlt cost1 0 then 0 else cost1 in
    Ok (cost_gbp1, {| qty := qty2; cost := cost2 |}, []).

(** One iteration of [for disp in self._pending_disposals]. *)
Definition flush_one (symbol : string) (before_date : date)
    (st : FlushState) (disp : DisposalRecord) : Result FlushState :=
  if negb (String.eqb (dr_symbol disp) symbol) || dle (qty_remaining disp) 0
  then Ok (keep_pending disp st)
  else
    window_end ← date_add (dr_date disp) THIRTY_DAYS;
    if (before_date <=? window_end)%Z then Ok (keep_pending disp st)
    else
      let qty_to_take := qty_remaining disp in
      '(cost_gbp1, pool', warns) ←
        take_from_pool symbol (f_pool st) qty_to_take;
      q ← ddiv (total_proceeds_gbp disp * qty_to_take) (original_qty disp);
      let proceeds := quantize 2 q in
      Ok {| f_pool := pool';
            f_new_pending := f_new_pending st;
            f_disposals :=
              f_disposals st ++
              [{| md_date := dr_date disp;
                  md_symbol := symbol;
                  quantity := qty_to_take;
                  proceeds_gbp := proceeds;
                  cost_gbp := cost_gbp1;
                  gain_loss_gbp := proceeds - cost_gbp1;
                  matching_rule := section_104 |}];
            f_stderr := f_stderr st ++ warns |}.

Fixpoint flush_loop (symbol : string) (before_date : date)
    (pending : list DisposalRecord) (st : FlushState) : Result FlushState :=
  match pending with
  | [] => Ok st
  | disp :: rest =>
      st' ← flush_one symbol before_date st disp;
      flush_loop symbol before_date rest st'
  end.

(** [Section104Pool._flush_pending_disposals_for_symbol] *)
Definition _flush_pending_disposals_for_symbol (symbol : string)
    (before_date : date) (s : Section104Pool) : Result Section104Pool :=
  st ← flush_loop symbol before_date (_pending_disposals s)
         {| f_pool := pool_of s symbol;
            f_new_pending := [];
            f_disposals := _disposals s;
            f_stderr := stderr s |};
  Ok {| _pools := <[symbol := f_pool st]> (_pools s);
        _pending_disposals := f_new_pending st;
        _disposals := f_disposals st;
        stderr := f_stderr st |}.

(** [Section104Pool.remove_disposal] *)
Definition remove_disposal (disp_date : date) (symbol : string)
    (qty0 proceeds_gbp0 : Decimal) (s : Section104Pool)
    : Result Section104Pool :=
  if dle qty0 0 then Ok s
  else
    s1 ← _flush_pending_disposals_for_symbol symbol disp_date s;
    Ok {| _pools := _pools s1;
          _pending_disposals :=
            _pending_disposals s1 ++
            [{| dr_date := disp_date;
                dr_symbol := symbol;
                qty_remaining := qty0;
                original_qty := qty0;
                total_proceeds_gbp := proceeds_gbp0 |}];
          _disposals := _disposals s1;
          stderr := stderr s1 |}.

(** [set(d.symbol for d in self._pending_disposals)] is iterated in an
    order Python does not fix: [order] is one enumeration of that set. *)
Definition iteration_order (s : Section104Pool) (order : list string)
    : Prop :=
  NoDup order /\
  forall x, x ∈ order <-> x ∈ map dr_symbol (_pending_disposals s).

Fixpoint flush_symbols (order : list string) (s : Section104Pool)
    : Result Section104Pool :=
  match order with
  | [] => Ok s
  | symbol :: rest =>
      s' ← _flush_pending_disposals_for_symbol symbol MAXORDINAL s;
      flush_symbols rest s'
  end.

(** [Section104Pool.flush_all_pending], iterating the symbol set in
    [order]. *)
Definition flush_all_pending (order : list string) (s : Section104Pool)
    : Result Section104Pool :=
  flush_symbols order s.

(** One enumeration of the symbol set: first occurrences, in list order. *)
Definition pending_symbols (s : Section104Pool) : list string :=
  remove_dups (map dr_symbol (_pending_disposals s)).

(** [Section104Pool.get_net_capital_gains].  [sum] of no Decimal is the
    int 0, which has no [quantize]. *)
Definition get_net_capital_gains (s : Section104Pool) : Result Decimal :=
  match _disposals s with
  | [] => Raise AttributeError
  | ds => Ok (quantize 2 (fold_left (fun acc d => acc + gain_loss_gbp d) ds 0))
  end.

(** The record the matching loop emits when an acquisition of [q] units
    for [c] meets a whole pending disposal of [q] units sold for [p]. *)
Definition whole_match (disp_date acq_date : date) (symbol : string)
    (q p c : Decimal) : MatchedDisposal :=
  let match_cost := quantize 2 (quantize 4 (c / q) * q) in
  let match_proceeds := quantize 2 (p * q / q) in
  {| md_date := disp_date;
     md_symbol := symbol;
     quantity := q;
     proceeds_gbp := match_proceeds;
     cost_gbp := match_cost;
     gain_loss_gbp := match_proceeds - match_cost;
     matching_rule :=
       if (disp_date =? acq_date)%Z then same_day else thirty_day |}.

(** The record the flush emits for the unmatched rest of [disp], given the
    cost taken from the pool. *)
Definition flushed (disp : DisposalRecord) (cost_taken : Decimal)
    : MatchedDisposal :=
  let proceeds :=
    quantize 2
      (total_proceeds_gbp disp * qty_remaining disp / original_qty disp) in
  {| md_date := dr_date disp;
     md_symbol := dr_symbol disp;
     quantity := qty_remaining disp;
     proceeds_gbp := proceeds;
     cost_gbp := cost_taken;
     gain_loss_gbp := proceeds - cost_taken;
     matching_rule := section_104 |}.

(** The cost the flush takes from a pool that holds something, and the
    pool it leaves: the average cost and its product with the quantity are
    each rounded to the context precision before the cost is quantized. *)
Definition cost_taken (pool : Pool) (q : Decimal) : Decimal :=
  quantize 2 (mul_ctx (round_ctx (cost pool / qty pool)) q).

Definition pool_after (pool : Pool) (q : Decimal) : Pool :=
  {| qty := if dlt (qty pool - q) 0 then 0 else qty pool - q;
     cost := if dlt (cost pool - cost_taken pool q) 0 then 0
             else cost pool - cost_taken pool q |}.

(** No pending disposal of [symbol]. *)
Definition no_pending (s : Section104Pool) (symbol : string) : Prop :=
  Forall (fun d => dr_symbol d <> symbol) (_pending_disposals s).

(** The states a [Section104Pool] can be in: those the public methods
    produce from a new object. *)
Inductive reachable : Section104Pool -> Prop :=
  | reachable_init : reachable init
  | reachable_add_acquisition s s' acq_date symbol qty0 cost_gbp0 :
      reachable s ->
      add_acquisition acq_date symbol qty0 cost_gbp0 s = Ok s' ->
      reachable s'
  | reachable_remove_disposal s s' disp_date symbol qty0 proceeds_gbp0 :
      reachable s ->
      remove_disposal disp_date symbol qty0 proceeds_gbp0 s = Ok s' ->
      reachable s'
  | reachable_flush_all_pending s s' order :
      reachable s ->
      flush_all_pending order s = Ok s' ->
      reachable s'.

(** What holds of every reachable state: pending disposals have something
    left to match and a positive original quantity, and no pool holds a
    negative quantity. *)
Definition pending_ok (d : DisposalRecord) : Prop :=
  0 < qty_remaining d /\ 0 < original_qty d.

Definition well_formed (s : Section104Pool) : Prop :=
  Forall pending_ok (_pending_disposals s) /\
  forall symbol, 0 <= qty (pool_of s symbol).

(** A pending disposal of [symbol] whose window has closed. *)
Definition due (symbol : string) (before : date) (disp : DisposalRecord)
    : Prop :=
  dr_symbol disp = symbol /\ pending_ok disp /\
  (MINORDINAL <= dr_date disp + THIRTY_DAYS <= MAXORDINAL)%Z /\
  (dr_date disp + THIRTY_DAYS < before)%Z.

(** A pending disposal dated so that its 30-day window ends before
    9999-12-31, the date the end-of-stream flush passes. *)
Definition before_dec_9999 (disp : DisposalRecord) : Prop :=
  (MINORDINAL <= dr_date disp)%Z /\
  (dr_date disp + THIRTY_DAYS < MAXORDINAL)%Z.

(** The pending disposals a flush of [symbols] leaves. *)
Definition not_of (symbols : list string) (disp : DisposalRecord) : bool :=
  negb (existsb (String.eqb (dr_symbol disp)) symbols).

End Pooling.

(** ** FIFO lot ledger ([ibkr_trial_balance.py]) *)

Module Ledger.

(** Tax lot for FIFO cost tracking. *)
Record LotHolding : Set := mkLotHolding {
  lot_date : date;
  lot_symbol : string;
  quantity : Decimal;
  cost_gbp : Decimal;
  asset_class : string
}.

(** The variables the loop of [_calculate_fifo_cost] updates. *)
Record FifoState : Set := mkFifoState {
  remaining : Decimal;
  total_cost : Decimal;
  new_lots : list LotHolding
}.

(** One iteration of [for lot in lots]. *)
Definition consume_lot (st : FifoState) (lot : LotHolding)
    : Result FifoState :=
  if dle (remaining st) 0 then
    Ok {| remaining := remaining st;
          total_cost := total_cost st;
          new_lots := new_lots st ++ [lot] |}
  else if dle (quantity lot) (remaining st) then
    Ok {| remaining := remaining st - quantity lot;
          total_cost := total_cost st + cost_gbp lot;
          new_lots := new_lots st |}
  else
    fraction ← div_ctx (remaining st) (quantity lot);
    let cost_consumed :=
      quantize_default 2 (mul_ctx (cost_gbp lot) fraction) in
    Ok {| remaining := 0;
          total_cost := total_cost st + cost_consumed;
          new_lots :=
            new_lots st ++
            [{| lot_date := lot_date lot;
                lot_symbol := lot_symbol lot;
                quantity := quantity lot - remaining st;
                cost_gbp := cost_gbp lot - cost_consumed;
                asset_class := asset_class lot |}] |}.

Fixpoint fifo_loop (lots : list LotHolding) (st : FifoState)
    : Result FifoState :=
  match lots with
  | [] => Ok st
  | lot :: rest =>
      st' ← consume_lot st lot;
      fifo_loop rest st'
  end.

(** [TrialBalanceGenerator._calculate_fifo_cost]: the cost returned and
    [self.holdings] afterwards. *)
Definition _calculate_fifo_cost (symbol : string) (quantity0 : Decimal)
    (holdings : gmap string (list LotHolding))
    : Result (Decimal * gmap string (list LotHolding)) :=
  let lots := default [] (holdings !! symbol) in
  st ← fifo_loop lots
         {| remaining := quantity0; total_cost := 0; new_lots := [] |};
  Ok (total_cost st, <[symbol := new_lots st]> holdings).

(** Total quantity and cost held in a list of lots. *)
Definition held_quantity (lots : list LotHolding) : Q :=
  fold_right (fun lot acc => quantity lot + acc) 0 lots.

Definition held_cost (lots : list LotHolding) : Q :=
  fold_right (fun lot acc => cost_gbp lot + acc) 0 lots.

(** Lots as acquisitions record them: no negative quantity. *)
Definition nonneg_lots (lots : list LotHolding) : Prop :=
  Forall (fun lot => 0 <= quantity lot) lots.

End Ledger.

(** ** Corporation Tax computation ([tax_computation.py]) *)

Module Tax.

(** A trial-balance account: an object with [.debit] and [.credit]. *)
Record Account : Set := mkAccount { debit : Decimal; credit : Decimal }.

Record TaxAdjustment : Set := mkTaxAdjustment {
  description : string;
  amount : Decimal;
  adjustment_type : string
}.

Record InterestReliefResult : Set := mkInterestReliefResult {
  total_interest_paid : Decimal;
  allowable_interest : Decimal;
  disallowed_interest : Decimal;
  icr_limit : Decimal;
  taxable_earnings : Decimal;
  icr_applicable : bool;
  warning : option string
}.

(** The object state of a [TaxComputation].  [management_expenses_csv] is
    what [_load_additional_management_expenses] returns: the total of the
    expenses file, read from disk. *)
Record TaxComputation : Type := mkTaxComputation {
  _accounts : gmap string Account;
  _section_104 : Pooling.Section104Pool;
  management_expenses_csv : Decimal;
  _adjustments : list TaxAdjustment;
  _interest_relief : option InterestReliefResult;
  _taxable_profit : option Decimal;
  _corporation_tax : option Decimal
}.

Definition DIVIDEND_INCOME : string := "4000".
Definition INTEREST_RECEIVED : string := "4100".
Definition BROKER_FEES : string := "5200".
Definition INTEREST_PAID : string := "5600".

Definition ICR_WARNING : string :=
  "ICR calculation may not apply to investment companies. Seek professional tax advice.".

Definition _debit (tc : TaxComputation) (code : string) : Decimal :=
  match _accounts tc !! code with
  | Some acc => debit acc
  | None => 0
  end.

Definition _credit (tc : TaxComputation) (code : string) : Decimal :=
  match _accounts tc !! code with
  | Some acc => credit acc
  | None => 0
  end.

Definition calculate_dividend_exemption (tc : TaxComputation) : Decimal :=
  _credit tc DIVIDEND_INCOME.

Definition calculate_capital_gains (tc : TaxComputation) : Result Decimal :=
  Pooling.get_net_capital_gains (_section_104 tc).

Definition calculate_management_expenses (tc : TaxComputation)
    : Decimal * Decimal :=
  (_debit tc BROKER_FEES, management_expenses_csv tc).

Definition set_interest_relief (tc : TaxComputation)
    (r : InterestReliefResult) : TaxComputation :=
  {| _accounts := _accounts tc;
     _section_104 := _section_104 tc;
     management_expenses_csv := management_expenses_csv tc;
     _adjustments := _adjustments tc;
     _interest_relief := Some r;
     _taxable_profit := _taxable_profit tc;
     _corporation_tax := _corporation_tax tc |}.

(** [TaxComputation.calculate_interest_relief]: the result returned and the
    object afterwards. *)
Definition calculate_interest_relief (tc : TaxComputation)
    : InterestReliefResult * TaxComputation :=
  let interest_paid := _debit tc INTEREST_PAID in
  if deq interest_paid 0 then
    ({| total_interest_paid := 0;
        allowable_interest := 0;
        disallowed_interest := 0;
        icr_limit := 0;
        taxable_earnings := 0;
        icr_applicable := false;
        warning := None |}, tc)
  else
    let interest_received := _credit tc INTEREST_RECEIVED in
    let '(mgmt_ibkr, mgmt_other) := calculate_management_expenses tc in
    let management_expenses := mgmt_ibkr + mgmt_other in
    let taxable_earnings0 := interest_received - management_expenses in
    if dle taxable_earnings0 0 then
      ({| total_interest_paid := interest_paid;
          allowable_interest := 0;
          disallowed_interest := interest_paid;
          icr_limit := 0;
          taxable_earnings := taxable_earnings0;
          icr_applicable := true;
          warning := Some ICR_WARNING |}, tc)
    else
      let icr_limit0 := quantize 2 (taxable_earnings0 * (30 # 100)) in
      let '(allowable, disallowed) :=
        if dle interest_paid icr_limit0 then (interest_paid, 0)
        else (icr_limit0, interest_paid - icr_limit0) in
      let r :=
        {| total_interest_paid := interest_paid;
           allowable_interest := allowable;
           disallowed_interest := disallowed;
           icr_limit := icr_limit0;
           taxable_earnings := taxable_earnings0;
           icr_applicable := true;
           warning := Some ICR_WARNING |} in
      (r, set_interest_relief tc r).

(** [TaxComputation.calculate_taxable_profit] *)
Definition calculate_taxable_profit (tc : TaxComputation)
    : Result (Decimal * TaxComputation) :=
  let dividend_income := calculate_dividend_exemption tc in
  let adj1 :=
    [{| description := "Dividend income (exempt)";
        amount := dividend_income;
        adjustment_type := "exempt" |}] in
  let interest_income := _credit tc INTEREST_RECEIVED in
  let '(mgmt_ibkr, mgmt_other) := calculate_management_expenses tc in
  let '(interest_relief, tc1) := calculate_interest_relief tc in
  let allowable := allowable_interest interest_relief in
  let taxable_non_trading :=
    quantize 2 (interest_income - mgmt_ibkr - mgmt_other - allowable) in
  capital_gains ← calculate_capital_gains tc1;
  let adj2 :=
    adj1 ++ [{| description := "Capital gains (Section 104)";
                amount := capital_gains;
                adjustment_type := "chargeable_gains" |}] in
  let profit := quantize 2 (taxable_non_trading + capital_gains) in
  Ok (profit,
      {| _accounts := _accounts tc1;
         _section_104 := _section_104 tc1;
         management_expenses_csv := management_expenses_csv tc1;
         _adjustments := adj2;
         _interest_relief := _interest_relief tc1;
         _taxable_profit := Some profit;
         _corporation_tax := _corporation_tax tc1 |}).

(** The three band formulas of [calculate_corporation_tax], before the
    final rounding. *)
Definition small_profits_rate (profit : Decimal) : Decimal :=
  profit * (19 # 100).

Definition main_rate (profit : Decimal) : Decimal :=
  profit * (25 # 100).

Definition marginal_relief_band (profit : Decimal) : Decimal :=
  let tax_at_main := profit * (25 # 100) in
  let marginal_relief := (250000 - profit) * 3 / 200 in
  tax_at_main - marginal_relief.

(** The value of the variable [tax_liability] for a profit > 0. *)
Definition tax_liability (profit : Decimal) : Decimal :=
  if dle profit 50000 then small_profits_rate profit
  else if dle 250000 profit then main_rate profit
  else marginal_relief_band profit.

(** The liability [calculate_corporation_tax] returns for a profit. *)
Definition corporation_tax_on (profit : Decimal) : Decimal :=
  if dle profit 0 then 0
  else quantize 2 (tax_liability profit).

Definition set_corporation_tax (tc : TaxComputation) (t : Decimal)
    : TaxComputation :=
  {| _accounts := _accounts tc;
     _section_104 := _section_104 tc;
     management_expenses_csv := management_expenses_csv tc;
     _adjustments := _adjustments tc;
     _interest_relief := _interest_relief tc;
     _taxable_profit := _taxable_profit tc;
     _corporation_tax := Some t |}.

(** [TaxComputation.calculate_corporation_tax(taxable_profit=None)] *)
Definition calculate_corporation_tax (tc : TaxComputation)
    (taxable_profit : option Decimal) : Result (Decimal * TaxComputation) :=
  '(profit, tc1) ←
    match taxable_profit with
    | Some p => Ok (p, tc)
    | None =>
        match _taxable_profit tc with
        | Some p => Ok (p, tc)
        | None => calculate_taxable_profit tc
        end
    end;
  let t := corporation_tax_on profit in
  Ok (t, set_corporation_tax tc1 t).

End Tax.

(** ** Example data *)

Module Examples.
Import Tax.

(** The repository's own mock accounts for the tax computation (interest paid 8743.42, received 1604.52, fees 1120.26). *)
Definition mock_tc : TaxComputation :=
  {| _accounts :=
       <[ "4000"%string := {| debit := 0; credit := 78013 # 100 |} ]>
       (<[ "4100"%string := {| debit := 0; credit := 160452 # 100 |} ]>
       (<[ "5200"%string := {| debit := 112026 # 100; credit := 0 |} ]>
       (<[ "5600"%string := {| debit := 874342 # 100; credit := 0 |} ]> ∅)));
     _section_104 := Pooling.init;
     management_expenses_csv := 0;
     _adjustments := [];
     _interest_relief := None;
     _taxable_profit := None;
     _corporation_tax := None |}.

(** Two lots of one instrument: 100 units for 1500.00 bought on day 1 and
    50 units for 800.00 bought on day 15. *)
Definition two_lots : gmap string (list Ledger.LotHolding) :=
  {[ "AAPL"%string :=
       [ {| Ledger.lot_date := 1; Ledger.lot_symbol := "AAPL";
            Ledger.quantity := 100; Ledger.cost_gbp := 1500;
            Ledger.asset_class := "STK" |};
         {| Ledger.lot_date := 15; Ledger.lot_symbol := "AAPL";
            Ledger.quantity := 50; Ledger.cost_gbp := 800;
            Ledger.asset_class := "STK" |} ] ]}.

(** A pool of 150 units at cost 230 and one pending disposal of 75 units. *)
Definition pool_150_pending_75 : Pooling.Section104Pool :=
  {| Pooling._pools :=
       {[ "AAPL"%string := {| Pooling.qty := 150; Pooling.cost := 230 |} ]};
     Pooling._pending_disposals :=
       [ {| Pooling.dr_date := 739433; Pooling.dr_symbol := "AAPL";
            Pooling.qty_remaining := 75; Pooling.original_qty := 75;
            Pooling.total_proceeds_gbp := 200 |} ];
     Pooling._disposals := [];
     Pooling.stderr := [] |}.

(** Pool averaging: 100 units for 150 and 50 units for 80 are acquired,
    then 75 units are sold more than 30 days after the first purchase and
    the end-of-stream flush runs. *)
Definition pool_average_run (proceeds : Decimal)
    : Result Pooling.Section104Pool :=
  s1 ← Pooling.add_acquisition 739403 "AAPL" 100 150 Pooling.init;
  s2 ← Pooling.add_acquisition 739417 "AAPL" 50 80 s1;
  s3 ← Pooling.remove_disposal 739433 "AAPL" 75 proceeds s2;
  Pooling.flush_all_pending ["AAPL"%string] s3.

(** The repository's [_test_section_104_only]: 2025-06-01, 2025-06-15 and
    2025-07-01. *)
Definition section_104_only_run : Result Pooling.Section104Pool :=
  s1 ← Pooling.add_acquisition 739403 "AAPL" 100 15000 Pooling.init;
  s2 ← Pooling.add_acquisition 739417 "AAPL" 50 8000 s1;
  s3 ← Pooling.remove_disposal 739433 "AAPL" 75 13500 s2;
  Pooling.flush_all_pending ["AAPL"%string] s3.

(** Six units acquired for 10.01 and three of them sold 31 days later,
    before the flush. *)
Definition six_for_10_01 : Result Pooling.Section104Pool :=
  s1 ← Pooling.add_acquisition 739403 "X" 6 10.01 Pooling.init;
  Pooling.remove_disposal 739434 "X" 3 8 s1.

(** One unit acquired for 0.005, sold a month later, before the flush. *)
Definition half_penny_pool : Result Pooling.Section104Pool :=
  s1 ← Pooling.add_acquisition 739403 "X" 1 (5 # 1000) Pooling.init;
  Pooling.remove_disposal 739433 "X" 1 10 s1.

(** 998 units sold and 1000 units bought for 0.05 on one day (unit cost
    0.0001 after rounding, so the 2 units left enter the pool at -0.05),
    then 1 unit sold a month later, before the flush. *)
Definition negative_cost_pool : Result Pooling.Section104Pool :=
  s1 ← Pooling.remove_disposal 739403 "X" 998 100 Pooling.init;
  s2 ← Pooling.add_acquisition 739403 "X" 1000 (5 # 100) s1;
  Pooling.remove_disposal 739433 "X" 1 10 s2.

(** 50 units acquired for 500, then 100 units sold a month later, before
    the flush: the pool covers half of the disposal. *)
Definition half_covered_pool : Result Pooling.Section104Pool :=
  s1 ← Pooling.add_acquisition 739403 "X" 50 500 Pooling.init;
  Pooling.remove_disposal 739433 "X" 100 2000 s1.

(** A disposal dated 9999-12-01 (ordinal 3652029), and one dated the day
    after. *)
Definition dec_9999_pending : Result Pooling.Section104Pool :=
  Pooling.remove_disposal 3652029 "X" 1 100 Pooling.init.

Definition dec_9999_late_pending : Result Pooling.Section104Pool :=
  Pooling.remove_disposal 3652030 "X" 1 100 Pooling.init.

End Examples.

(** ** Quantities used to state what the pool keeps *)

Module PoolFacts.
Import Pooling.

(** Total quantity, cost and proceeds of a list of matched disposals. *)
Definition matched_quantity (l : list MatchedDisposal) : Q :=
  fold_right (fun md acc => quantity md + acc) 0 l.

Definition matched_cost (l : list MatchedDisposal) : Q :=
  fold_right (fun md acc => cost_gbp md + acc) 0 l.

(** Total quantity still to match in a list of pending disposals. *)
Definition pending_quantity (l : list DisposalRecord) : Q :=
  fold_right (fun d acc => qty_remaining d + acc) 0 l.

(** A matched disposal whose gain is its proceeds less its cost, for a
    positive quantity. *)
Definition record_ok (md : MatchedDisposal) : Prop :=
  0 < quantity md /\ gain_loss_gbp md = proceeds_gbp md - cost_gbp md.

(** A record that [add_acquisition] may emit for an acquisition dated
    [acq_date]: same_day for a disposal of that date, thirty_day for a
    disposal of one of the 30 days before. *)
Definition matched_in_window (acq_date : date) (md : MatchedDisposal) : Prop :=
  (matching_rule md = same_day /\ md_date md = acq_date) \/
  (matching_rule md = thirty_day /\
   (md_date md < acq_date <= md_date md + THIRTY_DAYS)%Z).

(** One call of a public method that returned. *)
Inductive step : Section104Pool -> Section104Pool -> Prop :=
  | step_add_acquisition s s' acq_date symbol qty0 cost_gbp0 :
      add_acquisition acq_date symbol qty0 cost_gbp0 s = Ok s' -> step s s'
  | step_remove_disposal s s' disp_date symbol qty0 proceeds_gbp0 :
      remove_disposal disp_date symbol qty0 proceeds_gbp0 s = Ok s' ->
      step s s'
  | step_flush_all_pending s s' order :
      flush_all_pending order s = Ok s' -> step s s'.

(** A pending disposal whose window end is a date. *)
Definition window_in_range (disp : DisposalRecord) : Prop :=
  (MINORDINAL <= dr_date disp + THIRTY_DAYS <= MAXORDINAL)%Z.

(** The pending disposals of one instrument, in order. *)
Definition pending_of (symbol : string) (l : list DisposalRecord)
    : list DisposalRecord :=
  List.filter (fun d => String.eqb (dr_symbol d) symbol) l.

(** The stderr line of a flush that found the pool empty. *)
Definition empty_pool_warning (symbol : string) (d : DisposalRecord)
    : Warning :=
  {| w_qty := qty_remaining d; w_symbol := symbol |}.

End PoolFacts.

(** ** More example data *)

Module Samples.
Import Pooling.

(** The state a computation returned, or a new pool when it raised. *)
Definition state_of (r : Result Section104Pool) : Section104Pool :=
  match r with
  | Ok s => s
  | Raise _ => init
  end.

(** 50 units held for 500 and a disposal of 100 units pending. *)
Definition holding_50_pending_100 : Section104Pool :=
  state_of Examples.half_covered_pool.

(** A disposal of 50 units on 2025-06-01 pending, nothing held. *)
Definition pending_50 : Section104Pool :=
  state_of (remove_disposal 739403 "ABC" 50 6000 init).

(** 100 units held for 15000, 40 units of a disposal of 2025-06-10 and a
    disposal of another instrument pending. *)
Definition mixed_state : Section104Pool :=
  state_of
    (s1 ← add_acquisition 739403 "AAPL" 100 15000 init;
     s2 ← remove_disposal 739412 "AAPL" 40 7000 s1;
     remove_disposal 739412 "MSFT" 10 3000 s2).

End Samples.

(** ** CT600 mapping ([tax_computation.py]) *)

Module Ct600.
Import Tax.

(** CT600 form box mapping.  Boxes 46 and 500 are read from the cached
    [_taxable_profit] and [_corporation_tax], which are Optional. *)
Record CT600Mapping : Set := mkCT600Mapping {
  box_13_non_trading_profits : Decimal;
  box_16_chargeable_gains : Decimal;
  box_46_taxable_total_profit : option Decimal;
  box_500_corporation_tax : option Decimal
}.

(** [TaxComputation.generate_ct600_mapping]: the mapping returned (it is
    also stored in [self._ct600]) and the object afterwards. *)
Definition generate_ct600_mapping (tc : TaxComputation)
    : Result (CT600Mapping * TaxComputation) :=
  tc1 ← match _taxable_profit tc with
        | None => '(_, tc') ← calculate_taxable_profit tc; Ok tc'
        | Some _ => Ok tc
        end;
  tc2 ← match _corporation_tax tc1 with
        | None => '(_, tc') ← calculate_corporation_tax tc1 None; Ok tc'
        | Some _ => Ok tc1
        end;
  let interest_income := _credit tc2 INTEREST_RECEIVED in
  let '(mgmt_ibkr, mgmt_other) := calculate_management_expenses tc2 in
  let '(interest_relief, tc3) := calculate_interest_relief tc2 in
  let allowable := allowable_interest interest_relief in
  let non_trading :=
    quantize 2 (interest_income - mgmt_ibkr - mgmt_other - allowable) in
  chargeable_gains ← calculate_capital_gains tc3;
  Ok ({| box_13_non_trading_profits := non_trading;
         box_16_chargeable_gains := chargeable_gains;
         box_46_taxable_total_profit := _taxable_profit tc3;
         box_500_corporation_tax := _corporation_tax tc3 |}, tc3).

(** The non-trading profit both [calculate_taxable_profit] and
    [generate_ct600_mapping] compute from the accounts. *)
Definition non_trading_of (tc : TaxComputation) : Decimal :=
  quantize 2 (_credit tc INTEREST_RECEIVED - _debit tc BROKER_FEES
              - management_expenses_csv tc
              - allowable_interest (fst (calculate_interest_relief tc))).

(** A new [TaxComputation]: nothing computed yet. *)
Definition fresh (tc : TaxComputation) : Prop :=
  _taxable_profit tc = None /\ _corporation_tax tc = None.

(** The repository's mock accounts over a pool with one disposal. *)
Definition mock_with_gain : TaxComputation :=
  {| _accounts := _accounts Examples.mock_tc;
     _section_104 :=
       match Examples.section_104_only_run with
       | Ok s => s
       | Raise _ => Pooling.init
       end;
     management_expenses_csv := 0;
     _adjustments := [];
     _interest_relief := None;
     _taxable_profit := None;
     _corporation_tax := None |}.

End Ct600.

(** ** Trial balance generation ([ibkr_trial_balance.py])

    Further modelling decisions:
    - Strings are ASCII: [str.upper] and [str.lower] change the 26 letters.
    - The text of a journal memo is an f-string over trade fields; a memo
      is kept as the template used and the values put into it.
    - [fetch_hmrc_rates] downloads the HMRC table of a month.  An
      [HMRCRateCache] is the table each date's month has ([None] where the
      download fails); the [_cache] dict only avoids repeated downloads. *)

Module Books.

(** Exceptions of this layer: those of Decimal and date arithmetic, and
    the ones the rate cache and the account dict raise. *)
Inductive failure : Set :=
  | PyExn (e : exn)
  | RuntimeError        (* Failed to fetch HMRC rates *)
  | ValueError          (* No HMRC rate for the currency *)
  | KeyError.           (* self.accounts[code], code not in the chart *)

Inductive Outcome (A : Type) : Type :=
  | Done (a : A)
  | Fail (f : failure).
Arguments Done {A} a.
Arguments Fail {A} f.

#[global] Instance Outcome_ret : MRet Outcome := fun A a => Done a.
#[global] Instance Outcome_bind : MBind Outcome := fun A B f m =>
  match m with
  | Done a => f a
  | Fail e => Fail e
  end.

(** A call into Decimal arithmetic, the FIFO ledger or the pool. *)
Definition lift {A} (r : Result A) : Outcome A :=
  match r with
  | Ok a => Done a
  | Raise e => Fail (PyExn e)
  end.

(** *** HMRC exchange rates *)

Record HMRCRateCache : Type := mkHMRCRateCache {
  monthly_rates : date -> option (gmap string Decimal)
}.

(** [HMRCRateCache.get_rate] *)
Definition get_rate (rc : HMRCRateCache) (currency : string)
    (tx_date : date) : Outcome Decimal :=
  if String.eqb currency "GBP" then Done 1
  else
    match monthly_rates rc tx_date with
    | None => Fail RuntimeError
    | Some rates =>
        match rates !! currency with
        | None => Fail ValueError
        | Some rate => Done rate
        end
    end.

(** [HMRCRateCache.to_gbp] *)
Definition to_gbp (rc : HMRCRateCache) (amount : Decimal)
    (currency : string) (tx_date : date) : Outcome Decimal :=
  rate ← get_rate rc currency tx_date;
  q ← lift (ddiv amount rate);
  Done (quantize 2 q).

(** *** Data structures *)

(** [str.upper] and [str.lower] *)
Definition upper_ascii (c : Ascii.ascii) : Ascii.ascii :=
  let n := Ascii.nat_of_ascii c in
  if (97 <=? n)%nat && (n <=? 122)%nat then Ascii.ascii_of_nat (n - 32) else c.

Definition lower_ascii (c : Ascii.ascii) : Ascii.ascii :=
  let n := Ascii.nat_of_ascii c in
  if (65 <=? n)%nat && (n <=? 90)%nat then Ascii.ascii_of_nat (n + 32) else c.

Fixpoint upper (s : string) : string :=
  match s with
  | EmptyString => EmptyString
  | String c s' => String (upper_ascii c) (upper s')
  end.

Fixpoint lower (s : string) : string :=
  match s with
  | EmptyString => EmptyString
  | String c s' => String (lower_ascii c) (lower s')
  end.

(** [sub in s] *)
Fixpoint contains (sub s : string) : bool :=
  String.prefix sub s ||
  match s with
  | EmptyString => false
  | String _ s' => contains sub s'
  end.

(** A single trade execution. *)
Record Trade : Set := mkTrade {
  t_date : date;
  t_symbol : string;
  t_description : string;
  buy_sell : string;
  t_quantity : Decimal;
  price : Decimal;
  proceeds : Decimal;
  commission : Decimal;
  t_currency : string;
  t_asset_class : string
}.

Definition is_buy (t : Trade) : bool :=
  let u := upper (buy_sell t) in
  String.eqb u "BUY" || String.eqb u "BOT".

(** A cash transaction (dividend, interest, fee, deposit, ...). *)
Record CashTransaction : Set := mkCashTransaction {
  c_date : date;
  c_type : string;
  c_symbol : string;
  c_description : string;
  amount : Decimal;
  c_currency : string
}.

(** A single account in the trial balance. *)
Record TrialBalanceAccount : Set := mkTrialBalanceAccount {
  code : string;
  name : string;
  debit : Decimal;
  credit : Decimal
}.

(** [TrialBalanceAccount.balance] *)
Definition balance (acc : TrialBalanceAccount) : Decimal :=
  debit acc - credit acc.

(** The memo of a journal entry: the f-string and its values. *)
Inductive Memo : Set :=
  | Buy (q : Decimal) (symbol : string)        (* Buy {q} {symbol} *)
  | Sell (q : Decimal) (symbol : string)       (* Sell {q} {symbol} *)
  | CostOfSold (q : Decimal) (symbol : string) (* Cost of {q} {symbol} sold *)
  | GainOn (symbol : string)                   (* Gain on {symbol} *)
  | LossOn (symbol : string)                   (* Loss on {symbol} *)
  | Dividend (symbol : string)                 (* Dividend {symbol} *)
  | DividendIncome (symbol : string)           (* Dividend income {symbol} *)
  | WHT (symbol : string)                      (* WHT {symbol} *)
  | WHTDeducted (symbol : string)              (* WHT deducted {symbol} *)
  | FeeOf (description : string)               (* Fee: {description} *)
  | DepositOf (description : string)           (* Deposit: {description} *)
  | WithdrawalOf (description : string)        (* Withdrawal: {description} *)
  | OtherOf (description : string)             (* Other: {description} *)
  | Text (s : string).                         (* a constant string *)

(** One dict of [self.journal_entries]. *)
Record JournalEntry : Set := mkJournalEntry {
  je_account : string;
  je_debit : Decimal;
  je_credit : Decimal;
  je_memo : Memo
}.

(** *** The generator *)

(** The object state of a [TrialBalanceGenerator]; [trades] and
    [cash_transactions] are those of [self.parser]. *)
Record TrialBalanceGenerator : Type := mkTrialBalanceGenerator {
  trades : list Trade;
  cash_transactions : list CashTransaction;
  rate_cache : HMRCRateCache;
  period_end : date;
  accounts : gmap string TrialBalanceAccount;
  holdings : gmap string (list Ledger.LotHolding);
  section_104 : option Pooling.Section104Pool;
  journal_entries : list JournalEntry
}.

(** Chart of accounts for investment holding company. *)
Definition ACCOUNTS : list (string * string) :=
  [("1100", "Cash at Bank - GBP");
   ("1101", "Cash at Bank - USD");
   ("1102", "Cash at Bank - Other CCY");
   ("1103", "Cash at Bank - Other");
   ("1200", "Listed Investments at Cost");
   ("2100", "Accruals and Deferred Income");
   ("2101", "Director's / Owner's Loan");
   ("3000", "Share Capital");
   ("3100", "Retained Earnings B/F");
   ("3200", "Profit/(Loss) for Period");
   ("4000", "Dividend Income (Gross)");
   ("4100", "Bank Interest Received");
   ("4200", "Realized Gains on Investments");
   ("5000", "Foreign Withholding Tax");
   ("5100", "Broker Commissions");
   ("5200", "Broker Fees");
   ("5300", "Bank Charges");
   ("5400", "Realized Losses on Investments");
   ("5500", "Foreign Exchange Losses");
   ("5600", "Interest Paid");
   ("4300", "Foreign Exchange Gains")]%string.

(** [TrialBalanceGenerator(parser, rate_cache, period_end)];
    [pooling_imported] tells whether [section_104_pooling] could be
    imported. *)
Definition init (pooling_imported : bool) (parser_trades : list Trade)
    (parser_cash : list CashTransaction) (rc : HMRCRateCache)
    (period_end0 : date) : TrialBalanceGenerator :=
  {| trades := parser_trades;
     cash_transactions := parser_cash;
     rate_cache := rc;
     period_end := period_end0;
     accounts :=
       list_to_map
         (map (fun cn : string * string =>
                 (fst cn, {| code := fst cn; name := snd cn;
                             debit := 0; credit := 0 |}))
              ACCOUNTS);
     holdings := ∅;
     section_104 := if pooling_imported then Some Pooling.init else None;
     journal_entries := [] |}.

Definition set_ledger (g : TrialBalanceGenerator)
    (accounts' : gmap string TrialBalanceAccount)
    (journal' : list JournalEntry) : TrialBalanceGenerator :=
  {| trades := trades g;
     cash_transactions := cash_transactions g;
     rate_cache := rate_cache g;
     period_end := period_end g;
     accounts := accounts';
     holdings := holdings g;
     section_104 := section_104 g;
     journal_entries := journal' |}.

Definition set_holdings (g : TrialBalanceGenerator)
    (holdings' : gmap string (list Ledger.LotHolding))
    : TrialBalanceGenerator :=
  {| trades := trades g;
     cash_transactions := cash_transactions g;
     rate_cache := rate_cache g;
     period_end := period_end g;
     accounts := accounts g;
     holdings := holdings';
     section_104 := section_104 g;
     journal_entries := journal_entries g |}.

Definition set_section_104 (g : TrialBalanceGenerator)
    (s : Pooling.Section104Pool) : TrialBalanceGenerator :=
  {| trades := trades g;
     cash_transactions := cash_transactions g;
     rate_cache := rate_cache g;
     period_end := period_end g;
     accounts := accounts g;
     holdings := holdings g;
     section_104 := Some s;
     journal_entries := journal_entries g |}.

Inductive Side : Set := Dr | Cr.

(** What [_debit] ([Dr]) and [_credit] ([Cr]) do once the amount is known
    not to be negative: add it to the account and append the entry. *)
Definition post (side : Side) (account_code : string) (amount0 : Decimal)
    (memo : Memo) (g : TrialBalanceGenerator)
    : Outcome TrialBalanceGenerator :=
  match accounts g !! account_code with
  | None => Fail KeyError
  | Some acc =>
      let acc' :=
        match side with
        | Dr => {| code := code acc; name := name acc;
                   debit := debit acc + amount0; credit := credit acc |}
        | Cr => {| code := code acc; name := name acc;
                   debit := debit acc; credit := credit acc + amount0 |}
        end in
      let entry :=
        match side with
        | Dr => {| je_account := account_code; je_debit := amount0;
                   je_credit := 0; je_memo := memo |}
        | Cr => {| je_account := account_code; je_debit := 0;
                   je_credit := amount0; je_memo := memo |}
        end in
      Done (set_ledger g (<[account_code := acc']> (accounts g))
                         (journal_entries g ++ [entry]))
  end.

(** [TrialBalanceGenerator._debit]: a negative amount goes to [_credit]
    with its absolute value, which [_credit] then finds not negative. *)
Definition _debit (account_code : string) (amount0 : Decimal) (memo : Memo)
    (g : TrialBalanceGenerator) : Outcome TrialBalanceGenerator :=
  if dlt amount0 0 then post Cr account_code (Qabs amount0) memo g
  else post Dr account_code amount0 memo g.

(** [TrialBalanceGenerator._credit] *)
Definition _credit (account_code : string) (amount0 : Decimal) (memo : Memo)
    (g : TrialBalanceGenerator) : Outcome TrialBalanceGenerator :=
  if dlt amount0 0 then post Dr account_code (Qabs amount0) memo g
  else post Cr account_code amount0 memo g.

(** [TrialBalanceGenerator._process_trade] *)
Definition _process_trade (trade : Trade) (g : TrialBalanceGenerator)
    : Outcome TrialBalanceGenerator :=
  let '(gain_account, loss_account) :=
    if String.eqb (t_asset_class trade) "CASH"
    then ("4300", "5500")%string else ("4200", "5400")%string in
  if is_buy trade then
    let cost_foreign := Qabs (proceeds trade) + commission trade in
    cost_gbp ← to_gbp (rate_cache g) cost_foreign (t_currency trade)
                 (t_date trade);
    let lot :=
      {| Ledger.lot_date := t_date trade;
         Ledger.lot_symbol := t_symbol trade;
         Ledger.quantity := t_quantity trade;
         Ledger.cost_gbp := cost_gbp;
         Ledger.asset_class := t_asset_class trade |} in
    let g1 :=
      set_holdings g
        (<[t_symbol trade :=
             default [] (holdings g !! t_symbol trade) ++ [lot]]>
           (holdings g)) in
    g2 ← _debit "1200" cost_gbp (Buy (t_quantity trade) (t_symbol trade)) g1;
    _credit "1101" cost_gbp (Buy (t_quantity trade) (t_symbol trade)) g2
  else
    let net_proceeds_foreign := Qabs (proceeds trade) - commission trade in
    net_proceeds_gbp ← to_gbp (rate_cache g) net_proceeds_foreign
                         (t_currency trade) (t_date trade);
    '(cost_of_sold, holdings') ←
      lift (Ledger._calculate_fifo_cost (t_symbol trade) (t_quantity trade)
              (holdings g));
    let g1 := set_holdings g holdings' in
    g2 ← _debit "1101" net_proceeds_gbp
           (Sell (t_quantity trade) (t_symbol trade)) g1;
    g3 ← _credit "1200" cost_of_sold
           (CostOfSold (t_quantity trade) (t_symbol trade)) g2;
    let gain_loss := net_proceeds_gbp - cost_of_sold in
    if dlt 0 gain_loss then
      _credit gain_account gain_loss (GainOn (t_symbol trade)) g3
    else if dlt gain_loss 0 then
      _debit loss_account (Qabs gain_loss) (LossOn (t_symbol trade)) g3
    else Done g3.

(** [TrialBalanceGenerator._process_trade_section_104] *)
Definition _process_trade_section_104 (trade : Trade)
    (g : TrialBalanceGenerator) : Outcome TrialBalanceGenerator :=
  match section_104 g with
  | None => Done g
  | Some s =>
      if is_buy trade then
        let cost_foreign := Qabs (proceeds trade) + commission trade in
        cost_gbp ← to_gbp (rate_cache g) cost_foreign (t_currency trade)
                     (t_date trade);
        s' ← lift (Pooling.add_acquisition (t_date trade) (t_symbol trade)
                     (t_quantity trade) cost_gbp s);
        Done (set_section_104 g s')
      else
        let net_proceeds_foreign :=
          Qabs (proceeds trade) - commission trade in
        net_proceeds_gbp ← to_gbp (rate_cache g) net_proceeds_foreign
                             (t_currency trade) (t_date trade);
        s' ← lift (Pooling.remove_disposal (t_date trade) (t_symbol trade)
                     (t_quantity trade) net_proceeds_gbp s);
        Done (set_section_104 g s')
  end.

(** [TrialBalanceGenerator._process_cash_transaction] *)
Definition _process_cash_transaction (tx : CashTransaction)
    (g : TrialBalanceGenerator) : Outcome TrialBalanceGenerator :=
  amount_gbp ← to_gbp (rate_cache g) (Qabs (amount tx)) (c_currency tx)
                 (c_date tx);
  let is_credit := dlt 0 (amount tx) in
  let tx_type := lower (c_type tx) in
  if contains "dividend" tx_type && negb (contains "withhold" tx_type) then
    g1 ← _debit "1101" amount_gbp (Dividend (c_symbol tx)) g;
    _credit "4000" amount_gbp (DividendIncome (c_symbol tx)) g1
  else if contains "withhold" tx_type || contains "tax" tx_type then
    g1 ← _debit "5000" amount_gbp (WHT (c_symbol tx)) g;
    _credit "1101" amount_gbp (WHTDeducted (c_symbol tx)) g1
  else if contains "interest" tx_type then
    if is_credit then
      g1 ← _debit "1101" amount_gbp (Text "Interest received") g;
      _credit "4100" amount_gbp (Text "Interest income") g1
    else
      g1 ← _debit "5600" amount_gbp (Text "Interest paid") g;
      _credit "1101" amount_gbp (Text "Interest expense") g1
  else if contains "fee" tx_type || contains "commission" tx_type then
    g1 ← _debit "5200" amount_gbp (FeeOf (c_description tx)) g;
    _credit "1101" amount_gbp (Text "Fee paid") g1
  else if contains "deposit" tx_type || contains "transfer" tx_type then
    if is_credit then
      g1 ← _debit "1101" amount_gbp (DepositOf (c_description tx)) g;
      _credit "3000" amount_gbp (Text "Capital contribution") g1
    else
      g1 ← _debit "3000" amount_gbp (Text "Capital distribution") g;
      _credit "1101" amount_gbp (WithdrawalOf (c_description tx)) g1
  else
    if is_credit then
      g1 ← _debit "1101" amount_gbp (OtherOf (c_description tx)) g;
      _credit "4100" amount_gbp (Text "Other income") g1
    else
      g1 ← _debit "5200" amount_gbp (OtherOf (c_description tx)) g;
      _credit "1101" amount_gbp (Text "Other expense") g1.

(** The sort key [(t.date, 0 if t.is_buy else 1)] and its tuple order. *)
Definition sort_key (t : Trade) : date * Z :=
  (t_date t, if is_buy t then 0%Z else 1%Z).

Definition key_le (a b : date * Z) : bool :=
  (fst a <? fst b)%Z || ((fst a =? fst b)%Z && (snd a <=? snd b)%Z).

(** [sorted(trades, key=...)]: stable, ascending. *)
Fixpoint insert_by_key (x : Trade) (l : list Trade) : list Trade :=
  match l with
  | [] => [x]
  | y :: l' =>
      if key_le (sort_key y) (sort_key x) then y :: insert_by_key x l'
      else x :: y :: l'
  end.

Definition sorted_by_key (l : list Trade) : list Trade :=
  fold_right insert_by_key [] (rev l).

(** The body of [for trade in sorted_trades]. *)
Definition process_trade (trade : Trade) (g : TrialBalanceGenerator)
    : Outcome TrialBalanceGenerator :=
  g1 ← _process_trade trade g;
  if bool_decide (is_Some (section_104 g1))
     && (String.eqb (t_asset_class trade) "STK"
         || String.eqb (t_asset_class trade) "OPT")
  then _process_trade_section_104 trade g1
  else Done g1.

Fixpoint process_trades (l : list Trade) (g : TrialBalanceGenerator)
    : Outcome TrialBalanceGenerator :=
  match l with
  | [] => Done g
  | trade :: rest =>
      g1 ← process_trade trade g;
      process_trades rest g1
  end.

Fixpoint process_cash (l : list CashTransaction) (g : TrialBalanceGenerator)
    : Outcome TrialBalanceGenerator :=
  match l with
  | [] => Done g
  | tx :: rest =>
      g1 ← _process_cash_transaction tx g;
      process_cash rest g1
  end.

(** [TrialBalanceGenerator.process]; [order] is the order in which
    [flush_all_pending] iterates its set of symbols. *)
Definition process (order : list string) (g : TrialBalanceGenerator)
    : Outcome TrialBalanceGenerator :=
  g1 ← process_trades (sorted_by_key (trades g)) g;
  g2 ← match section_104 g1 with
       | Some s =>
           s' ← lift (Pooling.flush_all_pending order s);
           Done (set_section_104 g1 s')
       | None => Done g1
       end;
  process_cash (cash_transactions g) g2.

(** *** What the theorems speak of *)

(** Totals over the journal and over the accounts. *)
Definition journal_debits (g : TrialBalanceGenerator) : Decimal :=
  fold_right (fun e acc => je_debit e + acc) 0 (journal_entries g).

Definition journal_credits (g : TrialBalanceGenerator) : Decimal :=
  fold_right (fun e acc => je_credit e + acc) 0 (journal_entries g).

Definition sum_accounts (f : TrialBalanceAccount -> Decimal)
    (m : gmap string TrialBalanceAccount) : Decimal :=
  fold_right (fun ka acc => f (snd ka) + acc) 0 (map_to_list m).

Definition total_debits (g : TrialBalanceGenerator) : Decimal :=
  sum_accounts debit (accounts g).

Definition total_credits (g : TrialBalanceGenerator) : Decimal :=
  sum_accounts credit (accounts g).

(** [self.accounts[code].balance], 0 for a code not in the dict. *)
Definition balance_of (g : TrialBalanceGenerator) (account_code : string)
    : Decimal :=
  match accounts g !! account_code with
  | Some acc => balance acc
  | None => 0
  end.

(** Cost of all the lots held, over every symbol. *)
Definition lots_at_cost (g : TrialBalanceGenerator) : Decimal :=
  fold_right (fun kl acc => Ledger.held_cost (snd kl) + acc) 0
    (map_to_list (holdings g)).

(** A journal entry as [_debit] and [_credit] write it. *)
Definition entry_ok (e : JournalEntry) : Prop :=
  (0 <= je_debit e /\ je_credit e = 0) \/
  (je_debit e = 0 /\ 0 <= je_credit e).

(** No account total is negative. *)
Definition accounts_ok (g : TrialBalanceGenerator) : Prop :=
  map_Forall (fun _ acc => 0 <= debit acc /\ 0 <= credit acc) (accounts g).

(** The effect on the books of posting [delta] to an account: a debit of
    [delta], or a credit of [- delta]. *)
Definition posted (account_code : string) (delta : Decimal)
    (g g' : TrialBalanceGenerator) : Prop :=
  trades g' = trades g /\
  cash_transactions g' = cash_transactions g /\
  rate_cache g' = rate_cache g /\
  holdings g' = holdings g /\
  section_104 g' = section_104 g /\
  journal_debits g' - journal_credits g'
    == journal_debits g - journal_credits g + delta /\
  total_debits g' - total_credits g'
    == total_debits g - total_credits g + delta /\
  (forall c, balance_of g' c
             == balance_of g c
                + (if String.eqb c account_code then delta else 0)) /\
  (Forall entry_ok (journal_entries g) ->
   Forall entry_ok (journal_entries g')) /\
  (accounts_ok g -> accounts_ok g').

(** What the postings leave alone besides the books. *)
Definition same_inputs (g g' : TrialBalanceGenerator) : Prop :=
  trades g' = trades g /\ cash_transactions g' = cash_transactions g /\
  rate_cache g' = rate_cache g.

(** The books are in order: journal and accounts balance, nothing
    negative is written, and account 1200 carries the lots at cost. *)
Definition books_ok (g : TrialBalanceGenerator) : Prop :=
  journal_debits g == journal_credits g /\
  total_debits g == total_credits g /\
  Forall entry_ok (journal_entries g) /\
  accounts_ok g /\
  balance_of g "1200" == lots_at_cost g.

(** The order [sorted] puts the trades in. *)
Definition goes_before (a b : Trade) : Prop :=
  key_le (sort_key a) (sort_key b) = true.

Fixpoint ordered (l : list Trade) : Prop :=
  match l with
  | [] => True
  | t :: rest => Forall (goes_before t) rest /\ ordered rest
  end.

(** A pending disposal that a trade with sort key [k] finds already
    there: it is of an earlier date, or of the same date when the trade is
    a sale. *)
Definition pending_before (k : date * Z) (p : Pooling.DisposalRecord)
    : Prop :=
  key_le (Pooling.dr_date p, 1%Z) k = true.

Definition pool_before (k : date * Z) (g : TrialBalanceGenerator) : Prop :=
  match section_104 g with
  | Some s => Forall (pending_before k) (Pooling._pending_disposals s)
  | None => True
  end.

(** No disposal of the pool is recorded as matched same-day. *)
Definition never_same_day (g : TrialBalanceGenerator) : Prop :=
  match section_104 g with
  | Some s =>
      Forall (fun md => Pooling.matching_rule md <> Pooling.same_day)
        (Pooling._disposals s)
  | None => True
  end.

(** The account codes of the chart, and a generator whose account dict
    has them all. *)
Definition chart_codes : list string := map fst ACCOUNTS.

Definition chart_ok (g : TrialBalanceGenerator) : Prop :=
  forall c, c ∈ chart_codes -> is_Some (accounts g !! c).

(** The rate cache has a rate for the currency in the month of the date,
    and it is not zero. *)
Definition rate_ok (rc : HMRCRateCache) (currency : string) (d : date)
    : Prop :=
  exists rate, get_rate rc currency d = Done rate /\ ~ rate == 0.

(** A trade that can be converted, dated so that the day 30 days later
    exists (2 December 9999 is the first date for which it does not). *)
Definition trade_ok (rc : HMRCRateCache) (t : Trade) : Prop :=
  rate_ok rc (t_currency t) (t_date t) /\
  (MINORDINAL <= t_date t + Pooling.THIRTY_DAYS <= MAXORDINAL)%Z.

Definition cash_ok (rc : HMRCRateCache) (tx : CashTransaction) : Prop :=
  rate_ok rc (c_currency tx) (c_date tx).

(** The pool of the generator is well formed and the windows of its
    pending disposals end on dates that exist. *)
Definition pool_ready (g : TrialBalanceGenerator) : Prop :=
  match section_104 g with
  | Some s =>
      Pooling.well_formed s /\
      Forall PoolFacts.window_in_range (Pooling._pending_disposals s)
  | None => True
  end.

(** A step that returns, keeping the chart and the rate cache, and
    leaving the pool alone. *)
Definition returns_ledger (g : TrialBalanceGenerator)
    (m : Outcome TrialBalanceGenerator) : Prop :=
  exists g', m = Done g' /\ chart_ok g' /\ rate_cache g' = rate_cache g /\
             section_104 g' = section_104 g.

(** The accounts [process] posts to. *)
Definition posted_codes : list string :=
  ["1101"; "1200"; "3000"; "4000"; "4100"; "4200"; "4300";
   "5000"; "5200"; "5400"; "5500"; "5600"]%string.

(** From [g] to [g'] the journal only grew, by entries on the accounts
    [process] posts to, and every other account is as it was. *)
Definition touches_only (g g' : TrialBalanceGenerator) : Prop :=
  (exists new,
     journal_entries g' = journal_entries g ++ new /\
     Forall (fun e => je_account e ∈ posted_codes) new) /\
  forall c, c ∉ posted_codes -> accounts g' !! c = accounts g !! c.

End Books.

(** ** A sample run of the generator *)

Module BookSamples.
Import Books.

(** 1.25 USD to the pound in every month. *)
Definition usd_rates : HMRCRateCache :=
  {| monthly_rates := fun _ => Some {[ "USD"%string := 1.25 ]} |}.

(** A sale and a purchase of 2025-06-02, listed in that order, and a sale
    of 2025-07-10. *)
Definition sample_trades : list Trade :=
  [ {| t_date := 739404; t_symbol := "AAPL"; t_description := "APPLE INC";
       buy_sell := "SELL"; t_quantity := 40; price := 125;
       proceeds := 5000; commission := 1.25; t_currency := "USD";
       t_asset_class := "STK" |};
    {| t_date := 739404; t_symbol := "AAPL"; t_description := "APPLE INC";
       buy_sell := "BUY"; t_quantity := 100; price := 100;
       proceeds := -10000; commission := 1.25; t_currency := "USD";
       t_asset_class := "STK" |};
    {| t_date := 739442; t_symbol := "AAPL"; t_description := "APPLE INC";
       buy_sell := "sld"; t_quantity := 60; price := 90;
       proceeds := 5400; commission := 1.25; t_currency := "USD";
       t_asset_class := "STK" |} ].

Definition sample_cash : list CashTransaction :=
  [ {| c_date := 739410; c_type := "Dividends"; c_symbol := "AAPL";
       c_description := "AAPL cash dividend"; amount := 12.5;
       c_currency := "USD" |};
    {| c_date := 739410; c_type := "Withholding Tax"; c_symbol := "AAPL";
       c_description := "AAPL US tax"; amount := -1.88;
       c_currency := "USD" |};
    {| c_date := 739435; c_type := "Broker Interest Paid"; c_symbol := "";
       c_description := "USD debit interest"; amount := -3;
       c_currency := "USD" |} ].

(** Period end 2025-12-31. *)
Definition sample : TrialBalanceGenerator :=
  init true sample_trades sample_cash usd_rates 739616.

(** The generator after [process]. *)
Definition sample_done : TrialBalanceGenerator :=
  match process ["AAPL"%string] sample with
  | Done g => g
  | Fail _ => sample
  end.

(** The pool fed with the first two trades in the order they are listed,
    as a caller of [Section104Pool] may do. *)
Definition pool_in_listed_order : Result Pooling.Section104Pool :=
  s1 ← Pooling.remove_disposal 739404 "AAPL" 40 3999 Pooling.init;
  Pooling.add_acquisition 739404 "AAPL" 100 8001 s1.

End BookSamples.

(** * Properties *)

(** Case analysis on the first computation of a bind that returned. *)
Ltac bind_case H E :=
  match type of H with
  | mbind _ ?m = Ok _ =>
      destruct m eqn:E; cbn [mbind Result_bind] in H; [|discriminate H]
  end.

(** ** Decimal comparisons and rounding *)

Section DecimalFacts.

Lemma dle_true x y : dle x y = true <-> x <= y.
Proof. apply Qle_bool_iff. Qed.

Lemma dle_false x y : dle x y = false <-> y < x.
Proof.
  unfold dle. rewrite <- not_true_iff_false, Qle_bool_iff.
  split; [apply Qnot_le_lt | apply Qlt_not_le].
Qed.

Lemma dlt_true x y : dlt x y = true <-> x < y.
Proof. unfold dlt. rewrite negb_true_iff. apply dle_false. Qed.

Lemma dlt_false x y : dlt x y = false <-> y <= x.
Proof. unfold dlt. rewrite negb_false_iff. apply dle_true. Qed.

Lemma deq_true x y : deq x y = true <-> x == y.
Proof. apply Qeq_bool_iff. Qed.

Lemma deq_false x y : deq x y = false <-> ~ x == y.
Proof. unfold deq. rewrite <- not_true_iff_false, Qeq_bool_iff. tauto. Qed.

Lemma dmin_self x : dmin x x = x.
Proof. unfold dmin. destruct (dlt x x); reflexivity. Qed.

Lemma ddiv_ok x y : ~ y == 0 -> ddiv x y = Ok (x / y).
Proof. intros H. unfold ddiv. apply deq_false in H. now rewrite H. Qed.

Lemma div_ctx_ok x y : ~ y == 0 -> div_ctx x y = Ok (round_ctx (x / y)).
Proof. intros H. unfold div_ctx. apply deq_false in H. now rewrite H. Qed.

Lemma Qfloor_unique (x : Q) (z : Z) :
  inject_Z z <= x -> x < inject_Z (z + 1) -> Qfloor x = z.
Proof.
  intros Hlo Hhi.
  pose proof (Qfloor_le x) as Hf. pose proof (Qlt_floor x) as Hg.
  assert (z <= Qfloor x)%Z.
  { rewrite <- (Qfloor_Z z). now apply Qfloor_resp_le. }
  assert (Qfloor x < z + 1)%Z.
  { rewrite Zlt_Qlt. eapply Qle_lt_trans; eauto. }
  lia.
Qed.

Global Instance round_half_up_comp : Proper (Qeq ==> eq) round_half_up.
Proof.
  intros x y E. unfold round_half_up. rewrite E.
  destruct (Qle_bool 0 y); now rewrite E.
Qed.

Lemma round_half_up_Z (n : Z) : round_half_up (inject_Z n) = n.
Proof.
  unfold round_half_up.
  destruct (Qle_bool 0 (inject_Z n)) eqn:E.
  - apply Qfloor_unique; rewrite ?inject_Z_plus;
      change (inject_Z 1) with 1; lra.
  - replace n with (- - n)%Z at 2 by lia. f_equal.
    apply Qfloor_unique; rewrite ?inject_Z_plus, ?inject_Z_opp;
      change (inject_Z 1) with 1; lra.
Qed.

Lemma round_half_up_mono x y : x <= y -> (round_half_up x <= round_half_up y)%Z.
Proof.
  intros H. unfold round_half_up.
  destruct (Qle_bool 0 x) eqn:Ex, (Qle_bool 0 y) eqn:Ey.
  - apply Qfloor_resp_le. lra.
  - apply Qle_bool_iff in Ex. apply dle_false in Ey. lra.
  - apply dle_false in Ex. apply Qle_bool_iff in Ey.
    assert (0 <= Qfloor (- x + (1 # 2)))%Z.
    { rewrite <- (Qfloor_Z 0). apply Qfloor_resp_le. change (inject_Z 0) with 0. lra. }
    assert (0 <= Qfloor (y + (1 # 2)))%Z.
    { rewrite <- (Qfloor_Z 0). apply Qfloor_resp_le. change (inject_Z 0) with 0. lra. }
    lia.
  - assert (Qfloor (- y + (1 # 2)) <= Qfloor (- x + (1 # 2)))%Z.
    { apply Qfloor_resp_le. lra. }
    lia.
Qed.

Lemma pow10_pos k : 0 < inject_Z (Zpos (pow10 k)).
Proof. replace 0 with (inject_Z 0) by reflexivity. rewrite <- Zlt_Qlt. lia. Qed.

Global Instance quantize_comp k : Proper (Qeq ==> Qeq) (quantize k).
Proof. intros x y E. unfold quantize. now rewrite E. Qed.

Lemma Qmake_le (a b : Z) (p : positive) : (a <= b)%Z -> a # p <= b # p.
Proof. intros H. unfold Qle. simpl. nia. Qed.

Lemma quantize_mono k x y : x <= y -> quantize k x <= quantize k y.
Proof.
  intros H. unfold quantize. apply Qmake_le, round_half_up_mono.
  pose proof (pow10_pos k). nra.
Qed.

Lemma quantize_grid k (n : Z) : quantize k (n # pow10 k) == n # pow10 k.
Proof.
  unfold quantize.
  assert (E : (n # pow10 k) * inject_Z (Zpos (pow10 k)) == inject_Z n).
  { unfold Qeq, Qmult, inject_Z. simpl. lia. }
  rewrite E, round_half_up_Z. reflexivity.
Qed.

Lemma quantize_on_grid k x : on_grid k x -> quantize k x == x.
Proof. intros [n E]. rewrite E. apply quantize_grid. Qed.

Lemma quantize_0 k : quantize k 0 == 0.
Proof. unfold quantize. rewrite Qmult_0_l. reflexivity. Qed.

Lemma quantize_is_on_grid k x : on_grid k (quantize k x).
Proof. eexists. reflexivity. Qed.

Lemma quantize_nonneg k x : 0 <= x -> 0 <= quantize k x.
Proof. intros H. rewrite <- (quantize_0 k). now apply quantize_mono. Qed.

End DecimalFacts.

(** ** The arithmetic context *)

Section ContextFacts.

Lemma ten_pos a : 0 < 10 ^ a.
Proof. apply Qpower_0_lt. reflexivity. Qed.

Lemma ten_succ a : 10 ^ (a + 1) == 10 * 10 ^ a.
Proof.
  rewrite Qpower_plus by discriminate. rewrite Qpower_1_r. ring.
Qed.

Lemma log10_up_spec fuel x a :
  10 ^ a <= x -> x < 10 ^ (a + Z.of_nat fuel) ->
  10 ^ log10_up fuel x a <= x /\ x < 10 ^ (log10_up fuel x a + 1).
Proof.
  revert a. induction fuel as [|fuel IH]; intros a Hlo Hhi.
  - exfalso. rewrite Z.add_0_r in Hhi. lra.
  - cbn [log10_up]. destruct (Qle_bool (10 ^ (a + 1)) x) eqn:E.
    + apply Qle_bool_iff in E. apply IH; [exact E|].
      replace (a + 1 + Z.of_nat fuel)%Z with (a + Z.of_nat (S fuel))%Z by lia.
      exact Hhi.
    + split; [exact Hlo|].
      apply Qnot_le_lt. intros Hle. apply Qle_bool_iff in Hle. congruence.
Qed.

Lemma log10_down_spec fuel x a :
  x < 10 ^ (a + 1) -> 10 ^ (a + 1 - Z.of_nat fuel) <= x ->
  10 ^ log10_down fuel x a <= x /\ x < 10 ^ (log10_down fuel x a + 1).
Proof.
  revert a. induction fuel as [|fuel IH]; intros a Hhi Hlo.
  - exfalso. rewrite Z.sub_0_r in Hlo. lra.
  - cbn [log10_down]. destruct (Qle_bool (10 ^ a) x) eqn:E.
    + apply Qle_bool_iff in E. split; assumption.
    + assert (Hlt : x < 10 ^ a).
      { apply Qnot_le_lt. intros Hle. apply Qle_bool_iff in Hle. congruence. }
      apply IH.
      * replace (a - 1 + 1)%Z with a by lia. exact Hlt.
      * replace (a - 1 + 1 - Z.of_nat fuel)%Z
          with (a + 1 - Z.of_nat (S fuel))%Z by lia.
        exact Hlo.
Qed.

(** A positive integer is below ten to the power of its bit length. *)
Lemma below_ten_pow (n : Z) :
  (0 < n)%Z -> inject_Z n < 10 ^ Z.of_nat (S (Z.to_nat (Z.log2 n))).
Proof.
  intros Hn. pose proof (Z.log2_spec n Hn) as [_ Hlt].
  pose proof (Z.log2_nonneg n) as H0.
  set (k := Z.of_nat (S (Z.to_nat (Z.log2 n)))).
  assert (Ek : k = Z.succ (Z.log2 n)) by (unfold k; lia).
  assert (Hk : (0 <= k)%Z) by lia.
  assert (H10 : (2 ^ k <= 10 ^ k)%Z) by (apply Z.pow_le_mono_l; lia).
  change 10 with (inject_Z 10). rewrite <- Zpower_Qpower by exact Hk.
  rewrite <- Zlt_Qlt. rewrite Ek in *. lia.
Qed.

(** The fuel [adjusted] gives the search is enough: for [x > 0] it returns
    the exponent [a] with [10^a <= x < 10^(a+1)]. *)
Lemma adjusted_spec x :
  0 < x -> 10 ^ adjusted x <= x /\ x < 10 ^ (adjusted x + 1).
Proof.
  intros Hx. unfold adjusted. destruct x as [n d].
  assert (Hn : (0 < n)%Z).
  { unfold Qlt in Hx. cbn in Hx. lia. }
  cbn [Qnum Qden].
  destruct (Qle_bool 1 (n # d)) eqn:E.
  - apply Qle_bool_iff in E. apply log10_up_spec.
    + exact E.
    + rewrite Z.add_0_l.
      eapply Qle_lt_trans; [|apply (below_ten_pow n Hn)].
      unfold Qle. cbn. nia.
  - assert (Hlt : n # d < 1).
    { apply Qnot_le_lt. intros Hle. apply Qle_bool_iff in Hle. congruence. }
    apply log10_down_spec.
    + exact Hlt.
    + replace (-1 + 1 - Z.of_nat (S (Z.to_nat (Z.log2 (Z.pos d)))))%Z
        with (- Z.of_nat (S (Z.to_nat (Z.log2 (Z.pos d)))))%Z by lia.
      rewrite Qpower_opp.
      pose proof (below_ten_pow (Z.pos d) eq_refl) as Hd.
      set (t := 10 ^ Z.of_nat (S (Z.to_nat (Z.log2 (Z.pos d))))) in *.
      assert (Ht : 0 < t) by apply ten_pos.
      apply Qle_shift_inv_r; [exact Ht|].
      assert (H1 : 1 <= (n # d) * inject_Z (Z.pos d)).
      { unfold Qle, Qmult, inject_Z. cbn. nia. }
      assert (H2 : (n # d) * inject_Z (Z.pos d) <= (n # d) * t).
      { apply Qmult_le_l; [exact Hx|]. lra. }
      lra.
Qed.

Lemma adjusted_unique x a :
  0 < x -> 10 ^ a <= x -> x < 10 ^ (a + 1) -> adjusted x = a.
Proof.
  intros Hx Hlo Hhi. destruct (adjusted_spec x Hx) as [Hlo' Hhi'].
  assert (H1 : (a < adjusted x + 1)%Z).
  { apply (Qpower_lt_compat_l_inv 10); [|reflexivity].
    eapply Qle_lt_trans; eassumption. }
  assert (H2 : (adjusted x < a + 1)%Z).
  { apply (Qpower_lt_compat_l_inv 10); [|reflexivity].
    eapply Qle_lt_trans; eassumption. }
  lia.
Qed.

Lemma adjusted_comp x y : 0 < x -> x == y -> adjusted x = adjusted y.
Proof.
  intros Hx E. symmetry.
  destruct (adjusted_spec x Hx) as [Hlo Hhi].
  apply adjusted_unique; lra.
Qed.

Global Instance round_half_even_comp : Proper (Qeq ==> eq) round_half_even.
Proof.
  intros x y E. unfold round_half_even.
  rewrite <- (Qfloor_comp x y E).
  set (f := inject_Z (Qfloor x)).
  assert (E1 : Qeq_bool (x - f) (1 # 2) = Qeq_bool (y - f) (1 # 2)).
  { apply eq_true_iff_eq. rewrite !Qeq_bool_iff. split; lra. }
  assert (E2 : Qle_bool (x - f) (1 # 2) = Qle_bool (y - f) (1 # 2)).
  { apply eq_true_iff_eq. rewrite !Qle_bool_iff. split; lra. }
  now rewrite E1, E2.
Qed.

Global Instance round_ctx_comp : Proper (Qeq ==> Qeq) round_ctx.
Proof.
  intros x y E. unfold round_ctx.
  destruct (Qeq_bool x 0) eqn:Ex.
  - apply Qeq_bool_iff in Ex.
    assert (Ey : Qeq_bool y 0 = true)
      by (apply Qeq_bool_iff; now rewrite <- E).
    now rewrite Ey.
  - assert (Ey : Qeq_bool y 0 = false).
    { rewrite <- not_true_iff_false in *. intros H. apply Ex.
      apply Qeq_bool_iff in H. apply Qeq_bool_iff. now rewrite E. }
    rewrite Ey.
    assert (Hx : 0 < Qabs x).
    { pose proof (Qabs_nonneg x) as H0.
      destruct (Qeq_dec (Qabs x) 0) as [Hz|Hz]; [|lra].
      exfalso. rewrite <- not_true_iff_false in Ex. apply Ex.
      apply Qeq_bool_iff. revert Hz. apply Qabs_case; intros; lra. }
    assert (Ea : Qabs x == Qabs y) by (apply Qabs_wd; exact E).
    rewrite <- (adjusted_comp (Qabs x) (Qabs y) Hx Ea).
    set (e := (adjusted (Qabs x) - (PRECISION - 1))%Z).
    assert (Ed : x / 10 ^ e == y / 10 ^ e).
    { unfold Qdiv. apply Qmult_comp; [exact E|reflexivity]. }
    rewrite (round_half_even_comp _ _ Ed). reflexivity.
Qed.

(** The context rounding on a few values: quotients that do not end, a
    tie (to the even digit), and amounts of fewer than 28 digits, which it
    leaves unchanged. *)
Lemma round_ctx_samples :
  round_ctx (10.01 / 6) == 1.668333333333333333333333333 /\
  round_ctx (2 / 3) == 0.6666666666666666666666666667 /\
  round_ctx (- 2 / 3) == - 0.6666666666666666666666666667 /\
  round_ctx (12345678901234567890123456785 / 10)
    == 1234567890123456789012345678 /\
  round_ctx (12345678901234567890123456775 / 10)
    == 1234567890123456789012345678 /\
  round_ctx 5.005 == 5.005 /\
  round_ctx 23000 == 23000 /\
  round_ctx 0.0001 == 0.0001.
Proof. repeat split; vm_compute; reflexivity. Qed.

End ContextFacts.

(** ** Corporation Tax: interest relief and the tiered liability *)

Section TaxFacts.
Import Tax.

(** Called with a profit, [calculate_corporation_tax] returns
    [corporation_tax_on] of it and stores it. *)
Lemma calculate_corporation_tax_given tc p :
  calculate_corporation_tax tc (Some p)
  = Ok (corporation_tax_on p, set_corporation_tax tc (corporation_tax_on p)).
Proof. reflexivity. Qed.

Lemma marginal_relief_band_linear p :
  marginal_relief_band p == p * (265 # 1000) - 3750.
Proof. unfold marginal_relief_band. field. Qed.

Lemma tax_liability_nonneg p : 0 <= p -> 0 <= tax_liability p.
Proof.
  intros H. unfold tax_liability.
  destruct (dle p 50000) eqn:E1; [|destruct (dle 250000 p) eqn:E2].
  - unfold small_profits_rate. lra.
  - unfold main_rate. lra.
  - apply dle_false in E1. apply dle_false in E2.
    rewrite marginal_relief_band_linear. lra.
Qed.

Lemma tax_liability_mono p q :
  0 <= p -> p <= q -> tax_liability p <= tax_liability q.
Proof.
  intros H0 H. unfold tax_liability.
  destruct (dle p 50000) eqn:P1; [|destruct (dle 250000 p) eqn:P2];
  (destruct (dle q 50000) eqn:Q1; [|destruct (dle 250000 q) eqn:Q2]);
  rewrite ?dle_true, ?dle_false in *;
  rewrite ?marginal_relief_band_linear;
  unfold small_profits_rate, main_rate; lra.
Qed.

(** C8. With interest paid > 0: when taxable earnings (interest received
    less broker fees and the additional management expenses) are <= 0, no
    interest is allowable, all of it is disallowed and the result carries a
    warning; otherwise the allowable interest is the smaller of the interest
    paid and 30% of taxable earnings rounded to 2 decimals, and the
    disallowed interest is the rest. *)
Theorem interest_relief_icr (tc : TaxComputation) :
  let interest_paid := _debit tc INTEREST_PAID in
  let earnings :=
    _credit tc INTEREST_RECEIVED
    - (_debit tc BROKER_FEES + management_expenses_csv tc) in
  let r := fst (calculate_interest_relief tc) in
  0 < interest_paid ->
  total_interest_paid r == interest_paid /\
  taxable_earnings r == earnings /\
  (earnings <= 0 ->
     allowable_interest r == 0 /\
     disallowed_interest r == interest_paid /\
     warning r = Some ICR_WARNING) /\
  (0 < earnings ->
     allowable_interest r
       == Qmin interest_paid (quantize 2 (earnings * (30 # 100))) /\
     disallowed_interest r == interest_paid - allowable_interest r).
Proof.
  intros interest_paid earnings r Hpaid. subst r.
  unfold calculate_interest_relief, calculate_management_expenses.
  fold interest_paid. fold earnings.
  destruct (deq interest_paid 0) eqn:E0.
  { apply deq_true in E0. lra. }
  destruct (dle earnings 0) eqn:E1.
  - apply dle_true in E1.
    cbn [fst total_interest_paid taxable_earnings allowable_interest
         disallowed_interest warning].
    split; [reflexivity|]. split; [reflexivity|]. split.
    + intros _. split; [reflexivity|]. split; reflexivity.
    + intros Hpos. lra.
  - apply dle_false in E1.
    set (limit := quantize 2 (earnings * (30 # 100))).
    destruct (dle interest_paid limit) eqn:E2;
      cbn [fst total_interest_paid taxable_earnings allowable_interest
           disallowed_interest warning];
      (split; [reflexivity|]); (split; [reflexivity|]);
      (split; [intros Hneg; lra|]); intros _.
    + apply dle_true in E2. split; [|lra].
      symmetry. now apply Q.min_l.
    + apply dle_false in E2. split; [|lra].
      symmetry. apply Q.min_r. lra.
Qed.

Lemma interest_relief_icr_witness :
  0 < _debit Examples.mock_tc INTEREST_PAID /\
  allowable_interest (fst (calculate_interest_relief Examples.mock_tc)) == 14528 # 100.
Proof.
  assert (H : 0 < _debit Examples.mock_tc INTEREST_PAID) by (vm_compute; reflexivity).
  split; [exact H|].
  destruct (interest_relief_icr Examples.mock_tc H) as (_ & _ & _ & Hpos).
  destruct Hpos as [Ha _]; [vm_compute; reflexivity|].
  rewrite Ha. vm_compute. reflexivity.
Defined.

Lemma round_half_up_error (y : Q) :
  y - (1 # 2) <= inject_Z (round_half_up y) /\
  inject_Z (round_half_up y) <= y + (1 # 2).
Proof.
  unfold round_half_up. destruct (Qle_bool 0 y).
  - pose proof (Qfloor_le (y + (1 # 2))) as H1.
    pose proof (Qlt_floor (y + (1 # 2))) as H2.
    rewrite inject_Z_plus in H2. change (inject_Z 1) with 1 in H2.
    split; lra.
  - pose proof (Qfloor_le (- y + (1 # 2))) as H1.
    pose proof (Qlt_floor (- y + (1 # 2))) as H2.
    rewrite inject_Z_plus in H2. change (inject_Z 1) with 1 in H2.
    rewrite inject_Z_opp. split; lra.
Qed.

(** Rounding to the penny moves an amount by at most half a penny. *)
Lemma quantize_2_error (x : Decimal) :
  x - (1 # 200) <= quantize 2 x /\ quantize 2 x <= x + (1 # 200).
Proof.
  unfold quantize. change (pow10 2) with 100%positive.
  destruct (round_half_up_error (x * inject_Z 100)) as [H1 H2].
  pose proof (Qmake_Qdiv (round_half_up (x * inject_Z 100)) 100) as E.
  change (inject_Z (Z.pos 100)) with 100 in E.
  change (inject_Z 100) with 100 in *.
  set (n := inject_Z (round_half_up (x * 100))) in *.
  set (t := round_half_up (x * 100) # 100) in *.
  assert (E' : t * 100 == n).
  { transitivity (n / 100 * 100); [|field].
    apply Qmult_comp; [exact E|reflexivity]. }
  split; lra.
Qed.

Lemma tax_liability_slope p q :
  0 < p -> p <= q ->
  tax_liability q - tax_liability p <= (265 # 1000) * (q - p).
Proof.
  intros Hp Hpq. unfold tax_liability.
  destruct (dle p 50000) eqn:P1; [|destruct (dle 250000 p) eqn:P2];
    (destruct (dle q 50000) eqn:Q1; [|destruct (dle 250000 q) eqn:Q2]);
    rewrite ?dle_true, ?dle_false in *;
    rewrite ?marginal_relief_band_linear;
    unfold small_profits_rate, main_rate; lra.
Qed.

Lemma tax_liability_below p : 0 < p -> tax_liability p <= (265 # 1000) * p.
Proof.
  intros Hp. unfold tax_liability.
  destruct (dle p 50000) eqn:P1; [|destruct (dle 250000 p) eqn:P2];
    rewrite ?dle_true, ?dle_false in *;
    rewrite ?marginal_relief_band_linear;
    unfold small_profits_rate, main_rate; lra.
Qed.

Lemma tax_liability_close p q :
  0 < p -> 0 < q ->
  Qabs (tax_liability p - tax_liability q) <= (265 # 1000) * Qabs (p - q).
Proof.
  intros Hp Hq.
  pose proof (Qle_Qabs (p - q)) as A1.
  pose proof (Qle_Qabs (- (p - q))) as A2. rewrite Qabs_opp in A2.
  set (A := Qabs (p - q)) in *.
  apply Qabs_Qle_condition.
  destruct (Qlt_le_dec p q) as [Hlt|Hle].
  - pose proof (tax_liability_slope p q Hp (Qlt_le_weak _ _ Hlt)) as Hs.
    pose proof (tax_liability_mono p q (Qlt_le_weak _ _ Hp)
                  (Qlt_le_weak _ _ Hlt)) as Hm.
    split; lra.
  - pose proof (tax_liability_slope q p Hq Hle) as Hs.
    pose proof (tax_liability_mono q p (Qlt_le_weak _ _ Hq) Hle) as Hm.
    split; lra.
Qed.

Lemma corporation_tax_close p q :
  Qabs (corporation_tax_on p - corporation_tax_on q)
  <= (265 # 1000) * Qabs (p - q) + (1 # 100).
Proof.
  pose proof (Qle_Qabs (p - q)) as A1.
  pose proof (Qle_Qabs (- (p - q))) as A2. rewrite Qabs_opp in A2.
  pose proof (Qabs_nonneg (p - q)) as A0.
  apply Qabs_Qle_condition. unfold corporation_tax_on.
  destruct (dle p 0) eqn:P0; destruct (dle q 0) eqn:Q0;
    rewrite ?dle_true, ?dle_false in *.
  - set (A := Qabs (p - q)) in *. split; lra.
  - pose proof (tax_liability_below q Q0) as Hb.
    pose proof (tax_liability_nonneg q (Qlt_le_weak _ _ Q0)) as Hn.
    destruct (quantize_2_error (tax_liability q)) as [E1 E2].
    set (A := Qabs (p - q)) in *. split; lra.
  - pose proof (tax_liability_below p P0) as Hb.
    pose proof (tax_liability_nonneg p (Qlt_le_weak _ _ P0)) as Hn.
    destruct (quantize_2_error (tax_liability p)) as [E1 E2].
    set (A := Qabs (p - q)) in *. split; lra.
  - pose proof (tax_liability_close p q P0 Q0) as Hc.
    apply Qabs_Qle_condition in Hc.
    destruct (quantize_2_error (tax_liability p)) as [E1 E2].
    destruct (quantize_2_error (tax_liability q)) as [E3 E4].
    set (A := Qabs (p - q)) in *. split; lra.
Qed.

(** C9. The liability has no jump at the thresholds.  The band formulas
    agree at both: 19% of 50000 is the marginal-relief formula at 50000,
    and the marginal-relief formula at 250000 is 25% of 250000.  So the
    liability before rounding, over all positive profits and across both
    thresholds, changes by at most 26.5% of the change in profit, and the
    liability [calculate_corporation_tax] returns, which is rounded to the
    penny, by at most a penny more. *)
Theorem corporation_tax_continuous_at_thresholds :
  small_profits_rate 50000 == marginal_relief_band 50000 /\
  marginal_relief_band 250000 == main_rate 250000 /\
  corporation_tax_on 50000 == quantize 2 (marginal_relief_band 50000) /\
  corporation_tax_on 250000 == quantize 2 (marginal_relief_band 250000) /\
  (forall tc p,
     exists tc',
       calculate_corporation_tax tc (Some p)
       = Ok (corporation_tax_on p, tc')) /\
  (forall p q, 0 < p -> 0 < q ->
     Qabs (tax_liability p - tax_liability q)
     <= (265 # 1000) * Qabs (p - q)) /\
  (forall p q,
     Qabs (corporation_tax_on p - corporation_tax_on q)
     <= (265 # 1000) * Qabs (p - q) + (1 # 100)).
Proof.
  split; [vm_compute; reflexivity|]. split; [vm_compute; reflexivity|].
  split; [vm_compute; reflexivity|]. split; [vm_compute; reflexivity|].
  split; [|split].
  - intros tc p. eexists. apply calculate_corporation_tax_given.
  - exact tax_liability_close.
  - exact corporation_tax_close.
Qed.

Lemma corporation_tax_continuous_at_thresholds_witness :
  0 < 49999.99 /\ 0 < 50000.01 /\
  Qabs (tax_liability 49999.99 - tax_liability 50000.01)
    <= (265 # 1000) * Qabs (49999.99 - 50000.01) /\
  corporation_tax_on 49999.99 == 9500 /\
  corporation_tax_on 50000.01 == 9500.
Proof.
  assert (H1 : 0 < 49999.99) by reflexivity.
  assert (H2 : 0 < 50000.01) by reflexivity.
  destruct corporation_tax_continuous_at_thresholds
    as (_ & _ & _ & _ & _ & Hc & _).
  split; [exact H1|]. split; [exact H2|].
  split; [exact (Hc 49999.99 50000.01 H1 H2)|].
  split; vm_compute; reflexivity.
Defined.

(** C10. The liability is monotone: a larger taxable profit never gives a
    smaller Corporation Tax. *)
Theorem corporation_tax_monotone (p q : Decimal) :
  p <= q -> corporation_tax_on p <= corporation_tax_on q.
Proof.
  intros H. unfold corporation_tax_on.
  destruct (dle p 0) eqn:Ep, (dle q 0) eqn:Eq;
    rewrite ?dle_true, ?dle_false in *.
  - lra.
  - apply quantize_nonneg, tax_liability_nonneg. lra.
  - lra.
  - apply quantize_mono, tax_liability_mono; lra.
Qed.

Lemma corporation_tax_monotone_witness :
  49999 <= 50001 /\ corporation_tax_on 49999 <= corporation_tax_on 50001.
Proof.
  assert (H : 49999 <= 50001) by (vm_compute; discriminate).
  split; [exact H | exact (corporation_tax_monotone 49999 50001 H)].
Defined.

End TaxFacts.

(** ** Section 104 pooling *)

Section PoolingFacts.
Import Pooling.

(** *** Reading the pools *)

Lemma pool_of_insert s s' symbol p other :
  _pools s' = <[symbol := p]> (_pools s) ->
  pool_of s' other = if decide (symbol = other) then p else pool_of s other.
Proof.
  intros E. unfold pool_of. rewrite E.
  destruct (decide (symbol = other)) as [->|Hne].
  - now rewrite lookup_insert_eq.
  - now rewrite lookup_insert_ne.
Qed.

Lemma pool_of_touch s s' symbol other :
  _pools s' = <[symbol := pool_of s symbol]> (_pools s) ->
  pool_of s' other = pool_of s other.
Proof.
  intros E. rewrite (pool_of_insert s s' symbol _ other E).
  destruct (decide (symbol = other)) as [->|]; reflexivity.
Qed.

(** *** The flush loop *)

Lemma flush_loop_app symbol before l1 l2 st :
  flush_loop symbol before (l1 ++ l2) st
  = flush_loop symbol before l1 st ≫= flush_loop symbol before l2.
Proof.
  revert st. induction l1 as [|d l1 IH]; intros st; simpl.
  - reflexivity.
  - destruct (flush_one symbol before st d); simpl; [apply IH|reflexivity].
Qed.

Lemma flush_one_other symbol before st d :
  dr_symbol d <> symbol ->
  flush_one symbol before st d = Ok (keep_pending d st).
Proof.
  intros H. unfold flush_one.
  apply String.eqb_neq in H. now rewrite H.
Qed.

(** Disposals of other instruments pass through the loop untouched. *)
Lemma flush_loop_other symbol before l st :
  Forall (fun d => dr_symbol d <> symbol) l ->
  flush_loop symbol before l st
  = Ok {| f_pool := f_pool st;
          f_new_pending := f_new_pending st ++ l;
          f_disposals := f_disposals st;
          f_stderr := f_stderr st |}.
Proof.
  intros H. revert st. induction H as [|d l Hd _ IH]; intros st; simpl.
  - rewrite app_nil_r. now destruct st.
  - rewrite flush_one_other by assumption. cbn [mbind Result_bind].
    rewrite IH. unfold keep_pending. cbn.
    now rewrite <- app_assoc.
Qed.

Lemma flush_no_pending symbol before s :
  no_pending s symbol ->
  _flush_pending_disposals_for_symbol symbol before s
  = Ok {| _pools := <[symbol := pool_of s symbol]> (_pools s);
          _pending_disposals := _pending_disposals s;
          _disposals := _disposals s;
          stderr := stderr s |}.
Proof.
  intros H. unfold _flush_pending_disposals_for_symbol.
  rewrite flush_loop_other by exact H. reflexivity.
Qed.

(** Recording a disposal of an instrument that has nothing pending. *)
Lemma remove_disposal_no_pending disp_date symbol q p s :
  0 < q ->
  no_pending s symbol ->
  remove_disposal disp_date symbol q p s
  = Ok {| _pools := <[symbol := pool_of s symbol]> (_pools s);
          _pending_disposals :=
            _pending_disposals s ++
            [{| dr_date := disp_date; dr_symbol := symbol;
                qty_remaining := q; original_qty := q;
                total_proceeds_gbp := p |}];
          _disposals := _disposals s;
          stderr := stderr s |}.
Proof.
  intros Hq H. unfold remove_disposal.
  assert (E : dle q 0 = false) by (apply dle_false; exact Hq).
  rewrite E, flush_no_pending by exact H. reflexivity.
Qed.

(** *** Candidates for matching *)

Lemma enumerate_snoc {A} (l : list A) (x : A) :
  enumerate (l ++ [x]) = enumerate l ++ [(length l, x)].
Proof.
  unfold enumerate. rewrite imap_app. simpl.
  now rewrite Nat.add_0_r.
Qed.

Lemma enumerate_snd {A} (l : list A) p :
  In p (enumerate l) -> In (snd p) l.
Proof.
  unfold enumerate. intros H. apply list_elem_of_In in H.
  apply elem_of_lookup_imap in H as (i & x & -> & Hx).
  apply list_elem_of_In. eapply list_elem_of_lookup_2. exact Hx.
Qed.

Lemma filter_none {A} (f : A -> bool) l :
  (forall x, In x l -> f x = false) -> List.filter f l = [].
Proof.
  induction l as [|x l IH]; intros H; simpl; [reflexivity|].
  rewrite (H x) by now left. apply IH. intros y Hy. apply H. now right.
Qed.

Lemma filter_all {A} (f : A -> bool) l :
  (forall x, In x l -> f x = true) -> List.filter f l = l.
Proof.
  induction l as [|x l IH]; intros H; simpl; [reflexivity|].
  rewrite (H x) by now left. f_equal. apply IH. intros y Hy. apply H. now right.
Qed.

Lemma same_day_candidates_snoc l r symbol acq_date :
  Forall (fun d => dr_symbol d <> symbol) l ->
  dr_symbol r = symbol ->
  same_day_candidates (l ++ [r]) symbol acq_date
  = if (dr_date r =? acq_date)%Z then [(length l, r)] else [].
Proof.
  intros Hl Hr. unfold same_day_candidates.
  rewrite enumerate_snoc, List.filter_app, filter_none.
  - simpl. rewrite Hr, String.eqb_refl. simpl.
    now destruct (dr_date r =? acq_date)%Z.
  - intros p Hp. apply enumerate_snd in Hp.
    rewrite Forall_forall in Hl. apply list_elem_of_In, Hl in Hp.
    apply String.eqb_neq in Hp. now rewrite Hp.
Qed.

Lemma thirty_day_candidates_snoc l r symbol acq_date same :
  Forall (fun d => dr_symbol d <> symbol) l ->
  dr_symbol r = symbol ->
  thirty_day_candidates (l ++ [r]) symbol acq_date same
  = if ((dr_date r <? acq_date)%Z
        && (acq_date - dr_date r <=? THIRTY_DAYS)%Z
        && negb (pair_in (length l) r same))
    then [(length l, r)] else [].
Proof.
  intros Hl Hr. unfold thirty_day_candidates.
  rewrite enumerate_snoc, List.filter_app, filter_none.
  - simpl. rewrite Hr, String.eqb_refl. simpl.
    now destruct ((dr_date r <? acq_date)%Z
                  && (acq_date - dr_date r <=? THIRTY_DAYS)%Z
                  && negb (pair_in (length l) r same)).
  - intros p Hp. apply enumerate_snd in Hp.
    rewrite Forall_forall in Hl. apply list_elem_of_In, Hl in Hp.
    apply String.eqb_neq in Hp. now rewrite Hp.
Qed.

(** *** One acquisition against one pending disposal of equal quantity *)

Lemma sort_by_date_nil : sort_by_date [] = [].
Proof. reflexivity. Qed.

Lemma sort_by_date_singleton x : sort_by_date [x] = [x].
Proof. reflexivity. Qed.

Lemma pending_ok_filter l :
  Forall pending_ok l ->
  List.filter (fun d => dlt 0 (qty_remaining d)) l = l.
Proof.
  intros H. apply filter_all. intros d Hd.
  rewrite Forall_forall in H. apply list_elem_of_In, H in Hd.
  apply dlt_true. apply Hd.
Qed.

Lemma add_acquisition_whole_match s l disp_date acq_date symbol q p c :
  _pending_disposals s =
    l ++ [{| dr_date := disp_date; dr_symbol := symbol;
             qty_remaining := q; original_qty := q;
             total_proceeds_gbp := p |}] ->
  Forall pending_ok l ->
  Forall (fun d => dr_symbol d <> symbol) l ->
  0 < q ->
  (disp_date <= acq_date <= disp_date + THIRTY_DAYS)%Z ->
  add_acquisition acq_date symbol q c s
  = Ok {| _pools := _pools s;
          _pending_disposals := l;
          _disposals :=
            _disposals s ++ [whole_match disp_date acq_date symbol q p c];
          stderr := stderr s |}.
Proof.
  intros Hp Hok Hl Hq Hd. unfold add_acquisition.
  assert (E0 : dle q 0 = false) by (apply dle_false; exact Hq).
  assert (E1 : deq q 0 = false) by (apply deq_false; lra).
  rewrite E0, E1, ddiv_ok by lra. cbn [mbind Result_bind].
  rewrite Hp.
  rewrite same_day_candidates_snoc by (assumption || reflexivity).
  rewrite thirty_day_candidates_snoc by (assumption || reflexivity).
  cbn [dr_date].
  assert (Eidx :
    map fst
      ((if (disp_date =? acq_date)%Z
        then [(length l, {| dr_date := disp_date; dr_symbol := symbol;
                            qty_remaining := q; original_qty := q;
                            total_proceeds_gbp := p |})] else []) ++
       sort_by_date
         (if ((disp_date <? acq_date)%Z
              && (acq_date - disp_date <=? THIRTY_DAYS)%Z
              && negb (pair_in (length l)
                         {| dr_date := disp_date; dr_symbol := symbol;
                            qty_remaining := q; original_qty := q;
                            total_proceeds_gbp := p |}
                         (if (disp_date =? acq_date)%Z
                          then [(length l,
                                 {| dr_date := disp_date; dr_symbol := symbol;
                                    qty_remaining := q; original_qty := q;
                                    total_proceeds_gbp := p |})] else [])))
          then [(length l, {| dr_date := disp_date; dr_symbol := symbol;
                              qty_remaining := q; original_qty := q;
                              total_proceeds_gbp := p |})] else []))
    = [length l]).
  { destruct (disp_date =? acq_date)%Z eqn:Eeq.
    - apply Z.eqb_eq in Eeq.
      assert (Elt : (disp_date <? acq_date)%Z = false) by (apply Z.ltb_ge; lia).
      rewrite Elt. reflexivity.
    - apply Z.eqb_neq in Eeq.
      assert (Elt : (disp_date <? acq_date)%Z = true) by (apply Z.ltb_lt; lia).
      assert (Ele : (acq_date - disp_date <=? THIRTY_DAYS)%Z = true)
        by (apply Z.leb_le; lia).
      rewrite Elt, Ele. reflexivity. }
  rewrite Eidx. clear Eidx.
  cbn [match_loop]. unfold match_one. cbn [m_pending m_remaining_qty].
  rewrite list_lookup_middle by reflexivity.
  cbn [qty_remaining original_qty total_proceeds_gbp dr_date dr_symbol].
  rewrite E0. cbn [orb].
  rewrite dmin_self, ddiv_ok by lra. cbn [mbind Result_bind].
  cbn [m_pending m_remaining_qty m_remaining_cost m_disposals].
  rewrite insert_app_r_alt by lia. rewrite Nat.sub_diag. cbn [list_insert insert].
  rewrite List.filter_app, pending_ok_filter by assumption.
  cbn [List.filter qty_remaining].
  assert (E2 : dlt 0 (q - q) = false) by (apply dlt_false; lra).
  rewrite E2, app_nil_r. reflexivity.
Qed.

(** *** One acquisition with nothing to match *)

Lemma add_acquisition_no_candidates s acq_date symbol q c :
  0 < q ->
  Forall pending_ok (_pending_disposals s) ->
  same_day_candidates (_pending_disposals s) symbol acq_date = [] ->
  (forall same,
     thirty_day_candidates (_pending_disposals s) symbol acq_date same = []) ->
  add_acquisition acq_date symbol q c s
  = Ok {| _pools :=
            <[symbol := {| qty := qty (pool_of s symbol) + q;
                           cost := cost (pool_of s symbol) + c |}]> (_pools s);
          _pending_disposals := _pending_disposals s;
          _disposals := _disposals s;
          stderr := stderr s |}.
Proof.
  intros Hq Hok Hsame Hthirty. unfold add_acquisition.
  assert (E0 : dle q 0 = false) by (apply dle_false; exact Hq).
  assert (E1 : deq q 0 = false) by (apply deq_false; lra).
  assert (E2 : dlt 0 q = true) by (apply dlt_true; exact Hq).
  rewrite E0, E1, ddiv_ok by lra. cbn [mbind Result_bind].
  rewrite Hsame, Hthirty. cbn.
  rewrite E2, pending_ok_filter by exact Hok. reflexivity.
Qed.

(** *** Flushing one pending disposal *)

Lemma date_add_ok d n :
  (MINORDINAL <= d + n <= MAXORDINAL)%Z -> date_add d n = Ok (d + n)%Z.
Proof.
  intros [H1 H2]. unfold date_add.
  apply Z.leb_le in H1. apply Z.leb_le in H2. now rewrite H1, H2.
Qed.

Lemma take_from_pool_holding symbol pool q :
  0 < qty pool ->
  take_from_pool symbol pool q = Ok (cost_taken pool q, pool_after pool q, []).
Proof.
  intros H. unfold take_from_pool.
  assert (E : dle (qty pool) 0 = false) by (apply dle_false; exact H).
  rewrite E, div_ctx_ok by lra. reflexivity.
Qed.

Lemma take_from_pool_empty symbol pool q :
  qty pool <= 0 ->
  take_from_pool symbol pool q
  = Ok (0, pool, [{| w_qty := q; w_symbol := symbol |}]).
Proof.
  intros H. unfold take_from_pool.
  apply dle_true in H. now rewrite H.
Qed.

Lemma flush_one_due symbol before st disp :
  due symbol before disp ->
  0 < qty (f_pool st) ->
  flush_one symbol before st disp
  = Ok {| f_pool := pool_after (f_pool st) (qty_remaining disp);
          f_new_pending := f_new_pending st;
          f_disposals :=
            f_disposals st ++
            [flushed disp (cost_taken (f_pool st) (qty_remaining disp))];
          f_stderr := f_stderr st |}.
Proof.
  intros (Hs & [Hrem Horig] & Hrange & Hclosed) Hpool. unfold flush_one.
  rewrite Hs, String.eqb_refl. cbn [negb orb].
  assert (E : dle (qty_remaining disp) 0 = false) by (apply dle_false; exact Hrem).
  rewrite E, date_add_ok by exact Hrange. cbn [mbind Result_bind].
  assert (Ew : (before <=? dr_date disp + THIRTY_DAYS)%Z = false)
    by (apply Z.leb_gt; exact Hclosed).
  rewrite Ew, take_from_pool_holding by exact Hpool. cbn [mbind Result_bind].
  rewrite ddiv_ok by lra. cbn [mbind Result_bind].
  rewrite app_nil_r. unfold flushed. now rewrite Hs.
Qed.

Lemma flush_one_due_empty symbol before st disp :
  due symbol before disp ->
  qty (f_pool st) <= 0 ->
  flush_one symbol before st disp
  = Ok {| f_pool := f_pool st;
          f_new_pending := f_new_pending st;
          f_disposals := f_disposals st ++ [flushed disp 0];
          f_stderr :=
            f_stderr st ++
            [{| w_qty := qty_remaining disp; w_symbol := symbol |}] |}.
Proof.
  intros (Hs & [Hrem Horig] & Hrange & Hclosed) Hpool. unfold flush_one.
  rewrite Hs, String.eqb_refl. cbn [negb orb].
  assert (E : dle (qty_remaining disp) 0 = false) by (apply dle_false; exact Hrem).
  rewrite E, date_add_ok by exact Hrange. cbn [mbind Result_bind].
  assert (Ew : (before <=? dr_date disp + THIRTY_DAYS)%Z = false)
    by (apply Z.leb_gt; exact Hclosed).
  rewrite Ew, take_from_pool_empty by exact Hpool. cbn [mbind Result_bind].
  rewrite ddiv_ok by lra. cbn [mbind Result_bind].
  unfold flushed. now rewrite Hs.
Qed.

(** The flush of an instrument with exactly one pending disposal, which is
    due, against a pool that holds something. *)
Lemma flush_single symbol before s l1 disp l2 :
  _pending_disposals s = l1 ++ disp :: l2 ->
  Forall (fun d => dr_symbol d <> symbol) l1 ->
  Forall (fun d => dr_symbol d <> symbol) l2 ->
  due symbol before disp ->
  0 < qty (pool_of s symbol) ->
  _flush_pending_disposals_for_symbol symbol before s
  = Ok {| _pools :=
            <[symbol := pool_after (pool_of s symbol) (qty_remaining disp)]>
              (_pools s);
          _pending_disposals := l1 ++ l2;
          _disposals :=
            _disposals s ++
            [flushed disp
               (cost_taken (pool_of s symbol) (qty_remaining disp))];
          stderr := stderr s |}.
Proof.
  intros Hp H1 H2 Hdue Hpool. unfold _flush_pending_disposals_for_symbol.
  rewrite Hp, flush_loop_app, flush_loop_other by exact H1.
  cbn [mbind Result_bind flush_loop].
  rewrite flush_one_due by assumption. cbn [mbind Result_bind].
  rewrite flush_loop_other by exact H2. cbn.
  reflexivity.
Qed.

(** *** Reachable states are well formed *)

Lemma match_one_original_qty symbol acq_date cpu st idx st' :
  match_one symbol acq_date cpu st idx = Ok st' ->
  Forall (fun d => 0 < original_qty d) (m_pending st) ->
  Forall (fun d => 0 < original_qty d) (m_pending st').
Proof.
  unfold match_one. intros H Hall.
  destruct (m_pending st !! idx) as [disp|] eqn:El;
    [|injection H as <-; exact Hall].
  destruct (dle (m_remaining_qty st) 0 || dle (qty_remaining disp) 0);
    [injection H as <-; exact Hall|].
  bind_case H Ed.
  inversion H; subst; clear H. cbn [m_pending].
  apply Forall_insert; [exact Hall|].
  cbn [original_qty]. exact (Forall_lookup_1 _ _ _ _ Hall El).
Qed.

Lemma match_loop_original_qty symbol acq_date cpu idxs st st' :
  match_loop symbol acq_date cpu idxs st = Ok st' ->
  Forall (fun d => 0 < original_qty d) (m_pending st) ->
  Forall (fun d => 0 < original_qty d) (m_pending st').
Proof.
  revert st. induction idxs as [|idx idxs IH]; intros st H Hall; simpl in H.
  - injection H as <-. exact Hall.
  - bind_case H E1.
    eapply IH; [exact H|].
    eapply match_one_original_qty; eassumption.
Qed.

Lemma pending_ok_original_qty l :
  Forall pending_ok l -> Forall (fun d => 0 < original_qty d) l.
Proof.
  intros H. eapply Forall_impl; [exact H|]. intros d [_ Hd]. exact Hd.
Qed.

Lemma add_acquisition_well_formed acq_date symbol q c s s' :
  add_acquisition acq_date symbol q c s = Ok s' ->
  well_formed s -> well_formed s'.
Proof.
  unfold add_acquisition. intros H [Hpend Hpool].
  destruct (dle q 0); [inversion H; subst; now split|].
  bind_case H Ecpu. bind_case H Eloop. rename a0 into st.
  apply match_loop_original_qty in Eloop;
    [|cbn [m_pending]; now apply pending_ok_original_qty].
  inversion H; subst; clear H. split; cbn [_pending_disposals].
  - apply Forall_forall. intros d Hd.
    apply list_elem_of_In, List.filter_In in Hd as [Hin Hpos].
    rewrite Forall_forall in Eloop. split.
    + now apply dlt_true.
    + apply Eloop. now apply list_elem_of_In.
  - intros other. unfold pool_of at 1. cbn [_pools].
    destruct (dlt 0 (m_remaining_qty st)) eqn:Erem; [|apply Hpool].
    apply dlt_true in Erem.
    destruct (decide (symbol = other)) as [->|Hne].
    + rewrite lookup_insert_eq. simpl.
      specialize (Hpool other). lra.
    + rewrite lookup_insert_ne by exact Hne. apply Hpool.
Qed.

Lemma take_from_pool_qty symbol pool q c pool' w :
  take_from_pool symbol pool q = Ok (c, pool', w) ->
  0 <= qty pool -> 0 <= qty pool'.
Proof.
  unfold take_from_pool. intros H Hq.
  destruct (dle (qty pool) 0); [inversion H; subst; exact Hq|].
  bind_case H Ed.
  inversion H; subst; clear H. cbn [qty].
  destruct (dlt (qty pool - q) 0) eqn:E; [lra|].
  now apply dlt_false in E.
Qed.

Lemma flush_one_well_formed symbol before st d st' :
  flush_one symbol before st d = Ok st' ->
  pending_ok d ->
  Forall pending_ok (f_new_pending st) -> 0 <= qty (f_pool st) ->
  Forall pending_ok (f_new_pending st') /\ 0 <= qty (f_pool st').
Proof.
  unfold flush_one. intros H Hd Hall Hq.
  destruct (negb (dr_symbol d =? symbol)%string || dle (qty_remaining d) 0).
  { inversion H; subst. cbn. split; [|exact Hq].
    apply Forall_app. split; [exact Hall|].
    constructor; [exact Hd|constructor]. }
  bind_case H Ew.
  match type of H with context [(before <=? ?w)%Z] =>
    destruct (before <=? w)%Z end.
  { inversion H; subst. cbn. split; [|exact Hq].
    apply Forall_app. split; [exact Hall|].
    constructor; [exact Hd|constructor]. }
  bind_case H Et.
  match type of Et with _ = Ok ?r => destruct r as [[c pool'] ws] end.
  bind_case H Ed.
  inversion H; subst; clear H. cbn. split; [exact Hall|].
  eapply take_from_pool_qty; eassumption.
Qed.

Lemma flush_loop_well_formed symbol before l st st' :
  flush_loop symbol before l st = Ok st' ->
  Forall pending_ok l ->
  Forall pending_ok (f_new_pending st) -> 0 <= qty (f_pool st) ->
  Forall pending_ok (f_new_pending st') /\ 0 <= qty (f_pool st').
Proof.
  revert st. induction l as [|d l IH]; intros st H Hl Hall Hq; simpl in H.
  - inversion H; subst. now split.
  - bind_case H E1.
    inversion Hl; subst.
    destruct (flush_one_well_formed _ _ _ _ _ E1) as [Hall1 Hq1]; try assumption.
    eapply IH; eassumption.
Qed.

Lemma flush_well_formed symbol before s s' :
  _flush_pending_disposals_for_symbol symbol before s = Ok s' ->
  well_formed s -> well_formed s'.
Proof.
  unfold _flush_pending_disposals_for_symbol. intros H [Hpend Hpool].
  bind_case H Eloop.
  apply flush_loop_well_formed in Eloop as [Hall Hq];
    [|exact Hpend|constructor|apply Hpool].
  inversion H; subst; clear H. split; [exact Hall|].
  intros other. unfold pool_of at 1. cbn [_pools].
  destruct (decide (symbol = other)) as [->|Hne].
  - rewrite lookup_insert_eq. exact Hq.
  - rewrite lookup_insert_ne by exact Hne. apply Hpool.
Qed.

Lemma remove_disposal_well_formed disp_date symbol q p s s' :
  remove_disposal disp_date symbol q p s = Ok s' ->
  well_formed s -> well_formed s'.
Proof.
  unfold remove_disposal. intros H Hwf.
  destruct (dle q 0) eqn:Eq; [inversion H; subst; exact Hwf|].
  apply dle_false in Eq.
  bind_case H Ef.
  apply flush_well_formed in Ef as [Hpend Hpool]; [|exact Hwf].
  inversion H; subst; clear H. split; cbn [_pending_disposals].
  - apply Forall_app. split; [exact Hpend|].
    constructor; [split; exact Eq|constructor].
  - exact Hpool.
Qed.

Lemma flush_symbols_well_formed order s s' :
  flush_symbols order s = Ok s' -> well_formed s -> well_formed s'.
Proof.
  revert s. induction order as [|x order IH]; intros s H Hwf; simpl in H.
  - inversion H; subst; exact Hwf.
  - bind_case H Ef.
    eapply IH; [exact H|]. eapply flush_well_formed; eassumption.
Qed.

Lemma init_well_formed : well_formed init.
Proof.
  split; [constructor|]. intros x. unfold pool_of, init. cbn.
  rewrite lookup_empty. cbn. lra.
Qed.

Lemma reachable_well_formed s : reachable s -> well_formed s.
Proof.
  induction 1.
  - apply init_well_formed.
  - eapply add_acquisition_well_formed; eassumption.
  - eapply remove_disposal_well_formed; eassumption.
  - eapply flush_symbols_well_formed; eassumption.
Qed.

End PoolingFacts.

(** ** Section 104 pooling: the matching rules *)

Section MatchingRules.
Import Pooling.

Lemma whole_match_cost_exact disp_date acq_date symbol q p c :
  0 < q -> on_grid 2 c -> on_grid 4 (c / q) ->
  cost_gbp (whole_match disp_date acq_date symbol q p c) == c.
Proof.
  intros Hq Hc Hu. cbn [whole_match cost_gbp].
  rewrite (quantize_on_grid 4 (c / q) Hu).
  assert (E : c / q * q == c) by (field; lra).
  rewrite E. now apply quantize_on_grid.
Qed.

Lemma whole_match_proceeds disp_date acq_date symbol q p c :
  0 < q ->
  proceeds_gbp (whole_match disp_date acq_date symbol q p c) == quantize 2 p.
Proof.
  intros Hq. cbn [whole_match proceeds_gbp].
  assert (E : p * q / q == p) by (field; lra).
  now rewrite E.
Qed.

(** C1 (as amended). From a reachable state with no pending disposal of the
    instrument, a disposal of [q] units on a date followed by an acquisition
    of [q] units on that date emits exactly one MatchedDisposal, tagged
    same_day, for [q] units.  Its cost is the acquisition's unit cost (cost
    / q rounded half-up to 4 decimals) times [q], rounded to 2 decimals:
    the acquisition's full cost when that cost is in whole pence and the
    unit cost needs no rounding.  Its proceeds are the disposal's proceeds
    rounded to 2 decimals.  The pending set and every pool are as before,
    so the instrument's pool quantity is zero afterwards when it was zero
    before. *)
Theorem same_day_match (s : Section104Pool) (d : date) (symbol : string)
    (q p c : Decimal) :
  reachable s -> no_pending s symbol -> 0 < q ->
  exists s' md,
    remove_disposal d symbol q p s ≫= add_acquisition d symbol q c = Ok s' /\
    _disposals s' = _disposals s ++ [md] /\
    matching_rule md = same_day /\
    md_date md = d /\ md_symbol md = symbol /\ quantity md = q /\
    cost_gbp md = quantize 2 (quantize 4 (c / q) * q) /\
    (on_grid 2 c -> on_grid 4 (c / q) -> cost_gbp md == c) /\
    proceeds_gbp md == quantize 2 p /\
    (on_grid 2 p -> proceeds_gbp md == p) /\
    _pending_disposals s' = _pending_disposals s /\
    (forall other, pool_of s' other = pool_of s other).
Proof.
  intros Hreach Hno Hq.
  destruct (reachable_well_formed s Hreach) as [Hok _].
  rewrite remove_disposal_no_pending by assumption.
  cbn [mbind Result_bind].
  erewrite (add_acquisition_whole_match _ (_pending_disposals s) d d);
    [|reflexivity|exact Hok|exact Hno|exact Hq|unfold THIRTY_DAYS; lia].
  eexists _, (whole_match d d symbol q p c).
  split; [reflexivity|]. cbn [_disposals _pending_disposals].
  split; [reflexivity|].
  split; [cbn; now rewrite Z.eqb_refl|].
  do 4 (split; [reflexivity|]).
  split; [intros; now apply whole_match_cost_exact|].
  split; [now apply whole_match_proceeds|].
  split.
  { intros Hp. rewrite whole_match_proceeds by exact Hq.
    now apply quantize_on_grid. }
  split; [reflexivity|].
  intros other. now apply (pool_of_touch s _ symbol).
Qed.

Lemma same_day_match_witness :
  reachable init /\ no_pending init "XYZ" /\ 0 < 100 /\
  exists s' md,
    remove_disposal 739412 "XYZ" 100 11000 init
      ≫= add_acquisition 739412 "XYZ" 100 9000 = Ok s' /\
    _disposals s' = [md] /\
    matching_rule md = same_day /\
    cost_gbp md == 9000 /\
    proceeds_gbp md == 11000 /\
    gain_loss_gbp md == 2000 /\
    qty (pool_of s' "XYZ") == 0.
Proof.
  assert (Hno : no_pending init "XYZ") by constructor.
  assert (Hq : 0 < 100) by reflexivity.
  split; [exact reachable_init|]. split; [exact Hno|]. split; [exact Hq|].
  destruct (same_day_match init 739412 "XYZ" 100 11000 9000
              reachable_init Hno Hq)
    as (s' & md & Hrun & Hd & Hrule & _ & _ & _ & Hcost & _ & Hpr & _ & _ & Hpool).
  exists s', md. split; [exact Hrun|]. split; [exact Hd|].
  split; [exact Hrule|].
  assert (Ec : cost_gbp md == 9000) by (rewrite Hcost; vm_compute; reflexivity).
  assert (Ep : proceeds_gbp md == 11000) by (rewrite Hpr; vm_compute; reflexivity).
  split; [exact Ec|]. split; [exact Ep|]. split.
  - assert (Hg : gain_loss_gbp md = proceeds_gbp md - cost_gbp md).
    { revert Hrun Hd. vm_compute. intros [= <-] [= <-]. reflexivity. }
    rewrite Hg, Ec, Ep. reflexivity.
  - rewrite Hpool. vm_compute. reflexivity.
Defined.

(** C1, as stated, fails: 300 units bought for 100.01 have a unit cost of
    0.3334 after rounding, and the matched cost is 100.02. *)
Lemma same_day_match_cost_differs :
  exists s' md,
    remove_disposal 739412 "XYZ" 300 11000 init
      ≫= add_acquisition 739412 "XYZ" 300 (10001 # 100) = Ok s' /\
    _disposals s' = [md] /\
    matching_rule md = same_day /\
    cost_gbp md == 10002 # 100 /\
    ~ cost_gbp md == 10001 # 100.
Proof.
  eexists _, _. split; [vm_compute; reflexivity|].
  split; [vm_compute; reflexivity|].
  split; [reflexivity|].
  split; [vm_compute; reflexivity|].
  vm_compute. discriminate.
Qed.

(** C7 (as amended). An acquisition or a disposal with a negative or zero
    quantity is ignored: the call returns without raising and leaves the
    pools, the pending disposals and the matched disposals as they were. *)
Theorem nonpositive_quantity_ignored (s : Section104Pool) (d : date)
    (symbol : string) (q amount : Decimal) :
  q <= 0 ->
  add_acquisition d symbol q amount s = Ok s /\
  remove_disposal d symbol q amount s = Ok s.
Proof.
  intros H. apply dle_true in H.
  unfold add_acquisition, remove_disposal. now rewrite H.
Qed.

Lemma nonpositive_quantity_ignored_witness :
  -5 <= 0 /\
  add_acquisition 739412 "XYZ" (-5) 100 init = Ok init /\
  remove_disposal 739412 "XYZ" (-5) 100 init = Ok init.
Proof.
  assert (H : -5 <= 0) by (vm_compute; discriminate).
  split; [exact H|].
  exact (nonpositive_quantity_ignored init 739412 "XYZ" (-5) 100 H).
Defined.

(** C7, as stated, fails: a negative quantity raises nothing. *)
Lemma negative_quantity_not_raised :
  ~ raises (add_acquisition 739412 "XYZ" (-5) 100 init) /\
  ~ raises (remove_disposal 739412 "XYZ" (-5) 100 init).
Proof. split; intros [e H]; vm_compute in H; discriminate. Qed.

End MatchingRules.

(** ** Section 104 pooling: the 30-day window *)

Section ThirtyDayWindow.
Import Pooling.

(** C2 (as amended). From a reachable state with no pending disposal of the
    instrument, take a disposal of [q] units on day [d0] and then an
    acquisition of [q] units of the instrument.
    - Acquired on day [d0 + 15]: exactly one MatchedDisposal is emitted,
      tagged thirty_day; its cost is the acquisition's unit cost (cost / q
      rounded half-up to 4 decimals) times [q], rounded to 2 decimals, which
      is the acquisition's cost when that cost is in whole pence and the
      unit cost needs no rounding; nothing is pending and no pool changes.
    - Acquired on day [d0 + 31]: nothing is matched, the disposal stays
      pending and the acquisition's quantity and cost are added to the
      instrument's pool.  Every later flush of the instrument (the one
      [flush_all_pending] runs, or the one a later disposal runs) then emits
      one MatchedDisposal for the disposal, tagged section_104, at the
      pool's average cost: the pool's cost over its quantity, rounded to
      the 28 digits of the context, times [q], rounded to 28 digits and
      then half-up to 2 decimals. *)
Theorem thirty_day_window (s : Section104Pool) (d0 : date)
    (symbol : string) (q p c : Decimal) :
  reachable s -> no_pending s symbol -> 0 < q ->
  valid_date d0 -> valid_date (d0 + 31) ->
  (exists s' md,
     remove_disposal d0 symbol q p s
       ≫= add_acquisition (d0 + 15) symbol q c = Ok s' /\
     _disposals s' = _disposals s ++ [md] /\
     matching_rule md = thirty_day /\
     md_date md = d0 /\ quantity md = q /\
     cost_gbp md = quantize 2 (quantize 4 (c / q) * q) /\
     (on_grid 2 c -> on_grid 4 (c / q) -> cost_gbp md == c) /\
     _pending_disposals s' = _pending_disposals s /\
     (forall other, pool_of s' other = pool_of s other)) /\
  (exists s1 md,
     remove_disposal d0 symbol q p s
       ≫= add_acquisition (d0 + 31) symbol q c = Ok s1 /\
     _disposals s1 = _disposals s /\
     _pending_disposals s1 =
       _pending_disposals s ++
       [{| dr_date := d0; dr_symbol := symbol; qty_remaining := q;
           original_qty := q; total_proceeds_gbp := p |}] /\
     qty (pool_of s1 symbol) = qty (pool_of s symbol) + q /\
     cost (pool_of s1 symbol) = cost (pool_of s symbol) + c /\
     matching_rule md = section_104 /\
     md_date md = d0 /\ quantity md = q /\
     cost_gbp md
       = quantize 2
           (mul_ctx
              (round_ctx (cost (pool_of s1 symbol) / qty (pool_of s1 symbol)))
              q) /\
     forall before, (d0 + 30 < before)%Z ->
       exists s2,
         _flush_pending_disposals_for_symbol symbol before s1 = Ok s2 /\
         _disposals s2 = _disposals s ++ [md] /\
         _pending_disposals s2 = _pending_disposals s).
Proof.
  intros Hreach Hno Hq Hd0 Hd31.
  destruct (reachable_well_formed s Hreach) as [Hok Hpool].
  unfold valid_date, MINORDINAL, MAXORDINAL in Hd0, Hd31.
  rewrite !remove_disposal_no_pending by assumption.
  cbn [mbind Result_bind].
  set (r := {| dr_date := d0; dr_symbol := symbol; qty_remaining := q;
               original_qty := q; total_proceeds_gbp := p |}).
  set (s0 := {| _pools := <[symbol:=pool_of s symbol]> (_pools s);
                _pending_disposals := _pending_disposals s ++ [r];
                _disposals := _disposals s;
                stderr := stderr s |}).
  assert (Htouch : forall other, pool_of s0 other = pool_of s other)
    by (intros other; now apply (pool_of_touch s s0 symbol)).
  split.
  - erewrite (add_acquisition_whole_match s0 (_pending_disposals s) d0 (d0 + 15));
      [|reflexivity|exact Hok|exact Hno|exact Hq|unfold THIRTY_DAYS; lia].
    eexists _, (whole_match d0 (d0 + 15) symbol q p c).
    split; [reflexivity|]. cbn [_disposals _pending_disposals].
    split; [reflexivity|].
    split.
    { cbn. assert (E : (d0 =? d0 + 15)%Z = false) by (apply Z.eqb_neq; lia).
      now rewrite E. }
    do 3 (split; [reflexivity|]).
    split; [intros; now apply whole_match_cost_exact|].
    split; [reflexivity|].
    intros other. apply (Htouch other).
  - assert (Hok0 : Forall pending_ok (_pending_disposals s0)).
    { apply Forall_app. split; [exact Hok|].
      constructor; [split; exact Hq|constructor]. }
    rewrite (add_acquisition_no_candidates s0 (d0 + 31) symbol q c Hq Hok0).
    2:{ cbn [s0 _pending_disposals].
        rewrite same_day_candidates_snoc by (assumption || reflexivity).
        cbn [r dr_date].
        assert (E : (d0 =? d0 + 31)%Z = false) by (apply Z.eqb_neq; lia).
        now rewrite E. }
    2:{ intros same. cbn [s0 _pending_disposals].
        rewrite thirty_day_candidates_snoc by (assumption || reflexivity).
        cbn [r dr_date].
        assert (E : (d0 + 31 - d0 <=? THIRTY_DAYS)%Z = false)
          by (apply Z.leb_gt; unfold THIRTY_DAYS; lia).
        rewrite E. now rewrite andb_false_r. }
    rewrite !Htouch.
    set (s1 := {| _pools :=
                    <[symbol:={| qty := qty (pool_of s symbol) + q;
                                 cost := cost (pool_of s symbol) + c |}]>
                      (_pools s0);
                  _pending_disposals := _pending_disposals s0;
                  _disposals := _disposals s0;
                  stderr := stderr s0 |}).
    assert (Hp1 : pool_of s1 symbol
                  = {| qty := qty (pool_of s symbol) + q;
                       cost := cost (pool_of s symbol) + c |}).
    { rewrite (pool_of_insert s0 s1 symbol _ symbol eq_refl).
      now destruct (decide (symbol = symbol)). }
    exists s1, (flushed r (cost_taken (pool_of s1 symbol) q)).
    split; [reflexivity|]. split; [reflexivity|]. split; [reflexivity|].
    rewrite Hp1. cbn [qty cost].
    do 5 (split; [reflexivity|]).
    split; [reflexivity|].
    intros before Hbefore.
    assert (Hdue : due symbol before r).
    { split; [reflexivity|]. split; [split; exact Hq|].
      cbn [r dr_date]. unfold THIRTY_DAYS, MINORDINAL, MAXORDINAL. lia. }
    erewrite (flush_single symbol before s1 (_pending_disposals s) r []);
      [|reflexivity|exact Hno|constructor|exact Hdue|].
    2:{ rewrite Hp1. cbn [qty]. specialize (Hpool symbol). lra. }
    eexists. split; [reflexivity|]. cbn [_disposals _pending_disposals].
    rewrite Hp1, app_nil_r. split; reflexivity.
Qed.

Lemma thirty_day_window_witness :
  reachable init /\ no_pending init "ABC" /\ 0 < 50 /\
  valid_date 739403 /\ valid_date (739403 + 31) /\
  (exists s' md,
     remove_disposal 739403 "ABC" 50 6000 init
       ≫= add_acquisition (739403 + 15) "ABC" 50 4000 = Ok s' /\
     _disposals s' = [md] /\
     matching_rule md = thirty_day /\
     cost_gbp md == 4000) /\
  (exists s1 md,
     remove_disposal 739403 "ABC" 50 6000 init
       ≫= add_acquisition (739403 + 31) "ABC" 50 4000 = Ok s1 /\
     _disposals s1 = [] /\
     qty (pool_of s1 "ABC") == 50 /\ cost (pool_of s1 "ABC") == 4000 /\
     matching_rule md = section_104 /\
     cost_gbp md == 4000 /\
     exists s2,
       flush_all_pending ["ABC"%string] s1 = Ok s2 /\
       _disposals s2 = [md] /\ _pending_disposals s2 = []).
Proof.
  assert (Hno : no_pending init "ABC") by constructor.
  assert (Hq : 0 < 50) by reflexivity.
  assert (Hd0 : valid_date 739403) by (unfold valid_date, MINORDINAL, MAXORDINAL; lia).
  assert (Hd31 : valid_date (739403 + 31))
    by (unfold valid_date, MINORDINAL, MAXORDINAL; lia).
  do 5 (split; [first [exact reachable_init|assumption]|]).
  destruct (thirty_day_window init 739403 "ABC" 50 6000 4000
              reachable_init Hno Hq Hd0 Hd31) as [HA HB].
  split.
  - destruct HA as (s' & md & Hrun & Hd & Hrule & _ & _ & Hcost & _).
    exists s', md. split; [exact Hrun|]. split; [exact Hd|].
    split; [exact Hrule|]. rewrite Hcost. vm_compute. reflexivity.
  - destruct HB as (s1 & md & Hrun & Hd & _ & Hqty & Hcst & Hrule & _ & _
                    & Hcost & Hflush).
    exists s1, md. split; [exact Hrun|]. split; [exact Hd|].
    split; [rewrite Hqty; vm_compute; reflexivity|].
    split; [rewrite Hcst; vm_compute; reflexivity|].
    split; [exact Hrule|].
    split; [rewrite Hcost, Hqty, Hcst; vm_compute; reflexivity|].
    destruct (Hflush MAXORDINAL) as (s2 & Hf & Hd2 & Hp2);
      [unfold MAXORDINAL; lia|].
    exists s2. unfold flush_all_pending, flush_symbols.
    rewrite Hf. cbn [mbind Result_bind].
    split; [reflexivity|]. split; [exact Hd2|exact Hp2].
Defined.

(** C2, as stated, fails in its first part: 300 units bought on day 15 for
    100.01 match at cost 100.02, not at the acquisition's cost. *)
Lemma thirty_day_match_cost_differs :
  exists s' md,
    remove_disposal 739403 "ABC" 300 6000 init
      ≫= add_acquisition (739403 + 15) "ABC" 300 (10001 # 100) = Ok s' /\
    _disposals s' = [md] /\
    matching_rule md = thirty_day /\
    cost_gbp md == 10002 # 100 /\
    ~ cost_gbp md == 10001 # 100.
Proof.
  eexists _, _. split; [vm_compute; reflexivity|].
  split; [vm_compute; reflexivity|].
  split; [reflexivity|].
  split; [vm_compute; reflexivity|].
  vm_compute. discriminate.
Qed.

End ThirtyDayWindow.

(** ** Section 104 pooling: taking a disposal from the pool *)

Section PoolDebit.
Import Pooling.

(** C3 (as amended). Whenever the flush of an instrument reaches a
    pending disposal that is due, with [q] units left to match, and the
    pool then holds quantity TQ > 0 and cost TC with q <= TQ:
    - one MatchedDisposal is recorded for it, tagged section_104, for [q]
      units, and no warning is written;
    - its cost is the average cost TC / TQ, rounded to the 28 significant
      digits of the Decimal context, times [q], rounded to 28 digits and
      then half-up to 2 decimals; this is [q] x (TC / TQ) rounded half-up
      to 2 decimals whenever the quotient and its product with [q] need no
      context rounding;
    - the pool quantity drops by exactly [q];
    - the pool cost drops by exactly the cost taken unless that would make
      it negative, in which case it is set to zero.
    [st] is the state of the loop of [_flush_pending_disposals_for_symbol]
    when it reaches the disposal: the pool as the disposals flushed before
    it have left it.  In particular 100 for 150 and 50 for 80 followed by a
    flushed disposal of 75 take 115 and leave 75 units at cost 115, and 100
    for 15000 and 50 for 8000 followed by a flushed disposal of 75 sold for
    13500 give cost 11500, gain 2000, rule section_104. *)
Theorem pool_debit_average_cost (symbol : string) (before : date)
    (st : FlushState) (disp : DisposalRecord) :
  due symbol before disp ->
  0 < qty (f_pool st) ->
  qty_remaining disp <= qty (f_pool st) ->
  (exists st' md,
     flush_one symbol before st disp = Ok st' /\
     f_disposals st' = f_disposals st ++ [md] /\
     f_new_pending st' = f_new_pending st /\
     f_stderr st' = f_stderr st /\
     matching_rule md = section_104 /\
     md_date md = dr_date disp /\
     md_symbol md = symbol /\
     quantity md = qty_remaining disp /\
     cost_gbp md
       = quantize 2
           (mul_ctx (round_ctx (cost (f_pool st) / qty (f_pool st)))
              (qty_remaining disp)) /\
     (round_ctx (cost (f_pool st) / qty (f_pool st))
        == cost (f_pool st) / qty (f_pool st) ->
      round_ctx (cost (f_pool st) / qty (f_pool st) * qty_remaining disp)
        == cost (f_pool st) / qty (f_pool st) * qty_remaining disp ->
      cost_gbp md
        == quantize 2
             (cost (f_pool st) / qty (f_pool st) * qty_remaining disp)) /\
     gain_loss_gbp md = proceeds_gbp md - cost_gbp md /\
     qty (f_pool st') = qty (f_pool st) - qty_remaining disp /\
     cost (f_pool st')
       = (if dlt (cost (f_pool st) - cost_gbp md) 0 then 0
          else cost (f_pool st) - cost_gbp md)) /\
  (exists s' md,
     Examples.pool_average_run 200 = Ok s' /\
     _disposals s' = [md] /\
     matching_rule md = section_104 /\
     cost_gbp md == 115 /\
     qty (pool_of s' "AAPL") == 75 /\ cost (pool_of s' "AAPL") == 115) /\
  (exists s' md,
     Examples.section_104_only_run = Ok s' /\
     _disposals s' = [md] /\
     matching_rule md = section_104 /\
     proceeds_gbp md == 13500 /\
     cost_gbp md == 11500 /\
     gain_loss_gbp md == 2000 /\
     qty (pool_of s' "AAPL") == 75 /\ cost (pool_of s' "AAPL") == 11500).
Proof.
  intros Hdue Hqty Hq. split; [|split].
  - rewrite (flush_one_due symbol before st disp Hdue Hqty).
    eexists _, _. split; [reflexivity|].
    cbn [f_disposals f_new_pending f_stderr f_pool].
    split; [reflexivity|]. split; [reflexivity|]. split; [reflexivity|].
    split; [reflexivity|]. split; [reflexivity|].
    split; [exact (proj1 Hdue)|]. split; [reflexivity|].
    split; [reflexivity|].
    cbn [flushed cost_gbp proceeds_gbp gain_loss_gbp pool_after qty cost].
    split.
    { intros E1 E2. unfold cost_taken, mul_ctx.
      apply quantize_comp. rewrite <- E2.
      apply round_ctx_comp. now rewrite E1. }
    split; [reflexivity|].
    assert (E : dlt (qty (f_pool st) - qty_remaining disp) 0 = false)
      by (apply dlt_false; lra).
    rewrite E. split; reflexivity.
  - eexists _, _.
    split; [vm_compute; reflexivity|].
    split; [vm_compute; reflexivity|].
    split; [reflexivity|].
    repeat split; vm_compute; reflexivity.
  - eexists _, _.
    split; [vm_compute; reflexivity|].
    split; [vm_compute; reflexivity|].
    split; [reflexivity|].
    repeat split; vm_compute; reflexivity.
Qed.

Lemma pool_debit_average_cost_witness :
  let disp := {| dr_date := 739433; dr_symbol := "AAPL"; qty_remaining := 75;
                 original_qty := 75; total_proceeds_gbp := 200 |} in
  let st := {| f_pool := {| qty := 150; cost := 230 |};
               f_new_pending := []; f_disposals := []; f_stderr := [] |} in
  due "AAPL" MAXORDINAL disp /\
  0 < qty (f_pool st) /\
  qty_remaining disp <= qty (f_pool st) /\
  exists st' md,
    flush_one "AAPL" MAXORDINAL st disp = Ok st' /\
    f_disposals st' = [md] /\
    cost_gbp md == 115 /\
    qty (f_pool st') == 75 /\
    cost (f_pool st') == 115.
Proof.
  intros disp st.
  assert (Hdue : due "AAPL" MAXORDINAL disp).
  { split; [reflexivity|]. split; [split; reflexivity|].
    cbn. unfold THIRTY_DAYS, MINORDINAL, MAXORDINAL. lia. }
  assert (Hqty : 0 < qty (f_pool st)) by reflexivity.
  assert (Hq : qty_remaining disp <= qty (f_pool st))
    by (vm_compute; discriminate).
  split; [exact Hdue|]. split; [exact Hqty|]. split; [exact Hq|].
  destruct (pool_debit_average_cost "AAPL" MAXORDINAL st disp Hdue Hqty Hq)
    as [(st' & md & Hrun & Hd & _ & _ & _ & _ & _ & _ & Hcost & _ & _
         & Hq' & Hc') _].
  exists st', md. split; [exact Hrun|]. split; [exact Hd|].
  assert (Ec : cost_gbp md == 115) by (rewrite Hcost; vm_compute; reflexivity).
  split; [exact Ec|]. split.
  - rewrite Hq'. vm_compute. reflexivity.
  - rewrite Hc', Hcost. vm_compute. reflexivity.
Defined.

(** The flush of an instrument whose only pending disposal is due: what
    C3 says of one disposal, at the level of the method. *)
Lemma flush_sole_pending (s : Section104Pool) (symbol : string)
    (before : date) (l1 l2 : list DisposalRecord) (disp : DisposalRecord) :
  _pending_disposals s = l1 ++ disp :: l2 ->
  Forall (fun d => dr_symbol d <> symbol) l1 ->
  Forall (fun d => dr_symbol d <> symbol) l2 ->
  due symbol before disp ->
  0 < qty (pool_of s symbol) ->
  qty_remaining disp <= qty (pool_of s symbol) ->
  exists s' md,
    _flush_pending_disposals_for_symbol symbol before s = Ok s' /\
    _disposals s' = _disposals s ++ [md] /\
    _pending_disposals s' = l1 ++ l2 /\
    matching_rule md = section_104 /\
    quantity md = qty_remaining disp /\
    cost_gbp md
      = quantize 2
          (mul_ctx
             (round_ctx (cost (pool_of s symbol) / qty (pool_of s symbol)))
             (qty_remaining disp)) /\
    qty (pool_of s' symbol) = qty (pool_of s symbol) - qty_remaining disp /\
    cost (pool_of s' symbol)
      = (if dlt (cost (pool_of s symbol) - cost_gbp md) 0 then 0
         else cost (pool_of s symbol) - cost_gbp md) /\
    stderr s' = stderr s.
Proof.
  intros Hp H1 H2 Hdue Hqty Hq.
  rewrite (flush_single symbol before s l1 disp l2) by assumption.
  eexists _, _. split; [reflexivity|].
  cbn [_disposals _pending_disposals stderr].
  split; [reflexivity|]. split; [reflexivity|]. split; [reflexivity|].
  split; [reflexivity|]. split; [reflexivity|].
  match goal with
  | |- context [pool_of ?s1 symbol] =>
      match s1 with
      | s => fail 1
      | _ => rewrite (pool_of_insert s s1 symbol _ symbol eq_refl)
      end
  end.
  destruct (decide (symbol = symbol)) as [_|Hne]; [|congruence].
  cbn [pool_after qty cost flushed cost_gbp].
  assert (E : dlt (qty (pool_of s symbol) - qty_remaining disp) 0 = false)
    by (apply dlt_false; lra).
  rewrite E. split; [reflexivity|]. split; reflexivity.
Qed.

(** The rounding of the average cost to 28 digits decides half-penny ties.
    Six units held at cost 10.01, three flushed: the average is
    1.668333333333333333333333333, the cost taken is 5.00, whereas
    3 x (10.01 / 6) = 5.005 rounded half-up is 5.01. *)
Lemma pool_debit_quotient_rounded :
  exists s0 s' md,
    Examples.six_for_10_01 = Ok s0 /\
    qty (pool_of s0 "X") == 6 /\ cost (pool_of s0 "X") == 10.01 /\
    flush_all_pending ["X"%string] s0 = Ok s' /\
    _disposals s' = [md] /\
    quantity md == 3 /\
    cost_gbp md == 5 /\
    quantize 2 (3 * (10.01 / 6)) == 5.01 /\
    cost (pool_of s' "X") == 5.01.
Proof.
  eexists _, _, _.
  split; [vm_compute; reflexivity|].
  split; [vm_compute; reflexivity|].
  split; [vm_compute; reflexivity|].
  split; [vm_compute; reflexivity|].
  split; [vm_compute; reflexivity|].
  repeat split; vm_compute; reflexivity.
Qed.

(** C3, as stated, fails where the rounded cost exceeds what the pool
    holds.  One unit held at cost 0.005: the flush takes 0.01 and the pool
    cost falls by 0.005 only.  Two units held at cost -0.05 (reached from
    amounts in whole pence): a flush of one unit takes -0.03 and the pool
    cost goes to 0 instead of -0.02. *)
Lemma pool_debit_cost_clamped :
  (exists s0 s' md,
     Examples.half_penny_pool = Ok s0 /\
     flush_all_pending ["X"%string] s0 = Ok s' /\
     _disposals s' = _disposals s0 ++ [md] /\
     0 < qty (pool_of s0 "X") /\
     quantity md <= qty (pool_of s0 "X") /\
     cost_gbp md == 1 # 100 /\
     cost (pool_of s0 "X") - cost (pool_of s' "X") == 5 # 1000 /\
     ~ cost (pool_of s0 "X") - cost (pool_of s' "X") == cost_gbp md) /\
  (exists s0 s' md,
     Examples.negative_cost_pool = Ok s0 /\
     flush_all_pending ["X"%string] s0 = Ok s' /\
     _disposals s' = _disposals s0 ++ [md] /\
     0 < qty (pool_of s0 "X") /\
     quantity md <= qty (pool_of s0 "X") /\
     cost_gbp md == - (3 # 100) /\
     cost (pool_of s0 "X") - cost (pool_of s' "X") == - (5 # 100) /\
     ~ cost (pool_of s0 "X") - cost (pool_of s' "X") == cost_gbp md).
Proof.
  split; eexists _, _, _;
    (split; [vm_compute; reflexivity|]);
    (split; [vm_compute; reflexivity|]);
    (split; [vm_compute; reflexivity|]);
    (split; [vm_compute; reflexivity|]);
    (split; [vm_compute; discriminate|]);
    (split; [vm_compute; reflexivity|]);
    (split; [vm_compute; reflexivity|]);
    vm_compute; discriminate.
Qed.

(** C5 (the code on a pool that covers half of the disposal).  50 units
    are held at cost 500 and 100 units are flushed: the disposal is charged
    1000, twice what the pool held, the pool is set to zero units and zero
    cost, and nothing is written to stderr.  The design document asks for a
    warning and for the 50 uncovered units to cost nothing, which is what
    the branch for an empty pool does. *)
Theorem half_covered_flush :
  exists s0 s' md,
    Examples.half_covered_pool = Ok s0 /\
    qty (pool_of s0 "X") == 50 /\ cost (pool_of s0 "X") == 500 /\
    flush_all_pending ["X"%string] s0 = Ok s' /\
    _disposals s' = [md] /\
    matching_rule md = section_104 /\
    quantity md == 100 /\
    cost_gbp md == 1000 /\
    qty (pool_of s' "X") == 0 /\ cost (pool_of s' "X") == 0 /\
    stderr s' = [].
Proof.
  eexists _, _, _.
  split; [vm_compute; reflexivity|].
  split; [vm_compute; reflexivity|].
  split; [vm_compute; reflexivity|].
  split; [vm_compute; reflexivity|].
  split; [vm_compute; reflexivity|].
  split; [reflexivity|].
  repeat split; vm_compute; reflexivity.
Qed.

End PoolDebit.

(** ** Section 104 pooling: the end-of-stream flush *)

Section FlushAll.
Import Pooling.

Lemma flush_loop_due_all symbol before l st :
  Forall (fun d => dr_symbol d = symbol -> due symbol before d) l ->
  exists st',
    flush_loop symbol before l st = Ok st' /\
    f_new_pending st' = f_new_pending st ++ List.filter (not_of [symbol]) l.
Proof.
  intros H. revert st. induction H as [|d l Hd _ IH]; intros st.
  - exists st. split; [reflexivity|]. cbn. now rewrite app_nil_r.
  - cbn [flush_loop List.filter]. unfold not_of at 1. cbn [existsb].
    rewrite orb_false_r.
    destruct (String.eqb (dr_symbol d) symbol) eqn:Es; cbn [negb].
    + apply String.eqb_eq in Es. specialize (Hd Es).
      destruct (Qlt_le_dec 0 (qty (f_pool st))) as [Hpos|Hemp].
      * rewrite flush_one_due by assumption. cbn [mbind Result_bind].
        destruct (IH {| f_pool := pool_after (f_pool st) (qty_remaining d);
                        f_new_pending := f_new_pending st;
                        f_disposals :=
                          f_disposals st ++
                          [flushed d (cost_taken (f_pool st) (qty_remaining d))];
                        f_stderr := f_stderr st |}) as (st' & Hrun & Hnew).
        exists st'. split; [exact Hrun|exact Hnew].
      * rewrite flush_one_due_empty by assumption. cbn [mbind Result_bind].
        destruct (IH {| f_pool := f_pool st;
                        f_new_pending := f_new_pending st;
                        f_disposals := f_disposals st ++ [flushed d 0];
                        f_stderr :=
                          f_stderr st ++
                          [{| w_qty := qty_remaining d; w_symbol := symbol |}] |})
          as (st' & Hrun & Hnew).
        exists st'. split; [exact Hrun|exact Hnew].
    + apply String.eqb_neq in Es.
      rewrite flush_one_other by exact Es. cbn [mbind Result_bind].
      destruct (IH (keep_pending d st)) as (st' & Hrun & Hnew).
      exists st'. split; [exact Hrun|].
      rewrite Hnew. cbn [keep_pending f_new_pending].
      now rewrite <- app_assoc.
Qed.

Lemma before_dec_9999_due d :
  pending_ok d -> before_dec_9999 d -> due (dr_symbol d) MAXORDINAL d.
Proof.
  intros Hok [Hlo Hhi]. split; [reflexivity|]. split; [exact Hok|].
  unfold THIRTY_DAYS, MINORDINAL, MAXORDINAL in *. lia.
Qed.

Lemma not_of_cons x order d :
  not_of (x :: order) d = not_of [x] d && not_of order d.
Proof.
  unfold not_of. cbn [existsb]. rewrite orb_false_r.
  now rewrite negb_orb.
Qed.

Lemma filter_not_of_cons x order l :
  List.filter (not_of order) (List.filter (not_of [x]) l)
  = List.filter (not_of (x :: order)) l.
Proof.
  induction l as [|d l IH]; [reflexivity|].
  simpl. rewrite (not_of_cons x order d).
  destruct (not_of [x] d) eqn:E1; simpl.
  - destruct (not_of order d); [f_equal|]; exact IH.
  - exact IH.
Qed.

Lemma flush_symbols_all order s :
  Forall pending_ok (_pending_disposals s) ->
  Forall before_dec_9999 (_pending_disposals s) ->
  exists s',
    flush_symbols order s = Ok s' /\
    _pending_disposals s' = List.filter (not_of order) (_pending_disposals s).
Proof.
  revert s. induction order as [|x order IH]; intros s Hok Hdate.
  - exists s. split; [reflexivity|]. symmetry. apply filter_all. reflexivity.
  - cbn [flush_symbols]. unfold _flush_pending_disposals_for_symbol.
    destruct (flush_loop_due_all x MAXORDINAL (_pending_disposals s)
                {| f_pool := pool_of s x; f_new_pending := [];
                   f_disposals := _disposals s; f_stderr := stderr s |})
      as (st & Hrun & Hnew).
    { rewrite Forall_forall in Hok, Hdate. apply Forall_forall.
      intros d Hd <-. apply before_dec_9999_due; auto. }
    rewrite Hrun. cbn [mbind Result_bind]. cbn [f_new_pending app] in Hnew.
    match goal with
    | |- exists s', flush_symbols order ?s1 = _ /\ _ =>
        destruct (IH s1) as (s' & Hrest & Hpend)
    end.
    + cbn [_pending_disposals]. rewrite Hnew.
      apply Forall_forall. intros d Hd.
      apply list_elem_of_In, List.filter_In in Hd as [Hd _].
      rewrite Forall_forall in Hok. apply Hok. now apply list_elem_of_In.
    + cbn [_pending_disposals]. rewrite Hnew.
      apply Forall_forall. intros d Hd.
      apply list_elem_of_In, List.filter_In in Hd as [Hd _].
      rewrite Forall_forall in Hdate. apply Hdate. now apply list_elem_of_In.
    + exists s'. split; [exact Hrest|].
      rewrite Hpend. cbn [_pending_disposals]. rewrite Hnew.
      apply filter_not_of_cons.
Qed.

(** For pending disposals dated before 9999-12-01 the end-of-stream flush
    does what its docstring says: it returns with nothing pending, and a
    second call finds no instrument to flush and changes nothing. *)
Lemma flush_all_pending_idempotent s order :
  reachable s ->
  Forall before_dec_9999 (_pending_disposals s) ->
  iteration_order s order ->
  exists s',
    flush_all_pending order s = Ok s' /\
    _pending_disposals s' = [] /\
    forall order',
      iteration_order s' order' -> flush_all_pending order' s' = Ok s'.
Proof.
  intros Hreach Hdate [_ Horder].
  destruct (reachable_well_formed s Hreach) as [Hok _].
  destruct (flush_symbols_all order s Hok Hdate) as (s' & Hrun & Hpend).
  assert (Hnil : _pending_disposals s' = []).
  { rewrite Hpend. apply filter_none. intros d Hd.
    unfold not_of. apply negb_false_iff, existsb_exists.
    exists (dr_symbol d). split; [|apply String.eqb_refl].
    apply list_elem_of_In, Horder, list_elem_of_fmap.
    exists d. split; [reflexivity|]. now apply list_elem_of_In. }
  exists s'. split; [exact Hrun|]. split; [exact Hnil|].
  intros order' [_ Horder']. rewrite Hnil in Horder'.
  destruct order' as [|x order']; [reflexivity|].
  exfalso. specialize (Horder' x). cbn in Horder'.
  assert (Hx : x ∈ x :: order') by left.
  apply Horder' in Hx. inversion Hx.
Qed.

(** C4 (the code on a disposal dated 9999-12-01).  The window of that
    disposal ends on 9999-12-31, which is not before the date the
    end-of-stream flush passes, so the disposal is still pending after
    [flush_all_pending] and no MatchedDisposal is recorded for it; a second
    call leaves it pending again.  For a disposal dated one day later the
    flush raises OverflowError. *)
Theorem flush_all_pending_keeps_dec_9999 :
  (exists s0 s',
     Examples.dec_9999_pending = Ok s0 /\
     iteration_order s0 ["X"%string] /\
     flush_all_pending ["X"%string] s0 = Ok s' /\
     _pending_disposals s' = _pending_disposals s0 /\
     _pending_disposals s' <> [] /\
     _disposals s' = [] /\
     flush_all_pending ["X"%string] s' = Ok s') /\
  (exists s1,
     Examples.dec_9999_late_pending = Ok s1 /\
     iteration_order s1 ["X"%string] /\
     flush_all_pending ["X"%string] s1 = Raise OverflowError).
Proof.
  split.
  - eexists _, _. split; [vm_compute; reflexivity|].
    split.
    { split; [repeat constructor; set_solver|]. intros x. reflexivity. }
    split; [vm_compute; reflexivity|].
    split; [reflexivity|]. split; [discriminate|].
    split; [reflexivity|]. vm_compute. reflexivity.
  - eexists. split; [vm_compute; reflexivity|].
    split.
    { split; [repeat constructor; set_solver|]. intros x. reflexivity. }
    vm_compute. reflexivity.
Qed.

End FlushAll.

(** ** FIFO ledger: disposal of more than is held *)

Section LedgerFacts.
Import Ledger.

Lemma held_quantity_nonneg lots : nonneg_lots lots -> 0 <= held_quantity lots.
Proof.
  induction 1 as [|lot lots Hq _ IH]; simpl.
  - lra.
  - lra.
Qed.

(** The loop never raises: the only division is by the quantity of a lot
    that is larger than a positive remainder. *)
Lemma fifo_loop_total lots st : exists st', fifo_loop lots st = Ok st'.
Proof.
  revert st. induction lots as [|lot lots IH]; intros st; simpl.
  - eauto.
  - unfold consume_lot.
    destruct (dle (remaining st) 0) eqn:E1; [apply IH|].
    destruct (dle (quantity lot) (remaining st)) eqn:E2; [apply IH|].
    apply dle_false in E1. apply dle_false in E2.
    rewrite div_ctx_ok by lra. apply IH.
Qed.

(** The lots the loop leaves have no negative quantity either. *)
Lemma fifo_loop_nonneg lots st st' :
  fifo_loop lots st = Ok st' ->
  nonneg_lots lots -> nonneg_lots (new_lots st) ->
  nonneg_lots (new_lots st').
Proof.
  revert st. induction lots as [|lot lots IH]; intros st H Hl Hn; simpl in H.
  - injection H as <-. exact Hn.
  - bind_case H E. inversion Hl as [|? ? Hq Hrest]; subst.
    eapply IH; [exact H|exact Hrest|].
    unfold consume_lot in E.
    destruct (dle (remaining st) 0).
    { injection E as <-. cbn. apply Forall_app. split; [exact Hn|].
      constructor; [exact Hq|constructor]. }
    destruct (dle (quantity lot) (remaining st)) eqn:E2.
    { injection E as <-. exact Hn. }
    apply dle_false in E2. bind_case E Ed. injection E as <-. cbn.
    apply Forall_app. split; [exact Hn|].
    constructor; [cbn; lra|constructor].
Qed.

Lemma fifo_loop_under_supply lots st :
  nonneg_lots lots ->
  held_quantity lots < remaining st ->
  exists st',
    fifo_loop lots st = Ok st' /\
    new_lots st' = new_lots st /\
    total_cost st' == total_cost st + held_cost lots /\
    remaining st' == remaining st - held_quantity lots.
Proof.
  intros Hnn. revert st.
  induction Hnn as [|lot lots Hq Hrest IH]; intros st Hlt; simpl in *.
  - exists st. repeat split; lra.
  - pose proof (held_quantity_nonneg lots Hrest) as Hh.
    unfold consume_lot.
    assert (E1 : dle (remaining st) 0 = false) by (apply dle_false; lra).
    assert (E2 : dle (quantity lot) (remaining st) = true)
      by (apply dle_true; lra).
    rewrite E1, E2. cbn [mbind Result_bind].
    destruct (IH {| remaining := remaining st - quantity lot;
                    total_cost := total_cost st + cost_gbp lot;
                    new_lots := new_lots st |}) as (st' & Hrun & Hl & Hc & Hr).
    { simpl. lra. }
    exists st'. simpl in *. repeat split; [exact Hrun|exact Hl|lra|lra].
Qed.

(** C6. A FIFO disposal of more than the instrument's lots hold (lot
    quantities being non-negative, as acquisitions record them) does not
    raise: it returns the cost of all the lots and leaves the instrument
    with no lots. *)
Theorem fifo_cost_under_supply (symbol : string) (requested : Decimal)
    (holdings : gmap string (list LotHolding)) :
  let lots := default [] (holdings !! symbol) in
  nonneg_lots lots ->
  held_quantity lots < requested ->
  exists cost,
    _calculate_fifo_cost symbol requested holdings
      = Ok (cost, <[symbol := []]> holdings) /\
    cost == held_cost lots.
Proof.
  intros lots Hnn Hlt. unfold _calculate_fifo_cost. fold lots.
  destruct (fifo_loop_under_supply lots
              {| remaining := requested; total_cost := 0; new_lots := [] |}
              Hnn Hlt) as (st' & Hrun & Hl & Hc & _).
  rewrite Hrun. cbn [mbind Result_bind]. simpl in Hl, Hc.
  exists (total_cost st'). rewrite Hl. split; [reflexivity|lra].
Qed.

Lemma fifo_cost_under_supply_witness :
  let lots := default [] (Examples.two_lots !! "AAPL"%string) in
  nonneg_lots lots /\
  held_quantity lots < 200 /\
  exists cost,
    _calculate_fifo_cost "AAPL" 200 Examples.two_lots
      = Ok (cost, <["AAPL"%string := []]> Examples.two_lots) /\
    cost == 2300.
Proof.
  assert (Hnn : nonneg_lots (default [] (Examples.two_lots !! "AAPL"%string)))
    by (repeat constructor; vm_compute; discriminate).
  assert (Hlt : held_quantity (default [] (Examples.two_lots !! "AAPL"%string))
                < 200) by (vm_compute; reflexivity).
  split; [exact Hnn|]. split; [exact Hlt|].
  exact (fifo_cost_under_supply "AAPL" 200 Examples.two_lots Hnn Hlt).
Defined.

End LedgerFacts.

(** ** Section 104 pooling: what every call keeps *)

Section PoolRecords.
Import Pooling PoolFacts.

(** *** The records a call appends *)

Lemma match_one_records symbol acq_date cpu st idx st' :
  match_one symbol acq_date cpu st idx = Ok st' ->
  map dr_date (m_pending st') = map dr_date (m_pending st) /\
  exists new,
    m_disposals st' = m_disposals st ++ new /\
    Forall (fun md =>
      md_symbol md = symbol /\ record_ok md /\
      exists d, m_pending st !! idx = Some d /\
                md_date md = dr_date d /\
                matching_rule md =
                  (if (dr_date d =? acq_date)%Z then same_day else thirty_day))
      new.
Proof.
  unfold match_one. intros H.
  destruct (m_pending st !! idx) as [disp|] eqn:El.
  2:{ injection H as <-. split; [reflexivity|].
      exists []. split; [now rewrite app_nil_r|constructor]. }
  destruct (dle (m_remaining_qty st) 0 || dle (qty_remaining disp) 0) eqn:Ec.
  { injection H as <-. split; [reflexivity|].
    exists []. split; [now rewrite app_nil_r|constructor]. }
  apply orb_false_iff in Ec as [E1 E2].
  apply dle_false in E1. apply dle_false in E2.
  bind_case H Ed. injection H as <-. cbn [m_pending m_disposals]. split.
  - rewrite list_fmap_insert. cbn [dr_date].
    apply list_insert_id. rewrite list_lookup_fmap, El. reflexivity.
  - eexists [_]. split; [reflexivity|].
    constructor; [|constructor]. cbn.
    split; [reflexivity|]. split.
    + split; [|reflexivity]. unfold dmin.
      destruct (dlt (qty_remaining disp) (m_remaining_qty st)); assumption.
    + exists disp. repeat split.
Qed.

Lemma match_loop_records symbol acq_date cpu idxs st st' :
  match_loop symbol acq_date cpu idxs st = Ok st' ->
  map dr_date (m_pending st') = map dr_date (m_pending st) /\
  exists new,
    m_disposals st' = m_disposals st ++ new /\
    Forall (fun md =>
      md_symbol md = symbol /\ record_ok md /\
      exists idx dt, In idx idxs /\
                map dr_date (m_pending st) !! idx = Some dt /\
                md_date md = dt /\
                matching_rule md =
                  (if (dt =? acq_date)%Z then same_day else thirty_day))
      new.
Proof.
  revert st. induction idxs as [|idx idxs IH]; intros st H; simpl in H.
  - injection H as <-. split; [reflexivity|].
    exists []. split; [now rewrite app_nil_r|constructor].
  - bind_case H E1.
    apply match_one_records in E1 as (Hd1 & new1 & Hn1 & Hr1).
    apply IH in H as (Hd2 & new2 & Hn2 & Hr2).
    split; [congruence|].
    exists (new1 ++ new2). split; [now rewrite Hn2, Hn1, app_assoc|].
    apply Forall_app. split.
    + eapply Forall_impl; [exact Hr1|]. cbn.
      intros md (Hs & Hok & d & Hl & Hdt & Hrule).
      split; [exact Hs|]. split; [exact Hok|].
      exists idx, (dr_date d). split; [now left|].
      rewrite list_lookup_fmap, Hl. now repeat split.
    + eapply Forall_impl; [exact Hr2|]. cbn.
      intros md (Hs & Hok & i & dt & Hin & Hl & Hdt & Hrule).
      split; [exact Hs|]. split; [exact Hok|].
      exists i, dt. split; [now right|]. rewrite <- Hd1. now repeat split.
Qed.

Lemma enumerate_lookup {A} (l : list A) i x :
  In (i, x) (enumerate l) -> l !! i = Some x.
Proof.
  unfold enumerate. intros H. apply list_elem_of_In in H.
  apply elem_of_lookup_imap in H as (j & y & E & Hy).
  now injection E as -> ->.
Qed.

Lemma insert_by_date_In x y l :
  In y (insert_by_date x l) -> y = x \/ In y l.
Proof.
  induction l as [|z l IH]; simpl.
  - intros [<-|[]]. now left.
  - destruct (dr_date (snd z) <=? dr_date (snd x))%Z; simpl.
    + intros [<-|H]; [right; now left|].
      destruct (IH H) as [->|H']; [now left|right; now right].
    + intros [<-|[<-|H]]; [now left|right; now left|right; now right].
Qed.

Lemma sort_by_date_In y l : In y (sort_by_date l) -> In y l.
Proof.
  unfold sort_by_date. intros H. apply in_rev. revert H.
  induction (rev l) as [|x l' IH]; simpl; [tauto|].
  intros H. apply insert_by_date_In in H as [->|H]; [now left|].
  right. now apply IH.
Qed.

(** Every index [add_acquisition] visits is that of a pending disposal of
    the acquisition date or of one of the 30 days before. *)
Lemma to_match_window pending symbol acq_date idx :
  let same := same_day_candidates pending symbol acq_date in
  In idx (map fst
            (same ++ sort_by_date
                       (thirty_day_candidates pending symbol acq_date same))) ->
  exists d, pending !! idx = Some d /\
            (dr_date d <= acq_date <= dr_date d + THIRTY_DAYS)%Z.
Proof.
  intros same H. apply in_map_iff in H as ([i d] & <- & H). cbn [fst].
  exists d. apply in_app_or in H as [H|H].
  - apply List.filter_In in H as [Hin Hc]. cbn [snd] in Hc.
    apply andb_true_iff in Hc as [_ Hd]. apply Z.eqb_eq in Hd.
    split; [now apply enumerate_lookup|]. unfold THIRTY_DAYS. lia.
  - apply sort_by_date_In, List.filter_In in H as [Hin Hc]. cbn [snd fst] in Hc.
    apply andb_true_iff in Hc as [Hc _].
    apply andb_true_iff in Hc as [Hc H30].
    apply andb_true_iff in Hc as [_ Hlt].
    apply Z.ltb_lt in Hlt. apply Z.leb_le in H30.
    split; [now apply enumerate_lookup|]. lia.
Qed.

Lemma add_acquisition_records acq_date symbol q c s s' :
  add_acquisition acq_date symbol q c s = Ok s' ->
  stderr s' = stderr s /\
  exists new,
    _disposals s' = _disposals s ++ new /\
    Forall (fun md => md_symbol md = symbol /\ record_ok md /\
                      matched_in_window acq_date md) new.
Proof.
  unfold add_acquisition. intros H.
  destruct (dle q 0).
  { injection H as <-. split; [reflexivity|].
    exists []. split; [now rewrite app_nil_r|constructor]. }
  bind_case H Ecpu. bind_case H Eloop. injection H as <-.
  cbn [stderr _disposals]. split; [reflexivity|].
  apply match_loop_records in Eloop as (_ & new & Hn & Hr).
  cbn [m_disposals m_pending] in Hn, Hr.
  exists new. split; [exact Hn|].
  eapply Forall_impl; [exact Hr|]. cbn.
  intros md (Hs & Hok & idx & dt & Hin & Hl & Hdt & Hrule).
  split; [exact Hs|]. split; [exact Hok|].
  apply to_match_window in Hin as (d & Hd & Hw).
  rewrite list_lookup_fmap, Hd in Hl. injection Hl as <-.
  unfold matched_in_window. rewrite Hdt, Hrule.
  destruct (dr_date d =? acq_date)%Z eqn:E.
  - apply Z.eqb_eq in E. left. now split.
  - apply Z.eqb_neq in E. right. split; [reflexivity|]. lia.
Qed.

Lemma take_from_pool_warnings symbol pool q c pool' w :
  take_from_pool symbol pool q = Ok (c, pool', w) ->
  w = [] \/ (w = [{| w_qty := q; w_symbol := symbol |}] /\ c = 0 /\ pool' = pool).
Proof.
  unfold take_from_pool. intros H.
  destruct (dle (qty pool) 0).
  - injection H as <- <- <-. right. now repeat split.
  - bind_case H Ed. injection H as <- <- <-. now left.
Qed.

Lemma flush_one_records symbol before st d st' :
  flush_one symbol before st d = Ok st' ->
  exists new w,
    f_disposals st' = f_disposals st ++ new /\
    f_stderr st' = f_stderr st ++ w /\
    Forall (fun md =>
      md_symbol md = symbol /\ matching_rule md = section_104 /\
      md_date md = dr_date d /\ quantity md = qty_remaining d /\
      0 < quantity md /\
      gain_loss_gbp md = proceeds_gbp md - cost_gbp md /\
      (md_date md + THIRTY_DAYS < before)%Z) new /\
    Forall (fun x => w_symbol x = symbol) w.
Proof.
  unfold flush_one. intros H.
  destruct (negb (dr_symbol d =? symbol)%string || dle (qty_remaining d) 0)
    eqn:Ec.
  { injection H as <-. exists [], []. cbn.
    rewrite !app_nil_r. repeat split; constructor. }
  apply orb_false_iff in Ec as [_ Eq]. apply dle_false in Eq.
  bind_case H Ew.
  unfold date_add in Ew.
  destruct ((MINORDINAL <=? dr_date d + THIRTY_DAYS)%Z
            && (dr_date d + THIRTY_DAYS <=? MAXORDINAL)%Z); [|discriminate].
  injection Ew as <-.
  destruct (before <=? dr_date d + THIRTY_DAYS)%Z eqn:Eb.
  { injection H as <-. exists [], []. cbn.
    rewrite !app_nil_r. repeat split; constructor. }
  apply Z.leb_gt in Eb.
  bind_case H Et.
  match type of Et with _ = Ok ?r => destruct r as [[c pool'] ws] end.
  bind_case H Ed. injection H as <-. cbn.
  eexists [_], ws. split; [reflexivity|]. split; [reflexivity|]. split.
  - constructor; [|constructor]. cbn. now repeat split.
  - apply take_from_pool_warnings in Et as [->|(-> & _)]; repeat constructor.
Qed.

Lemma flush_loop_records symbol before l st st' :
  flush_loop symbol before l st = Ok st' ->
  exists new w,
    f_disposals st' = f_disposals st ++ new /\
    f_stderr st' = f_stderr st ++ w /\
    Forall (fun md =>
      md_symbol md = symbol /\ matching_rule md = section_104 /\
      record_ok md /\ (md_date md + THIRTY_DAYS < before)%Z) new /\
    Forall (fun x => w_symbol x = symbol) w.
Proof.
  revert st. induction l as [|d l IH]; intros st H; simpl in H.
  - injection H as <-. exists [], []. rewrite !app_nil_r.
    repeat split; constructor.
  - bind_case H E1.
    apply flush_one_records in E1 as (n1 & w1 & Hn1 & Hw1 & Hr1 & Hs1).
    apply IH in H as (n2 & w2 & Hn2 & Hw2 & Hr2 & Hs2).
    exists (n1 ++ n2), (w1 ++ w2).
    split; [now rewrite Hn2, Hn1, app_assoc|].
    split; [now rewrite Hw2, Hw1, app_assoc|].
    split; apply Forall_app; split; try assumption.
    eapply Forall_impl; [exact Hr1|]. cbn.
    intros md (? & ? & ? & ? & ? & ? & ?). now repeat split.
Qed.

Lemma flush_records symbol before s s' :
  _flush_pending_disposals_for_symbol symbol before s = Ok s' ->
  exists new w,
    _disposals s' = _disposals s ++ new /\
    stderr s' = stderr s ++ w /\
    Forall (fun md =>
      md_symbol md = symbol /\ matching_rule md = section_104 /\
      record_ok md /\ (md_date md + THIRTY_DAYS < before)%Z) new /\
    Forall (fun x => w_symbol x = symbol) w.
Proof.
  unfold _flush_pending_disposals_for_symbol. intros H.
  bind_case H Eloop. injection H as <-. cbn [_disposals stderr].
  apply flush_loop_records in Eloop. exact Eloop.
Qed.

Lemma flush_symbols_records order s s' :
  flush_symbols order s = Ok s' ->
  exists new w,
    _disposals s' = _disposals s ++ new /\
    stderr s' = stderr s ++ w /\
    Forall (fun md => matching_rule md = section_104 /\ record_ok md) new.
Proof.
  revert s. induction order as [|x order IH]; intros s H; simpl in H.
  - injection H as <-. exists [], []. rewrite !app_nil_r.
    repeat split; constructor.
  - bind_case H E1.
    apply flush_records in E1 as (n1 & w1 & Hn1 & Hw1 & Hr1 & _).
    apply IH in H as (n2 & w2 & Hn2 & Hw2 & Hr2).
    exists (n1 ++ n2), (w1 ++ w2).
    split; [now rewrite Hn2, Hn1, app_assoc|].
    split; [now rewrite Hw2, Hw1, app_assoc|].
    apply Forall_app. split; [|exact Hr2].
    eapply Forall_impl; [exact Hr1|]. cbn. intros md (? & ? & ? & ?).
    now split.
Qed.

Lemma remove_disposal_records disp_date symbol q p s s' :
  remove_disposal disp_date symbol q p s = Ok s' ->
  exists new w,
    _disposals s' = _disposals s ++ new /\
    stderr s' = stderr s ++ w /\
    Forall (fun md =>
      md_symbol md = symbol /\ matching_rule md = section_104 /\
      record_ok md /\ (md_date md + THIRTY_DAYS < disp_date)%Z) new.
Proof.
  unfold remove_disposal. intros H.
  destruct (dle q 0).
  { injection H as <-. exists [], []. rewrite !app_nil_r.
    repeat split; constructor. }
  bind_case H Ef. injection H as <-. cbn [_disposals stderr].
  apply flush_records in Ef as (new & w & Hn & Hw & Hr & _).
  exists new, w. now repeat split.
Qed.

(** *** Properties of the calls *)

(** X1. The audit trail is append-only: a call of [add_acquisition],
    [remove_disposal] or [flush_all_pending] that returns leaves every
    MatchedDisposal and every stderr line recorded before it in place, in
    order, and only adds after them. *)
Theorem audit_trail_append_only (s s' : Section104Pool) :
  step s s' ->
  exists new warnings,
    _disposals s' = _disposals s ++ new /\
    stderr s' = stderr s ++ warnings.
Proof.
  intros [s0 s1 d x q c H|s0 s1 d x q p H|s0 s1 order H].
  - apply add_acquisition_records in H as (Hw & new & Hn & _).
    exists new, []. now rewrite app_nil_r.
  - apply remove_disposal_records in H as (new & w & Hn & Hw & _).
    now exists new, w.
  - apply flush_symbols_records in H as (new & w & Hn & Hw & _).
    now exists new, w.
Qed.

Lemma audit_trail_append_only_witness :
  exists s',
    step Samples.holding_50_pending_100 s' /\
    exists new warnings,
      _disposals s' = _disposals Samples.holding_50_pending_100 ++ new /\
      stderr s' = stderr Samples.holding_50_pending_100 ++ warnings.
Proof.
  assert (H : step Samples.holding_50_pending_100
                (Samples.state_of
                   (flush_all_pending ["X"%string]
                      Samples.holding_50_pending_100))).
  { apply (step_flush_all_pending _ _ ["X"%string]). vm_compute. reflexivity. }
  eexists. split; [exact H|].
  exact (audit_trail_append_only _ _ H).
Defined.

(** X2. An acquisition is matched only inside the window: every
    MatchedDisposal that [add_acquisition] adds is for the acquired
    instrument, has a positive quantity and gain = proceeds - cost, and is
    either tagged same_day for a disposal of the acquisition date or tagged
    thirty_day for a disposal dated 1 to 30 days before it.  Nothing is
    written to stderr. *)
Theorem acquisition_matches_in_window (acq_date : date) (symbol : string)
    (q c : Decimal) (s s' : Section104Pool) :
  add_acquisition acq_date symbol q c s = Ok s' ->
  stderr s' = stderr s /\
  exists new,
    _disposals s' = _disposals s ++ new /\
    Forall (fun md => md_symbol md = symbol /\ record_ok md /\
                      matched_in_window acq_date md) new.
Proof. apply add_acquisition_records. Qed.

Lemma acquisition_matches_in_window_witness :
  exists s',
    add_acquisition 739417 "ABC" 20 1600 Samples.pending_50 = Ok s' /\
    exists new,
      _disposals s' = _disposals Samples.pending_50 ++ new /\
      Forall (fun md => md_symbol md = "ABC"%string /\ record_ok md /\
                        matched_in_window 739417 md) new.
Proof.
  eexists. split; [vm_compute; reflexivity|].
  eapply (acquisition_matches_in_window 739417 "ABC" 20 1600
            Samples.pending_50).
  vm_compute. reflexivity.
Defined.

(** X3. Recording a disposal flushes closed windows only: every
    MatchedDisposal that [remove_disposal] adds is tagged section_104, is
    for the instrument of the new disposal, and is for a pending disposal
    whose 30 days ended before the new disposal's date. *)
Theorem disposal_flushes_closed_windows (disp_date : date) (symbol : string)
    (q p : Decimal) (s s' : Section104Pool) :
  remove_disposal disp_date symbol q p s = Ok s' ->
  exists new warnings,
    _disposals s' = _disposals s ++ new /\
    stderr s' = stderr s ++ warnings /\
    Forall (fun md =>
      md_symbol md = symbol /\ matching_rule md = section_104 /\
      record_ok md /\ (md_date md + THIRTY_DAYS < disp_date)%Z) new.
Proof. apply remove_disposal_records. Qed.

Lemma disposal_flushes_closed_windows_witness :
  exists s',
    remove_disposal 739450 "ABC" 5 700 Samples.pending_50 = Ok s' /\
    exists new warnings,
      _disposals s' = _disposals Samples.pending_50 ++ new /\
      stderr s' = stderr Samples.pending_50 ++ warnings /\
      Forall (fun md =>
        md_symbol md = "ABC"%string /\ matching_rule md = section_104 /\
        record_ok md /\ (md_date md + THIRTY_DAYS < 739450)%Z) new.
Proof.
  eexists. split; [vm_compute; reflexivity|].
  eapply (disposal_flushes_closed_windows 739450 "ABC" 5 700
            Samples.pending_50).
  vm_compute. reflexivity.
Defined.

Lemma step_records_ok s s' :
  step s s' -> Forall record_ok (_disposals s) -> Forall record_ok (_disposals s').
Proof.
  intros [s0 s1 d x q c H|s0 s1 d x q p H|s0 s1 order H] Hok.
  - apply add_acquisition_records in H as (_ & new & -> & Hr).
    apply Forall_app. split; [exact Hok|].
    eapply Forall_impl; [exact Hr|]. cbn. tauto.
  - apply remove_disposal_records in H as (new & w & -> & _ & Hr).
    apply Forall_app. split; [exact Hok|].
    eapply Forall_impl; [exact Hr|]. cbn. tauto.
  - apply flush_symbols_records in H as (new & w & -> & _ & Hr).
    apply Forall_app. split; [exact Hok|].
    eapply Forall_impl; [exact Hr|]. cbn. tauto.
Qed.

(** X4. In every state the pool can reach, each MatchedDisposal on record
    has a positive quantity and a gain equal to its proceeds less its
    cost. *)
Theorem recorded_disposals_consistent (s : Section104Pool) :
  reachable s ->
  Forall (fun md => 0 < quantity md /\
                    gain_loss_gbp md = proceeds_gbp md - cost_gbp md)
         (_disposals s).
Proof.
  induction 1 as [|s s' d x q c _ IH H|s s' d x q p _ IH H|s s' order _ IH H].
  - constructor.
  - eapply (step_records_ok s s'); [|exact IH].
    eapply step_add_acquisition; exact H.
  - eapply (step_records_ok s s'); [|exact IH].
    eapply step_remove_disposal; exact H.
  - eapply (step_records_ok s s'); [|exact IH].
    eapply step_flush_all_pending; exact H.
Qed.

Lemma recorded_disposals_consistent_witness :
  let s := Samples.state_of Examples.section_104_only_run in
  reachable s /\
  Forall (fun md => 0 < quantity md /\
                    gain_loss_gbp md = proceeds_gbp md - cost_gbp md)
         (_disposals s) /\
  length (_disposals s) = 1%nat.
Proof.
  intros s.
  assert (Hr : reachable s).
  { eapply (reachable_flush_all_pending _ _ ["AAPL"%string]).
    - eapply (reachable_remove_disposal _ _ 739433 "AAPL" 75 13500).
      + eapply (reachable_add_acquisition _ _ 739417 "AAPL" 50 8000).
        * eapply (reachable_add_acquisition _ _ 739403 "AAPL" 100 15000).
          -- exact reachable_init.
          -- vm_compute. reflexivity.
        * vm_compute. reflexivity.
      + vm_compute. reflexivity.
    - vm_compute. reflexivity. }
  split; [exact Hr|]. split; [exact (recorded_disposals_consistent s Hr)|].
  reflexivity.
Defined.

End PoolRecords.

(** ** Section 104 pooling: conservation in [add_acquisition] *)

Section PoolConservation.
Import Pooling PoolFacts.

Lemma matched_quantity_app l1 l2 :
  matched_quantity (l1 ++ l2) == matched_quantity l1 + matched_quantity l2.
Proof.
  induction l1 as [|x l1 IH]; simpl; [lra|]. rewrite IH. lra.
Qed.

Lemma matched_cost_app l1 l2 :
  matched_cost (l1 ++ l2) == matched_cost l1 + matched_cost l2.
Proof.
  induction l1 as [|x l1 IH]; simpl; [lra|]. rewrite IH. lra.
Qed.

Lemma pending_quantity_insert l i d d' :
  l !! i = Some d ->
  pending_quantity (<[i := d']> l)
  == pending_quantity l - qty_remaining d + qty_remaining d'.
Proof.
  revert i. induction l as [|x l IH]; intros [|i] H; try discriminate.
  - injection H as ->. simpl. lra.
  - simpl in *. rewrite (IH i H). lra.
Qed.

Lemma pending_quantity_filter l :
  Forall (fun d => 0 <= qty_remaining d) l ->
  pending_quantity (List.filter (fun d => dlt 0 (qty_remaining d)) l)
  == pending_quantity l.
Proof.
  induction 1 as [|d l Hd _ IH]; simpl; [lra|].
  destruct (dlt 0 (qty_remaining d)) eqn:E; simpl; rewrite IH; [lra|].
  apply dlt_false in E. lra.
Qed.

Lemma dmin_cases a b :
  0 < a -> 0 < b -> 0 < dmin a b /\ dmin a b <= a /\ dmin a b <= b.
Proof.
  intros Ha Hb. unfold dmin. destruct (dlt b a) eqn:E.
  - apply dlt_true in E. lra.
  - apply dlt_false in E. lra.
Qed.

(** What one iteration of the matching loop moves: the matched quantity
    leaves both the acquisition and the pending disposals, the matched cost
    leaves the acquisition. *)
Lemma match_one_conserves symbol acq_date cpu st idx st' :
  match_one symbol acq_date cpu st idx = Ok st' ->
  0 <= m_remaining_qty st ->
  Forall (fun d => 0 <= qty_remaining d) (m_pending st) ->
  exists new,
    m_disposals st' = m_disposals st ++ new /\
    m_remaining_qty st' + matched_quantity new == m_remaining_qty st /\
    m_remaining_cost st' + matched_cost new == m_remaining_cost st /\
    pending_quantity (m_pending st') + matched_quantity new
      == pending_quantity (m_pending st) /\
    0 <= m_remaining_qty st' /\
    Forall (fun d => 0 <= qty_remaining d) (m_pending st').
Proof.
  unfold match_one. intros H Hq Hp.
  destruct (m_pending st !! idx) as [disp|] eqn:El.
  2:{ injection H as <-. exists []. rewrite app_nil_r. simpl.
      repeat split; try lra; assumption. }
  destruct (dle (m_remaining_qty st) 0 || dle (qty_remaining disp) 0) eqn:Ec.
  { injection H as <-. exists []. rewrite app_nil_r. simpl.
    repeat split; try lra; assumption. }
  apply orb_false_iff in Ec as [E1 E2].
  apply dle_false in E1. apply dle_false in E2.
  destruct (dmin_cases _ _ E1 E2) as (Hm0 & Hm1 & Hm2).
  bind_case H Ed. injection H as <-.
  cbn [m_pending m_disposals m_remaining_qty m_remaining_cost].
  eexists [_]. split; [reflexivity|]. cbn [matched_quantity matched_cost
    fold_right quantity cost_gbp].
  split; [lra|]. split; [lra|]. split.
  - rewrite (pending_quantity_insert _ _ disp _ El). cbn [qty_remaining]. lra.
  - split; [lra|]. apply Forall_insert; [exact Hp|]. cbn [qty_remaining]. lra.
Qed.

Lemma match_loop_conserves symbol acq_date cpu idxs st st' :
  match_loop symbol acq_date cpu idxs st = Ok st' ->
  0 <= m_remaining_qty st ->
  Forall (fun d => 0 <= qty_remaining d) (m_pending st) ->
  exists new,
    m_disposals st' = m_disposals st ++ new /\
    m_remaining_qty st' + matched_quantity new == m_remaining_qty st /\
    m_remaining_cost st' + matched_cost new == m_remaining_cost st /\
    pending_quantity (m_pending st') + matched_quantity new
      == pending_quantity (m_pending st) /\
    0 <= m_remaining_qty st' /\
    Forall (fun d => 0 <= qty_remaining d) (m_pending st').
Proof.
  revert st. induction idxs as [|idx idxs IH]; intros st H Hq Hp; simpl in H.
  - injection H as <-. exists []. rewrite app_nil_r. simpl.
    repeat split; try lra; assumption.
  - bind_case H E1.
    apply match_one_conserves in E1
      as (n1 & Hn1 & Hq1 & Hc1 & Hp1 & Hq1' & Hp1'); [|assumption..].
    apply IH in H as (n2 & Hn2 & Hq2 & Hc2 & Hp2 & Hq2' & Hp2');
      [|assumption..].
    exists (n1 ++ n2). split; [now rewrite Hn2, Hn1, app_assoc|].
    rewrite matched_quantity_app, matched_cost_app.
    repeat split; try lra; assumption.
Qed.

(** X5. [add_acquisition] conserves quantity and cost.  From a reachable
    state, the quantities of the MatchedDisposals it adds and the quantity
    it adds to the instrument's pool sum to the acquired quantity, and the
    pending disposals lose exactly the matched quantity.  When part of the
    acquisition reaches the pool, the matched costs and the cost added to
    the pool sum to the acquisition's cost. *)
Theorem acquisition_conserves (acq_date : date) (symbol : string)
    (q c : Decimal) (s s' : Section104Pool) :
  reachable s -> 0 < q ->
  add_acquisition acq_date symbol q c s = Ok s' ->
  exists new,
    _disposals s' = _disposals s ++ new /\
    matched_quantity new
      + (qty (pool_of s' symbol) - qty (pool_of s symbol)) == q /\
    pending_quantity (_pending_disposals s')
      + matched_quantity new == pending_quantity (_pending_disposals s) /\
    (matched_quantity new < q ->
     matched_cost new
       + (cost (pool_of s' symbol) - cost (pool_of s symbol)) == c).
Proof.
  intros Hreach Hq H.
  destruct (reachable_well_formed s Hreach) as [Hok _].
  unfold add_acquisition in H.
  assert (E0 : dle q 0 = false) by (apply dle_false; exact Hq).
  rewrite E0 in H. bind_case H Ecpu. bind_case H Eloop.
  apply match_loop_conserves in Eloop
    as (new & Hn & Hq1 & Hc1 & Hp1 & Hq0 & Hp0);
    cbn [m_remaining_qty m_pending m_disposals m_remaining_cost] in *.
  2:{ lra. }
  2:{ eapply Forall_impl; [exact Hok|]. intros d [Hd _]. lra. }
  rename a0 into st.
  destruct (dlt 0 (m_remaining_qty st)) eqn:Er.
  - injection H as <-. cbn [_disposals _pending_disposals].
    exists new. split; [exact Hn|].
    rewrite (pending_quantity_filter _ Hp0).
    match goal with
    | |- context [pool_of ?s1 symbol] =>
        match s1 with
        | s => fail 1
        | _ => rewrite (pool_of_insert s s1 symbol _ symbol eq_refl)
        end
    end.
    destruct (decide (symbol = symbol)) as [_|Hne]; [|congruence].
    cbn [qty cost].
    split; [lra|]. split; [lra|]. intros _. lra.
  - apply dlt_false in Er.
    injection H as <-. cbn [_disposals _pending_disposals].
    exists new. split; [exact Hn|].
    rewrite (pending_quantity_filter _ Hp0).
    match goal with
    | |- context [pool_of ?s1 symbol] =>
        match s1 with
        | s => fail 1
        | _ => change (pool_of s1 symbol) with (pool_of s symbol)
        end
    end.
    split; [lra|]. split; [lra|]. intros Hlt. lra.
Qed.

Lemma acquisition_conserves_witness :
  exists s' new,
    reachable Samples.pending_50 /\ 0 < 80 /\
    add_acquisition 739417 "ABC" 80 6400 Samples.pending_50 = Ok s' /\
    _disposals s' = _disposals Samples.pending_50 ++ new /\
    matched_quantity new == 50 /\
    qty (pool_of s' "ABC") == 30 /\
    matched_cost new + cost (pool_of s' "ABC") == 6400.
Proof.
  assert (Hr : reachable Samples.pending_50).
  { eapply (reachable_remove_disposal _ _ 739403 "ABC" 50 6000);
      [exact reachable_init|vm_compute; reflexivity]. }
  assert (Hq : 0 < 80) by reflexivity.
  assert (Hrun : add_acquisition 739417 "ABC" 80 6400 Samples.pending_50
                 = Ok (Samples.state_of
                         (add_acquisition 739417 "ABC" 80 6400
                            Samples.pending_50)))
    by (vm_compute; reflexivity).
  destruct (acquisition_conserves _ _ _ _ _ _ Hr Hq Hrun)
    as (new & Hn & Hqty & _ & Hcost).
  eexists _, new. split; [exact Hr|]. split; [exact Hq|].
  split; [exact Hrun|]. split; [exact Hn|].
  assert (Hm : matched_quantity new == 50).
  { assert (E : new = _disposals
                        (Samples.state_of
                           (add_acquisition 739417 "ABC" 80 6400
                              Samples.pending_50))) by (symmetry; exact Hn).
    rewrite E. vm_compute. reflexivity. }
  split; [exact Hm|]. split.
  - vm_compute. reflexivity.
  - assert (Hlt : matched_quantity new < 80) by (rewrite Hm; reflexivity).
    specialize (Hcost Hlt).
    assert (E : cost (pool_of Samples.pending_50 "ABC") == 0)
      by (vm_compute; reflexivity).
    rewrite E in Hcost. lra.
Defined.

End PoolConservation.

(** ** Section 104 pooling: the state invariant and the calls that return *)

Section PoolInvariant.
Import Pooling PoolFacts.

Lemma flush_one_sub (P : DisposalRecord -> Prop) symbol before st d st' :
  flush_one symbol before st d = Ok st' ->
  P d -> Forall P (f_new_pending st) -> Forall P (f_new_pending st').
Proof.
  unfold flush_one. intros H Hd Hall.
  destruct (negb (dr_symbol d =? symbol)%string || dle (qty_remaining d) 0).
  { injection H as <-. cbn. apply Forall_app. split; [exact Hall|].
    constructor; [exact Hd|constructor]. }
  bind_case H Ew.
  match type of H with context [(before <=? ?w)%Z] =>
    destruct (before <=? w)%Z end.
  { injection H as <-. cbn. apply Forall_app. split; [exact Hall|].
    constructor; [exact Hd|constructor]. }
  bind_case H Et.
  match type of Et with _ = Ok ?r => destruct r as [[c pool'] ws] end.
  bind_case H Ed. injection H as <-. exact Hall.
Qed.

Lemma flush_loop_sub (P : DisposalRecord -> Prop) symbol before l st st' :
  flush_loop symbol before l st = Ok st' ->
  Forall P l -> Forall P (f_new_pending st) -> Forall P (f_new_pending st').
Proof.
  revert st. induction l as [|d l IH]; intros st H Hl Hall; simpl in H.
  - injection H as <-. exact Hall.
  - bind_case H E1. inversion Hl; subst.
    eapply IH; [exact H|assumption|].
    eapply flush_one_sub; eassumption.
Qed.

(** A flush only removes pending disposals: what holds of all of them
    before holds of all of them after. *)
Lemma flush_sub (P : DisposalRecord -> Prop) symbol before s s' :
  _flush_pending_disposals_for_symbol symbol before s = Ok s' ->
  Forall P (_pending_disposals s) -> Forall P (_pending_disposals s').
Proof.
  unfold _flush_pending_disposals_for_symbol. intros H Hall.
  bind_case H Eloop. injection H as <-. cbn [_pending_disposals].
  eapply flush_loop_sub; [exact Eloop|exact Hall|constructor].
Qed.

Lemma flush_symbols_sub (P : DisposalRecord -> Prop) order s s' :
  flush_symbols order s = Ok s' ->
  Forall P (_pending_disposals s) -> Forall P (_pending_disposals s').
Proof.
  revert s. induction order as [|x order IH]; intros s H Hall; simpl in H.
  - injection H as <-. exact Hall.
  - bind_case H E1. eapply IH; [exact H|].
    eapply flush_sub; eassumption.
Qed.

Lemma match_one_bounded symbol acq_date cpu st idx st' :
  match_one symbol acq_date cpu st idx = Ok st' ->
  Forall (fun d => qty_remaining d <= original_qty d) (m_pending st) ->
  Forall (fun d => qty_remaining d <= original_qty d) (m_pending st').
Proof.
  unfold match_one. intros H Hall.
  destruct (m_pending st !! idx) as [disp|] eqn:El;
    [|injection H as <-; exact Hall].
  destruct (dle (m_remaining_qty st) 0 || dle (qty_remaining disp) 0) eqn:Ec;
    [injection H as <-; exact Hall|].
  apply orb_false_iff in Ec as [E1 E2].
  apply dle_false in E1. apply dle_false in E2.
  bind_case H Ed. injection H as <-. cbn [m_pending].
  apply Forall_insert; [exact Hall|]. cbn [qty_remaining original_qty].
  pose proof (Forall_lookup_1 _ _ _ _ Hall El) as Hb. cbn in Hb.
  unfold dmin. destruct (dlt (qty_remaining disp) (m_remaining_qty st)); lra.
Qed.

Lemma match_loop_bounded symbol acq_date cpu idxs st st' :
  match_loop symbol acq_date cpu idxs st = Ok st' ->
  Forall (fun d => qty_remaining d <= original_qty d) (m_pending st) ->
  Forall (fun d => qty_remaining d <= original_qty d) (m_pending st').
Proof.
  revert st. induction idxs as [|idx idxs IH]; intros st H Hall; simpl in H.
  - injection H as <-. exact Hall.
  - bind_case H E1. eapply IH; [exact H|].
    eapply match_one_bounded; eassumption.
Qed.

Lemma filter_Forall {A} (P : A -> Prop) (f : A -> bool) l :
  Forall P l -> Forall P (List.filter f l).
Proof.
  intros H. apply Forall_forall. intros x Hx.
  apply list_elem_of_In, List.filter_In in Hx as [Hx _].
  rewrite Forall_forall in H. apply H. now apply list_elem_of_In.
Qed.

Lemma reachable_bounded s :
  reachable s ->
  Forall (fun d => qty_remaining d <= original_qty d) (_pending_disposals s).
Proof.
  induction 1 as [|s s' d x q c _ IH H|s s' d x q p _ IH H|s s' order _ IH H].
  - constructor.
  - unfold add_acquisition in H.
    destruct (dle q 0); [injection H as <-; exact IH|].
    bind_case H Ecpu. bind_case H Eloop. injection H as <-.
    cbn [_pending_disposals]. apply filter_Forall.
    eapply match_loop_bounded; [exact Eloop|exact IH].
  - unfold remove_disposal in H.
    destruct (dle q 0); [injection H as <-; exact IH|].
    bind_case H Ef. injection H as <-. cbn [_pending_disposals].
    apply Forall_app. split.
    + eapply flush_sub; eassumption.
    + constructor; [cbn; lra|constructor].
  - eapply flush_symbols_sub; eassumption.
Qed.

(** X6. The state invariant.  In every state the pool can reach, each
    pending disposal has a positive quantity left to match that does not
    exceed its original quantity, and no instrument's pool holds a negative
    quantity. *)
Theorem pool_state_invariant (s : Section104Pool) :
  reachable s ->
  Forall (fun d => 0 < qty_remaining d /\ qty_remaining d <= original_qty d)
         (_pending_disposals s) /\
  forall symbol, 0 <= qty (pool_of s symbol).
Proof.
  intros Hr. destruct (reachable_well_formed s Hr) as [Hok Hpool].
  pose proof (reachable_bounded s Hr) as Hb.
  split; [|exact Hpool].
  rewrite Forall_forall in Hok, Hb. apply Forall_forall.
  intros d Hd. split; [apply (Hok d Hd)|apply (Hb d Hd)].
Qed.

Lemma mixed_state_reachable : reachable Samples.mixed_state.
Proof.
  eapply (reachable_remove_disposal _ _ 739412 "MSFT" 10 3000).
  - eapply (reachable_remove_disposal _ _ 739412 "AAPL" 40 7000).
    + eapply (reachable_add_acquisition _ _ 739403 "AAPL" 100 15000).
      * exact reachable_init.
      * vm_compute. reflexivity.
    + vm_compute. reflexivity.
  - vm_compute. reflexivity.
Qed.

Lemma pool_state_invariant_witness :
  reachable Samples.mixed_state /\
  length (_pending_disposals Samples.mixed_state) = 2%nat /\
  Forall (fun d => 0 < qty_remaining d /\ qty_remaining d <= original_qty d)
         (_pending_disposals Samples.mixed_state) /\
  forall symbol, 0 <= qty (pool_of Samples.mixed_state symbol).
Proof.
  split; [exact mixed_state_reachable|]. split; [reflexivity|].
  exact (pool_state_invariant Samples.mixed_state mixed_state_reachable).
Defined.

(** *** Calls that cannot raise *)

Lemma match_loop_total symbol acq_date cpu idxs st :
  Forall (fun d => 0 < original_qty d) (m_pending st) ->
  exists st', match_loop symbol acq_date cpu idxs st = Ok st'.
Proof.
  revert st. induction idxs as [|idx idxs IH]; intros st Hall; simpl.
  - eauto.
  - assert (H1 : exists st1, match_one symbol acq_date cpu st idx = Ok st1).
    { unfold match_one.
      destruct (m_pending st !! idx) as [disp|] eqn:El; [|eauto].
      destruct (dle (m_remaining_qty st) 0 || dle (qty_remaining disp) 0);
        [eauto|].
      pose proof (Forall_lookup_1 _ _ _ _ Hall El) as Ho. cbn in Ho.
      rewrite ddiv_ok by lra. cbn [mbind Result_bind]. eauto. }
    destruct H1 as [st1 H1]. rewrite H1. cbn [mbind Result_bind].
    apply IH. eapply match_one_original_qty; eassumption.
Qed.

Lemma flush_loop_total symbol before l st :
  Forall (fun d => pending_ok d /\ window_in_range d) l ->
  exists st', flush_loop symbol before l st = Ok st'.
Proof.
  intros H. revert st. induction H as [|d l [[Hrem Horig] Hw] _ IH];
    intros st; simpl.
  - eauto.
  - assert (H1 : exists st1, flush_one symbol before st d = Ok st1).
    { unfold flush_one.
      destruct (negb (dr_symbol d =? symbol)%string
                || dle (qty_remaining d) 0); [eauto|].
      rewrite date_add_ok by exact Hw. cbn [mbind Result_bind].
      destruct (before <=? dr_date d + THIRTY_DAYS)%Z; [eauto|].
      destruct (Qlt_le_dec 0 (qty (f_pool st))) as [Hp|Hp].
      - rewrite take_from_pool_holding by exact Hp.
        cbn [mbind Result_bind]. rewrite ddiv_ok by lra.
        cbn [mbind Result_bind]. eauto.
      - rewrite take_from_pool_empty by exact Hp.
        cbn [mbind Result_bind]. rewrite ddiv_ok by lra.
        cbn [mbind Result_bind]. eauto. }
    destruct H1 as [st1 H1]. rewrite H1. cbn [mbind Result_bind]. apply IH.
Qed.

Lemma flush_total symbol before s :
  Forall (fun d => pending_ok d /\ window_in_range d) (_pending_disposals s) ->
  exists s', _flush_pending_disposals_for_symbol symbol before s = Ok s'.
Proof.
  intros H. unfold _flush_pending_disposals_for_symbol.
  destruct (flush_loop_total symbol before (_pending_disposals s)
              {| f_pool := pool_of s symbol; f_new_pending := [];
                 f_disposals := _disposals s; f_stderr := stderr s |} H)
    as [st Hst].
  rewrite Hst. cbn [mbind Result_bind]. eauto.
Qed.

Lemma flush_symbols_total order s :
  Forall (fun d => pending_ok d /\ window_in_range d) (_pending_disposals s) ->
  exists s', flush_symbols order s = Ok s'.
Proof.
  revert s. induction order as [|x order IH]; intros s H; simpl.
  - eauto.
  - destruct (flush_total x MAXORDINAL s H) as [s1 H1].
    rewrite H1. cbn [mbind Result_bind]. apply IH.
    eapply flush_sub; eassumption.
Qed.

(** X7. No division by zero.  On a state the pool can reach every
    divisor the calls meet is positive: the original quantity of each
    pending disposal (the divisor of the pro-rated proceeds), the quantity
    of an acquisition past the guard [qty <= 0], and the quantity of the
    pool where the flush takes an average.  So in the arithmetic of this
    file, where [quantize] is total (the InvalidOperation that
    [Decimal.quantize] raises on a result of more than 28 digits is
    outside the model), [add_acquisition] returns for every date,
    instrument, quantity and cost, and [remove_disposal] and
    [flush_all_pending] return as well when, for every pending disposal,
    the date 30 days after it exists (is not after 9999-12-31). *)
Theorem pool_calls_return (s : Section104Pool) :
  reachable s ->
  Forall (fun d => 0 < original_qty d) (_pending_disposals s) /\
  (forall symbol pool q,
     0 < qty pool ->
     exists c pool', take_from_pool symbol pool q = Ok (c, pool', [])) /\
  (forall acq_date symbol q c,
     exists s', add_acquisition acq_date symbol q c s = Ok s') /\
  (Forall window_in_range (_pending_disposals s) ->
   (forall disp_date symbol q p,
      exists s', remove_disposal disp_date symbol q p s = Ok s') /\
   (forall order, exists s', flush_all_pending order s = Ok s')).
Proof.
  intros Hr. destruct (reachable_well_formed s Hr) as [Hok _].
  split; [now apply pending_ok_original_qty|].
  split; [intros symbol pool q Hp; rewrite take_from_pool_holding by exact Hp;
          eauto|].
  split.
  - intros acq_date symbol q c. unfold add_acquisition.
    destruct (dle q 0) eqn:E0; [eauto|]. apply dle_false in E0.
    assert (E1 : deq q 0 = false) by (apply deq_false; lra).
    rewrite E1, ddiv_ok by lra. cbn [mbind Result_bind].
    match goal with
    | |- exists s', (match_loop ?a ?b ?c ?d ?e ≫= _) = _ =>
        destruct (match_loop_total a b c d e) as [st Hst]
    end.
    { cbn [m_pending]. now apply pending_ok_original_qty. }
    rewrite Hst. cbn [mbind Result_bind]. eauto.
  - intros Hw.
    assert (Hall : Forall (fun d => pending_ok d /\ window_in_range d)
                          (_pending_disposals s)).
    { rewrite Forall_forall in Hok, Hw. apply Forall_forall.
      intros d Hd. split; [apply (Hok d Hd)|apply (Hw d Hd)]. }
    split.
    + intros disp_date symbol q p. unfold remove_disposal.
      destruct (dle q 0); [eauto|].
      destruct (flush_total symbol disp_date s Hall) as [s1 H1].
      rewrite H1. cbn [mbind Result_bind]. eauto.
    + intros order. apply flush_symbols_total. exact Hall.
Qed.

Lemma pool_calls_return_witness :
  reachable Samples.mixed_state /\
  Forall window_in_range (_pending_disposals Samples.mixed_state) /\
  (exists s', add_acquisition 739420 "AAPL" 25 4000 Samples.mixed_state
              = Ok s') /\
  (exists s', remove_disposal 739450 "AAPL" 5 900 Samples.mixed_state
              = Ok s') /\
  (exists s', flush_all_pending ["AAPL"; "MSFT"]%string Samples.mixed_state
              = Ok s').
Proof.
  assert (Hw : Forall window_in_range (_pending_disposals Samples.mixed_state)).
  { repeat constructor; vm_compute; discriminate. }
  destruct (pool_calls_return Samples.mixed_state mixed_state_reachable)
    as (_ & _ & Hadd & Hrest).
  destruct (Hrest Hw) as [Hrem Hflush].
  split; [exact mixed_state_reachable|]. split; [exact Hw|].
  split; [apply Hadd|]. split; [apply Hrem|apply Hflush].
Defined.

End PoolInvariant.

(** ** Section 104 pooling: an empty pool, and instruments apart *)

Section PoolFrame.
Import Pooling PoolFacts.

Lemma flush_loop_empty_pool symbol before l st :
  qty (f_pool st) <= 0 ->
  Forall (fun d => dr_symbol d = symbol -> due symbol before d) l ->
  flush_loop symbol before l st
  = Ok {| f_pool := f_pool st;
          f_new_pending := f_new_pending st ++ List.filter (not_of [symbol]) l;
          f_disposals :=
            f_disposals st
            ++ map (fun d => flushed d 0) (pending_of symbol l);
          f_stderr :=
            f_stderr st
            ++ map (empty_pool_warning symbol) (pending_of symbol l) |}.
Proof.
  intros Hp H. revert st Hp. induction H as [|d l Hd _ IH]; intros st Hp.
  - cbn. rewrite !app_nil_r. now destruct st.
  - cbn [flush_loop List.filter pending_of]. unfold not_of at 1.
    cbn [existsb]. rewrite orb_false_r.
    destruct (String.eqb (dr_symbol d) symbol) eqn:Es; cbn [negb].
    + apply String.eqb_eq in Es.
      rewrite flush_one_due_empty by auto. cbn [mbind Result_bind].
      rewrite IH by exact Hp. cbn [f_pool f_new_pending f_disposals f_stderr].
      cbn [map]. fold (pending_of symbol l).
      unfold empty_pool_warning at 2. now rewrite <- !app_assoc.
    + apply String.eqb_neq in Es.
      rewrite flush_one_other by exact Es. cbn [mbind Result_bind].
      rewrite IH by exact Hp. cbn [keep_pending f_pool f_new_pending
        f_disposals f_stderr]. fold (pending_of symbol l).
      now rewrite <- app_assoc.
Qed.

(** X8. A flush against an empty pool.  When the instrument's pool holds
    nothing and every pending disposal of the instrument is due, the flush
    records each of them, in order: the record carries the disposal's date,
    the instrument, the quantity left to match, the proceeds pro-rated to
    that quantity (total proceeds times quantity left over original
    quantity, rounded half-up to 2 decimals), a zero cost, and so a gain
    equal to those proceeds, under the rule section_104.  The flush writes
    one warning per disposal with the quantity flushed, leaves the pool as
    it was and leaves the other instruments' disposals pending. *)
Theorem flush_empty_pool (symbol : string) (before : date)
    (s : Section104Pool) :
  qty (pool_of s symbol) <= 0 ->
  Forall (fun d => dr_symbol d = symbol -> due symbol before d)
         (_pending_disposals s) ->
  exists s' new,
    _flush_pending_disposals_for_symbol symbol before s = Ok s' /\
    _disposals s' = _disposals s ++ new /\
    Forall2
      (fun d md =>
         md_date md = dr_date d /\
         md_symbol md = symbol /\
         quantity md = qty_remaining d /\
         proceeds_gbp md
           = quantize 2
               (total_proceeds_gbp d * qty_remaining d / original_qty d) /\
         cost_gbp md = 0 /\
         gain_loss_gbp md == proceeds_gbp md /\
         matching_rule md = section_104)
      (pending_of symbol (_pending_disposals s)) new /\
    length new = length (pending_of symbol (_pending_disposals s)) /\
    Forall (fun md => matching_rule md = section_104 /\
                      cost_gbp md = 0 /\
                      gain_loss_gbp md = proceeds_gbp md - 0) new /\
    map quantity new
      = map qty_remaining (pending_of symbol (_pending_disposals s)) /\
    stderr s' = stderr s
                ++ map (empty_pool_warning symbol)
                       (pending_of symbol (_pending_disposals s)) /\
    pool_of s' symbol = pool_of s symbol /\
    _pending_disposals s'
      = List.filter (not_of [symbol]) (_pending_disposals s).
Proof.
  intros Hp Hdue. unfold _flush_pending_disposals_for_symbol.
  rewrite flush_loop_empty_pool by assumption.
  cbn [mbind Result_bind f_pool f_new_pending f_disposals f_stderr].
  eexists _, _. split; [reflexivity|].
  cbn [_disposals stderr _pending_disposals app].
  split; [reflexivity|]. split.
  { apply Forall2_fmap_r, Forall_Forall2_diag, Forall_forall.
    intros d Hd. apply list_elem_of_In, filter_In in Hd as [_ Hs].
    apply String.eqb_eq in Hs. cbn.
    split; [reflexivity|]. split; [exact Hs|]. split; [reflexivity|].
    split; [reflexivity|]. split; [reflexivity|]. split; [lra|reflexivity]. }
  split; [now rewrite length_map|]. split.
  { apply Forall_forall. intros md Hmd.
    apply list_elem_of_fmap in Hmd as (d & -> & _). now repeat split. }
  split; [now rewrite <- list_fmap_compose|].
  split; [reflexivity|]. split; [|reflexivity].
  match goal with
  | |- pool_of ?s1 symbol = _ => apply (pool_of_touch s s1 symbol)
  end. reflexivity.
Qed.

Lemma flush_empty_pool_witness :
  qty (pool_of Samples.pending_50 "ABC") <= 0 /\
  Forall (fun d => dr_symbol d = "ABC"%string -> due "ABC" MAXORDINAL d)
         (_pending_disposals Samples.pending_50) /\
  exists s' new,
    _flush_pending_disposals_for_symbol "ABC" MAXORDINAL Samples.pending_50
      = Ok s' /\
    _disposals s' = new /\ length new = 1%nat /\
    Forall (fun md => cost_gbp md = 0) new /\
    stderr s' = [{| w_qty := 50; w_symbol := "ABC" |}].
Proof.
  assert (Hp : qty (pool_of Samples.pending_50 "ABC") <= 0)
    by (vm_compute; discriminate).
  assert (Hd : Forall (fun d => dr_symbol d = "ABC"%string ->
                               due "ABC" MAXORDINAL d)
                      (_pending_disposals Samples.pending_50)).
  { repeat constructor; cbn; unfold THIRTY_DAYS, MINORDINAL, MAXORDINAL; lia. }
  split; [exact Hp|]. split; [exact Hd|].
  destruct (flush_empty_pool "ABC" MAXORDINAL Samples.pending_50 Hp Hd)
    as (s' & new & Hrun & Hn & _ & Hlen & Hall & _ & Hw & _).
  exists s', new. split; [exact Hrun|]. split; [exact Hn|].
  split; [exact Hlen|]. split.
  - eapply Forall_impl; [exact Hall|]. cbn. tauto.
  - exact Hw.
Defined.

(** *** Instruments do not touch each other *)

Lemma pending_of_app symbol l1 l2 :
  pending_of symbol (l1 ++ l2) = pending_of symbol l1 ++ pending_of symbol l2.
Proof. apply List.filter_app. Qed.

Lemma pending_of_cons symbol d l :
  pending_of symbol (d :: l) = pending_of symbol [d] ++ pending_of symbol l.
Proof. apply (pending_of_app symbol [d] l). Qed.

Lemma pending_of_single_other other d :
  dr_symbol d <> other -> pending_of other [d] = [].
Proof.
  intros H. unfold pending_of. cbn [List.filter].
  apply String.eqb_neq in H. now rewrite H.
Qed.

Lemma pending_of_insert other l i d d' :
  l !! i = Some d ->
  dr_symbol d' = dr_symbol d -> dr_symbol d <> other ->
  pending_of other (<[i := d']> l) = pending_of other l.
Proof.
  intros Hl Hs Hne. revert i Hl.
  induction l as [|x l IH]; intros [|i] Hl; try discriminate.
  - injection Hl as ->.
    change (<[0%nat := d']> (d :: l)) with (d' :: l).
    unfold pending_of. cbn [List.filter]. rewrite Hs.
    apply String.eqb_neq in Hne. now rewrite Hne.
  - change (<[S i := d']> (x :: l)) with (x :: <[i := d']> l).
    unfold pending_of in *. cbn [List.filter].
    rewrite (IH i Hl). reflexivity.
Qed.

Lemma match_one_frame symbol acq_date cpu st idx st' other :
  match_one symbol acq_date cpu st idx = Ok st' ->
  (forall d, m_pending st !! idx = Some d -> dr_symbol d <> other) ->
  map dr_symbol (m_pending st') = map dr_symbol (m_pending st) /\
  pending_of other (m_pending st') = pending_of other (m_pending st).
Proof.
  unfold match_one. intros H Hne.
  destruct (m_pending st !! idx) as [disp|] eqn:El;
    [|injection H as <-; now split].
  destruct (dle (m_remaining_qty st) 0 || dle (qty_remaining disp) 0);
    [injection H as <-; now split|].
  bind_case H Ed. injection H as <-. cbn [m_pending]. split.
  - rewrite list_fmap_insert. cbn [dr_symbol].
    apply list_insert_id. rewrite list_lookup_fmap, El. reflexivity.
  - apply (pending_of_insert other _ idx disp); [exact El|reflexivity|].
    now apply Hne.
Qed.

Lemma match_loop_frame symbol acq_date cpu idxs st st' other :
  match_loop symbol acq_date cpu idxs st = Ok st' ->
  (forall idx sym, In idx idxs ->
     map dr_symbol (m_pending st) !! idx = Some sym -> sym <> other) ->
  pending_of other (m_pending st') = pending_of other (m_pending st).
Proof.
  revert st. induction idxs as [|idx idxs IH]; intros st H Hne; simpl in H.
  - injection H as <-. reflexivity.
  - bind_case H E1.
    apply (match_one_frame _ _ _ _ _ _ other) in E1 as [Hs1 Hp1].
    2:{ intros d Hd. apply (Hne idx); [now left|].
        now rewrite list_lookup_fmap, Hd. }
    rewrite <- Hp1. apply IH; [exact H|].
    intros i sym Hin Hl. rewrite Hs1 in Hl. apply (Hne i); [now right|exact Hl].
Qed.

Lemma to_match_symbol pending symbol acq_date idx :
  let same := same_day_candidates pending symbol acq_date in
  In idx (map fst
            (same ++ sort_by_date
                       (thirty_day_candidates pending symbol acq_date same))) ->
  exists d, pending !! idx = Some d /\ dr_symbol d = symbol.
Proof.
  intros same H. apply in_map_iff in H as ([i d] & <- & H). cbn [fst].
  exists d. apply in_app_or in H as [H|H].
  - apply List.filter_In in H as [Hin Hc]. cbn [snd] in Hc.
    apply andb_true_iff in Hc as [Hs _]. apply String.eqb_eq in Hs.
    split; [now apply enumerate_lookup|exact Hs].
  - apply sort_by_date_In, List.filter_In in H as [Hin Hc]. cbn [snd fst] in Hc.
    apply andb_true_iff in Hc as [Hc _].
    apply andb_true_iff in Hc as [Hc _].
    apply andb_true_iff in Hc as [Hs _]. apply String.eqb_eq in Hs.
    split; [now apply enumerate_lookup|exact Hs].
Qed.

Lemma filter_filter_comm {A} (f g : A -> bool) l :
  List.filter f (List.filter g l) = List.filter g (List.filter f l).
Proof.
  induction l as [|x l IH]; [reflexivity|]. simpl.
  destruct (f x) eqn:Ef, (g x) eqn:Eg; simpl; rewrite ?Ef, ?Eg, IH; reflexivity.
Qed.

Lemma flush_loop_frame symbol before l st st' other :
  flush_loop symbol before l st = Ok st' ->
  symbol <> other ->
  pending_of other (f_new_pending st')
  = pending_of other (f_new_pending st) ++ pending_of other l.
Proof.
  intros H Hne. revert st H. induction l as [|d l IH]; intros st H; simpl in H.
  - injection H as <-. cbn. now rewrite app_nil_r.
  - bind_case H E1. rewrite (IH _ H). clear IH H.
    unfold flush_one in E1.
    destruct (negb (dr_symbol d =? symbol)%string
              || dle (qty_remaining d) 0) eqn:Ec.
    { injection E1 as <-. cbn [keep_pending f_new_pending].
      rewrite pending_of_app, (pending_of_cons other d l).
      now rewrite <- app_assoc. }
    apply orb_false_iff in Ec as [Es _]. apply negb_false_iff in Es.
    apply String.eqb_eq in Es.
    bind_case E1 Ew.
    match type of E1 with context [(before <=? ?w)%Z] =>
      destruct (before <=? w)%Z end.
    { injection E1 as <-. cbn [keep_pending f_new_pending].
      rewrite pending_of_app, (pending_of_cons other d l).
      now rewrite <- app_assoc. }
    bind_case E1 Et.
    match type of Et with _ = Ok ?r => destruct r as [[c pool'] ws] end.
    bind_case E1 Ed. injection E1 as <-. cbn [f_new_pending].
    rewrite (pending_of_cons other d l), pending_of_single_other;
      [reflexivity|congruence].
Qed.

Lemma flush_frame symbol before s s' other :
  _flush_pending_disposals_for_symbol symbol before s = Ok s' ->
  symbol <> other ->
  pool_of s' other = pool_of s other /\
  pending_of other (_pending_disposals s')
  = pending_of other (_pending_disposals s).
Proof.
  unfold _flush_pending_disposals_for_symbol. intros H Hne.
  bind_case H Eloop. injection H as <-. split.
  - unfold pool_of. cbn [_pools]. now rewrite lookup_insert_ne.
  - cbn [_pending_disposals].
    now rewrite (flush_loop_frame _ _ _ _ _ other Eloop Hne).
Qed.

(** X9. Instruments are kept apart.  From a state the pool can reach, an
    acquisition or a disposal of one instrument leaves the pool and the
    pending disposals of every other instrument exactly as they were. *)
Theorem other_instruments_untouched (s : Section104Pool)
    (symbol other : string) :
  reachable s -> symbol <> other ->
  (forall acq_date q c s',
     add_acquisition acq_date symbol q c s = Ok s' ->
     pool_of s' other = pool_of s other /\
     pending_of other (_pending_disposals s')
     = pending_of other (_pending_disposals s)) /\
  (forall disp_date q p s',
     remove_disposal disp_date symbol q p s = Ok s' ->
     pool_of s' other = pool_of s other /\
     pending_of other (_pending_disposals s')
     = pending_of other (_pending_disposals s)).
Proof.
  intros Hr Hne. destruct (reachable_well_formed s Hr) as [Hok _]. split.
  - intros acq_date q c s' H. unfold add_acquisition in H.
    destruct (dle q 0); [injection H as <-; now split|].
    bind_case H Ecpu. bind_case H Eloop. rename a0 into st.
    apply (match_loop_frame _ _ _ _ _ _ other) in Eloop.
    2:{ cbn [m_pending]. intros idx sym Hin Hl.
        apply to_match_symbol in Hin as (d & Hd & Hs).
        rewrite list_lookup_fmap, Hd in Hl. injection Hl as <-. congruence. }
    cbn [m_pending] in Eloop.
    injection H as <-. split.
    + unfold pool_of. cbn [_pools].
      destruct (dlt 0 (m_remaining_qty st)); [|reflexivity].
      now rewrite lookup_insert_ne.
    + cbn [_pending_disposals]. unfold pending_of in *.
      rewrite filter_filter_comm, Eloop.
      apply filter_all. intros d Hd.
      apply List.filter_In in Hd as [Hd _].
      rewrite Forall_forall in Hok. apply dlt_true.
      apply Hok. now apply list_elem_of_In.
  - intros disp_date q p s' H. unfold remove_disposal in H.
    destruct (dle q 0); [injection H as <-; now split|].
    bind_case H Ef. injection H as <-.
    apply (flush_frame _ _ _ _ other) in Ef as [Hpool Hpend]; [|exact Hne].
    split; [exact Hpool|]. cbn [_pending_disposals].
    rewrite pending_of_app, Hpend, pending_of_single_other;
      [now rewrite app_nil_r|exact Hne].
Qed.

Lemma other_instruments_untouched_witness :
  reachable Samples.mixed_state /\ "AAPL"%string <> "MSFT"%string /\
  exists s',
    add_acquisition 739420 "AAPL" 60 9000 Samples.mixed_state = Ok s' /\
    pending_of "AAPL" (_pending_disposals s') = [] /\
    pool_of s' "MSFT" = pool_of Samples.mixed_state "MSFT" /\
    pending_of "MSFT" (_pending_disposals s')
    = pending_of "MSFT" (_pending_disposals Samples.mixed_state).
Proof.
  assert (Hne : "AAPL"%string <> "MSFT"%string) by discriminate.
  split; [exact mixed_state_reachable|]. split; [exact Hne|].
  destruct (other_instruments_untouched Samples.mixed_state "AAPL" "MSFT"
              mixed_state_reachable Hne) as [Hadd _].
  eexists. split; [vm_compute; reflexivity|].
  split; [vm_compute; reflexivity|].
  eapply (Hadd 739420%Z 60 9000). vm_compute. reflexivity.
Defined.

End PoolFrame.

(** ** FIFO ledger: what a disposal consumes *)

Section FifoFacts.
Import Ledger.

Lemma held_quantity_app l1 l2 :
  held_quantity (l1 ++ l2) == held_quantity l1 + held_quantity l2.
Proof. induction l1 as [|x l1 IH]; simpl; [lra|]. rewrite IH. lra. Qed.

Lemma held_cost_app l1 l2 :
  held_cost (l1 ++ l2) == held_cost l1 + held_cost l2.
Proof. induction l1 as [|x l1 IH]; simpl; [lra|]. rewrite IH. lra. Qed.

(** Every iteration moves cost and quantity from the lots to the totals,
    whatever the lots and the quantity asked for. *)
Lemma fifo_loop_moves lots st st' :
  fifo_loop lots st = Ok st' ->
  total_cost st' + held_cost (new_lots st')
    == total_cost st + held_cost (new_lots st) + held_cost lots /\
  held_quantity (new_lots st') + (remaining st - remaining st')
    == held_quantity (new_lots st) + held_quantity lots.
Proof.
  revert st. induction lots as [|lot lots IH]; intros st H; simpl in H.
  - injection H as <-. simpl. split; lra.
  - bind_case H E. apply IH in H as [Hc Hq]. clear IH.
    assert (Hstep :
      total_cost a + held_cost (new_lots a)
        == total_cost st + held_cost (new_lots st) + cost_gbp lot /\
      held_quantity (new_lots a) + (remaining st - remaining a)
        == held_quantity (new_lots st) + quantity lot).
    { unfold consume_lot in E.
      destruct (dle (remaining st) 0).
      { injection E as <-. cbn [total_cost new_lots remaining].
        rewrite held_cost_app, held_quantity_app. simpl. split; lra. }
      destruct (dle (quantity lot) (remaining st)).
      { injection E as <-. cbn [total_cost new_lots remaining].
        split; lra. }
      bind_case E Ed. injection E as <-. cbn [total_cost new_lots remaining].
      rewrite held_cost_app, held_quantity_app. simpl. split; lra. }
    destruct Hstep as [Hc1 Hq1].
    change (held_cost (lot :: lots)) with (cost_gbp lot + held_cost lots).
    change (held_quantity (lot :: lots))
      with (quantity lot + held_quantity lots).
    split; lra.
Qed.

Lemma fifo_loop_exhausts lots st st' :
  fifo_loop lots st = Ok st' ->
  nonneg_lots lots ->
  0 <= remaining st -> remaining st <= held_quantity lots ->
  remaining st' == 0.
Proof.
  revert st. induction lots as [|lot lots IH]; intros st H Hn H0 Hle;
    simpl in *.
  - injection H as <-. lra.
  - inversion Hn as [|? ? Hq Hrest]; subst.
    pose proof (held_quantity_nonneg lots Hrest) as Hh.
    bind_case H E. unfold consume_lot in E.
    destruct (dle (remaining st) 0) eqn:E1.
    { apply dle_true in E1. injection E as <-.
      eapply IH; [exact H|exact Hrest|cbn; lra|cbn; lra]. }
    destruct (dle (quantity lot) (remaining st)) eqn:E2.
    { apply dle_true in E2. injection E as <-.
      eapply IH; [exact H|exact Hrest|cbn; lra|cbn; lra]. }
    bind_case E Ed. injection E as <-.
    eapply IH; [exact H|exact Hrest|cbn; lra|cbn; lra].
Qed.

(** X10. A FIFO disposal never raises and conserves cost and quantity.
    For any lots and any quantity, [_calculate_fifo_cost] returns; the cost
    it returns plus the cost of the lots it leaves is the cost of the lots
    it found, to the penny; the other instruments' lots are untouched.
    When no lot has a negative quantity and the quantity asked for is
    between zero and the quantity held, the lots left hold exactly the
    difference, and none of them has a negative quantity. *)
Theorem fifo_conserves (symbol : string) (requested : Decimal)
    (holdings : gmap string (list LotHolding)) :
  let lots := default [] (holdings !! symbol) in
  exists cost left,
    _calculate_fifo_cost symbol requested holdings
      = Ok (cost, <[symbol := left]> holdings) /\
    cost + held_cost left == held_cost lots /\
    (nonneg_lots lots -> nonneg_lots left) /\
    (nonneg_lots lots -> 0 <= requested <= held_quantity lots ->
     held_quantity left == held_quantity lots - requested).
Proof.
  intros lots. unfold _calculate_fifo_cost. fold lots.
  destruct (fifo_loop_total lots
              {| remaining := requested; total_cost := 0; new_lots := [] |})
    as [st Hst].
  rewrite Hst. cbn [mbind Result_bind].
  exists (total_cost st), (new_lots st). split; [reflexivity|].
  destruct (fifo_loop_moves _ _ _ Hst) as [Hc Hq]. simpl in Hc, Hq.
  split; [lra|]. split.
  - intros Hn. eapply fifo_loop_nonneg; [exact Hst|exact Hn|constructor].
  - intros Hn [H0 Hle].
    pose proof (fifo_loop_exhausts _ _ _ Hst Hn H0 Hle) as Hr. simpl in Hr.
    lra.
Qed.

Lemma fifo_conserves_witness :
  let lots := default [] (Examples.two_lots !! "AAPL"%string) in
  nonneg_lots lots /\ 0 <= 120 <= held_quantity lots /\
  exists cost left,
    _calculate_fifo_cost "AAPL" 120 Examples.two_lots
      = Ok (cost, <["AAPL"%string := left]> Examples.two_lots) /\
    cost + held_cost left == 2300 /\
    held_quantity left == 30.
Proof.
  intros lots.
  assert (Hn : nonneg_lots lots)
    by (repeat constructor; vm_compute; discriminate).
  assert (Hr : 0 <= 120 <= held_quantity lots)
    by (split; vm_compute; discriminate).
  split; [exact Hn|]. split; [exact Hr|].
  destruct (fifo_conserves "AAPL" 120 Examples.two_lots)
    as (cost & left & Hrun & Hc & _ & Hq).
  exists cost, left. split; [exact Hrun|]. split; [exact Hc|].
  rewrite (Hq Hn Hr). vm_compute. reflexivity.
Defined.

(** Once nothing is left to consume, the loop keeps every lot. *)
Lemma fifo_loop_keeps lots st :
  remaining st <= 0 ->
  fifo_loop lots st
  = Ok {| remaining := remaining st; total_cost := total_cost st;
          new_lots := new_lots st ++ lots |}.
Proof.
  revert st. induction lots as [|lot lots IH]; intros st H; simpl.
  - rewrite app_nil_r. now destruct st.
  - unfold consume_lot. apply dle_true in H. rewrite H.
    cbn [mbind Result_bind]. rewrite IH by (cbn; now apply dle_true).
    cbn. now rewrite <- app_assoc.
Qed.

(** X11. Oldest lots first.  When no lot has a negative quantity, the lots
    a FIFO disposal leaves are the last lots of the list it found, in
    order: either exactly a tail of it, or a tail of it whose first lot
    has been replaced by a smaller lot of the same date, instrument and
    asset class. *)
Theorem fifo_oldest_first (symbol : string) (requested : Decimal)
    (holdings : gmap string (list LotHolding)) :
  let lots := default [] (holdings !! symbol) in
  nonneg_lots lots ->
  exists cost left k,
    _calculate_fifo_cost symbol requested holdings
      = Ok (cost, <[symbol := left]> holdings) /\
    (left = drop k lots \/
     exists lot lot',
       lots !! k = Some lot /\ left = lot' :: drop (S k) lots /\
       lot_date lot' = lot_date lot /\ lot_symbol lot' = lot_symbol lot /\
       asset_class lot' = asset_class lot /\
       0 < quantity lot' /\ quantity lot' < quantity lot).
Proof.
  intros lots Hn. unfold _calculate_fifo_cost. fold lots.
  assert (H : forall r t,
    exists st k,
      fifo_loop lots {| remaining := r; total_cost := t; new_lots := [] |}
        = Ok st /\
      (new_lots st = drop k lots \/
       exists lot lot',
         lots !! k = Some lot /\ new_lots st = lot' :: drop (S k) lots /\
         lot_date lot' = lot_date lot /\ lot_symbol lot' = lot_symbol lot /\
         asset_class lot' = asset_class lot /\
         0 < quantity lot' /\ quantity lot' < quantity lot)).
  { clear requested. induction Hn as [|lot lots Hq Hrest IH]; intros r t.
    - eexists _, 0%nat. split; [reflexivity|]. now left.
    - cbn [fifo_loop]. unfold consume_lot. cbn [remaining total_cost new_lots].
      destruct (dle r 0) eqn:E1.
      { apply dle_true in E1. cbn [mbind Result_bind].
        rewrite fifo_loop_keeps by (cbn; exact E1).
        eexists _, 0%nat. split; [reflexivity|]. now left. }
      apply dle_false in E1.
      destruct (dle (quantity lot) r) eqn:E2.
      { cbn [mbind Result_bind].
        destruct (IH (r - quantity lot) (t + cost_gbp lot))
          as (st & k & Hrun & Hk).
        exists st, (S k). split; [exact Hrun|].
        destruct Hk as [Hk|(l0 & l1 & Hl & Hk & Hrest')].
        - now left.
        - right. exists l0, l1. split; [exact Hl|]. now split. }
      apply dle_false in E2.
      rewrite div_ctx_ok by lra. cbn [mbind Result_bind].
      rewrite fifo_loop_keeps by (cbn; lra).
      eexists _, 0%nat. split; [reflexivity|]. right.
      eexists lot, _. split; [reflexivity|].
      split; [reflexivity|].
      cbn [lot_date lot_symbol asset_class quantity].
      split; [reflexivity|]. split; [reflexivity|]. split; [reflexivity|].
      split; lra. }
  destruct (H requested 0) as (st & k & Hrun & Hk).
  rewrite Hrun. cbn [mbind Result_bind].
  exists (total_cost st), (new_lots st), k. now split.
Qed.

Lemma fifo_oldest_first_witness :
  let lots := default [] (Examples.two_lots !! "AAPL"%string) in
  nonneg_lots lots /\
  exists cost left k,
    _calculate_fifo_cost "AAPL" 120 Examples.two_lots
      = Ok (cost, <["AAPL"%string := left]> Examples.two_lots) /\
    (left = drop k lots \/
     exists lot lot',
       lots !! k = Some lot /\ left = lot' :: drop (S k) lots /\
       lot_date lot' = lot_date lot /\ lot_symbol lot' = lot_symbol lot /\
       asset_class lot' = asset_class lot /\
       0 < quantity lot' /\ quantity lot' < quantity lot).
Proof.
  intros lots.
  assert (Hn : nonneg_lots lots)
    by (repeat constructor; vm_compute; discriminate).
  split; [exact Hn|].
  exact (fifo_oldest_first "AAPL" 120 Examples.two_lots Hn).
Defined.

End FifoFacts.

(** ** Section 104 pooling: the end-of-stream flush, before December 9999 *)

Section FlushAllWitness.
Import Pooling.

Lemma flush_all_pending_idempotent_witness :
  reachable Samples.mixed_state /\
  Forall before_dec_9999 (_pending_disposals Samples.mixed_state) /\
  iteration_order Samples.mixed_state ["AAPL"; "MSFT"]%string /\
  exists s',
    flush_all_pending ["AAPL"; "MSFT"]%string Samples.mixed_state = Ok s' /\
    _pending_disposals s' = [] /\
    forall order',
      iteration_order s' order' -> flush_all_pending order' s' = Ok s'.
Proof.
  assert (Hd : Forall before_dec_9999 (_pending_disposals Samples.mixed_state)).
  { repeat constructor; vm_compute; discriminate. }
  assert (Ho : iteration_order Samples.mixed_state ["AAPL"; "MSFT"]%string).
  { split.
    - apply (bool_decide_unpack _). vm_compute. reflexivity.
    - assert (E : map dr_symbol (_pending_disposals Samples.mixed_state)
                  = ["AAPL"; "MSFT"]%string) by (vm_compute; reflexivity).
      rewrite E. intros x. reflexivity. }
  split; [exact mixed_state_reachable|]. split; [exact Hd|].
  split; [exact Ho|].
  exact (flush_all_pending_idempotent Samples.mixed_state
           ["AAPL"; "MSFT"]%string mixed_state_reachable Hd Ho).
Defined.

End FlushAllWitness.

(** ** Corporation Tax: further properties *)

Section TaxMore.
Import Tax Ct600.

(** X13. Interest relief splits the interest paid.  Whatever the accounts,
    the allowable and the disallowed interest returned add up to the
    interest paid in account 5600, which is also the total returned; the
    allowable part never exceeds the limit returned; and when the interest
    paid is not negative, neither part is negative. *)
Theorem interest_relief_splits (tc : TaxComputation) :
  let r := fst (calculate_interest_relief tc) in
  total_interest_paid r == _debit tc INTEREST_PAID /\
  allowable_interest r + disallowed_interest r == total_interest_paid r /\
  allowable_interest r <= icr_limit r /\
  (0 <= _debit tc INTEREST_PAID ->
   0 <= allowable_interest r /\ 0 <= disallowed_interest r).
Proof.
  intros r. subst r. unfold calculate_interest_relief,
    calculate_management_expenses.
  set (paid := _debit tc INTEREST_PAID).
  set (earnings := _credit tc INTEREST_RECEIVED
                   - (_debit tc BROKER_FEES + management_expenses_csv tc)).
  destruct (deq paid 0) eqn:E0.
  { apply deq_true in E0.
    cbn [fst total_interest_paid allowable_interest disallowed_interest
         icr_limit].
    repeat split; lra. }
  destruct (dle earnings 0) eqn:E1.
  { cbn [fst total_interest_paid allowable_interest disallowed_interest
         icr_limit].
    repeat split; lra. }
  apply dle_false in E1.
  set (limit := quantize 2 (earnings * (30 # 100))).
  assert (Hl : 0 <= limit) by (apply quantize_nonneg; lra).
  destruct (dle paid limit) eqn:E2;
    cbn [fst total_interest_paid allowable_interest disallowed_interest
         icr_limit];
    rewrite ?dle_true, ?dle_false in E2; repeat split; lra.
Qed.

(** X14. The liability lies between the two rates.  For a profit that is
    not negative, the Corporation Tax computed is at least the profit at
    19% and at most the profit at 25%, both rounded to the penny; it is
    never negative. *)
Theorem corporation_tax_between_rates (p : Decimal) :
  0 <= p ->
  0 <= corporation_tax_on p /\
  quantize 2 (small_profits_rate p) <= corporation_tax_on p /\
  corporation_tax_on p <= quantize 2 (main_rate p).
Proof.
  intros Hp. unfold corporation_tax_on.
  destruct (dle p 0) eqn:E0.
  { apply dle_true in E0. assert (Ez : p == 0) by lra.
    unfold small_profits_rate, main_rate. rewrite Ez, !Qmult_0_l.
    rewrite quantize_0. repeat split; lra. }
  apply dle_false in E0.
  assert (Hb : small_profits_rate p <= tax_liability p /\
               tax_liability p <= main_rate p).
  { unfold tax_liability.
    destruct (dle p 50000) eqn:E1; [|destruct (dle 250000 p) eqn:E2];
      rewrite ?dle_true, ?dle_false in *;
      rewrite ?marginal_relief_band_linear;
      unfold small_profits_rate, main_rate; split; lra. }
  destruct Hb as [Hlo Hhi]. split; [|split].
  - apply quantize_nonneg, tax_liability_nonneg. lra.
  - now apply quantize_mono.
  - now apply quantize_mono.
Qed.

Lemma corporation_tax_between_rates_witness :
  0 <= 100000 /\
  quantize 2 (small_profits_rate 100000) <= corporation_tax_on 100000 /\
  corporation_tax_on 100000 <= quantize 2 (main_rate 100000) /\
  corporation_tax_on 100000 == 22750.
Proof.
  assert (H : 0 <= 100000) by (vm_compute; discriminate).
  destruct (corporation_tax_between_rates 100000 H) as (_ & Hlo & Hhi).
  split; [exact H|]. split; [exact Hlo|]. split; [exact Hhi|].
  vm_compute. reflexivity.
Defined.

(** X15. No disposal, no tax computation.  When the pool has recorded no
    MatchedDisposal, [get_net_capital_gains] calls [quantize] on the int 0
    that [sum] returns, so [calculate_taxable_profit] raises
    AttributeError, and so do [calculate_corporation_tax] without a profit
    and [generate_ct600_mapping] on an object that has no taxable profit
    stored; [calculate_corporation_tax] with a profit still returns. *)
Theorem no_disposal_no_taxable_profit (tc : TaxComputation) :
  Pooling._disposals (_section_104 tc) = [] ->
  calculate_capital_gains tc = Raise AttributeError /\
  calculate_taxable_profit tc = Raise AttributeError /\
  (_taxable_profit tc = None ->
   calculate_corporation_tax tc None = Raise AttributeError /\
   generate_ct600_mapping tc = Raise AttributeError) /\
  forall p, exists t tc',
    calculate_corporation_tax tc (Some p) = Ok (t, tc').
Proof.
  intros He.
  assert (Hg : forall tc0, _section_104 tc0 = _section_104 tc ->
                 calculate_capital_gains tc0 = Raise AttributeError).
  { intros tc0 E. unfold calculate_capital_gains,
      Pooling.get_net_capital_gains. now rewrite E, He. }
  assert (Ht : calculate_taxable_profit tc = Raise AttributeError).
  { unfold calculate_taxable_profit, calculate_management_expenses.
    destruct (calculate_interest_relief tc) as [r tc1] eqn:Er.
    rewrite (Hg tc1); [reflexivity|].
    unfold calculate_interest_relief in Er.
    repeat match type of Er with
           | context [if ?b then _ else _] => destruct b
           | context [let '(_, _) := ?x in _] => destruct x
           end; injection Er as _ <-; reflexivity. }
  split; [now apply Hg|]. split; [exact Ht|]. split.
  - intros Hn. split.
    + unfold calculate_corporation_tax. now rewrite Hn, Ht.
    + unfold generate_ct600_mapping. now rewrite Hn, Ht.
  - intros p. eexists _, _. reflexivity.
Qed.

Lemma no_disposal_no_taxable_profit_witness :
  Pooling._disposals (_section_104 Examples.mock_tc) = [] /\
  calculate_taxable_profit Examples.mock_tc = Raise AttributeError /\
  calculate_corporation_tax Examples.mock_tc None = Raise AttributeError.
Proof.
  assert (H : Pooling._disposals (_section_104 Examples.mock_tc) = [])
    by reflexivity.
  destruct (no_disposal_no_taxable_profit Examples.mock_tc H)
    as (_ & Ht & Hn & _).
  split; [exact H|]. split; [exact Ht|]. apply Hn. reflexivity.
Defined.

End TaxMore.

Section Ct600Facts.
Import Tax Ct600.

Lemma on_grid_plus k x y : on_grid k x -> on_grid k y -> on_grid k (x + y).
Proof.
  intros [n Hn] [m Hm]. exists (n + m)%Z. rewrite Hn, Hm.
  unfold Qeq, Qplus. cbn [Qnum Qden]. nia.
Qed.

Lemma calculate_interest_relief_frame (tc : TaxComputation) :
  let tc1 := snd (calculate_interest_relief tc) in
  _accounts tc1 = _accounts tc /\
  _section_104 tc1 = _section_104 tc /\
  management_expenses_csv tc1 = management_expenses_csv tc /\
  _taxable_profit tc1 = _taxable_profit tc /\
  _corporation_tax tc1 = _corporation_tax tc.
Proof.
  unfold calculate_interest_relief, calculate_management_expenses.
  repeat match goal with
         | |- context [if ?b then _ else _] => destruct b
         end; cbn; repeat split; reflexivity.
Qed.

Lemma calculate_interest_relief_ext (tc tc' : TaxComputation) :
  _accounts tc = _accounts tc' ->
  management_expenses_csv tc = management_expenses_csv tc' ->
  fst (calculate_interest_relief tc) = fst (calculate_interest_relief tc').
Proof.
  intros Ha Hm.
  unfold calculate_interest_relief, calculate_management_expenses,
    _debit, _credit.
  rewrite Ha, Hm.
  repeat match goal with
         | |- context [if ?b then _ else _] => destruct b
         end; reflexivity.
Qed.

End Ct600Facts.

Section Ct600Mapping.
Import Tax Ct600.

Lemma calculate_taxable_profit_returns (tc : TaxComputation) (g : Decimal) :
  Pooling.get_net_capital_gains (_section_104 tc) = Ok g ->
  exists tc',
    calculate_taxable_profit tc
      = Ok (quantize 2 (non_trading_of tc + g), tc') /\
    _accounts tc' = _accounts tc /\
    _section_104 tc' = _section_104 tc /\
    management_expenses_csv tc' = management_expenses_csv tc /\
    _taxable_profit tc' = Some (quantize 2 (non_trading_of tc + g)) /\
    _corporation_tax tc' = _corporation_tax tc.
Proof.
  intros Hg.
  pose proof (calculate_interest_relief_frame tc) as Hf.
  unfold calculate_taxable_profit, calculate_management_expenses,
    non_trading_of.
  destruct (calculate_interest_relief tc) as [r tc1] eqn:Er.
  cbn [fst snd] in *. destruct Hf as (Ha & Hs & Hm & Hp & Hc).
  unfold calculate_capital_gains. rewrite Hs, Hg.
  eexists. split; [reflexivity|].
  cbn [_accounts _section_104 management_expenses_csv _taxable_profit
       _corporation_tax].
  repeat split; assumption.
Qed.

(** X16. The CT600 boxes add up.  On a new [TaxComputation] over a pool
    that has recorded at least one disposal, [generate_ct600_mapping]
    returns; box 16 is the pool's net capital gain, box 46 is exactly
    box 13 plus box 16 (both are whole pence, so the final rounding loses
    nothing), and box 500 is the liability on box 46. *)
Theorem ct600_boxes_add_up (tc : TaxComputation) :
  fresh tc ->
  Pooling._disposals (_section_104 tc) <> [] ->
  exists m tc' p,
    generate_ct600_mapping tc = Ok (m, tc') /\
    Pooling.get_net_capital_gains (_section_104 tc)
      = Ok (box_16_chargeable_gains m) /\
    box_46_taxable_total_profit m = Some p /\
    p == box_13_non_trading_profits m + box_16_chargeable_gains m /\
    box_500_corporation_tax m = Some (corporation_tax_on p).
Proof.
  intros [Hp Ht] Hd.
  assert (Hg : exists g,
             Pooling.get_net_capital_gains (_section_104 tc) = Ok g /\
             on_grid 2 g).
  { unfold Pooling.get_net_capital_gains.
    destruct (Pooling._disposals (_section_104 tc)) as [|d ds];
      [congruence|].
    eexists. split; [reflexivity|]. apply quantize_is_on_grid. }
  destruct Hg as (g & Hg & Hgrid).
  destruct (calculate_taxable_profit_returns tc g Hg)
    as (tc1 & E1 & Ha & Hs & Hm & Hp1 & Hc1).
  set (p := quantize 2 (non_trading_of tc + g)) in *.
  set (tc2 := set_corporation_tax tc1 (corporation_tax_on p)).
  pose proof (calculate_interest_relief_frame tc2) as Hf.
  assert (Er : fst (calculate_interest_relief tc2)
               = fst (calculate_interest_relief tc)).
  { apply calculate_interest_relief_ext; cbn; assumption. }
  assert (Hn : quantize 2 (_credit tc2 INTEREST_RECEIVED
                 - _debit tc2 BROKER_FEES - management_expenses_csv tc2
                 - allowable_interest (fst (calculate_interest_relief tc2)))
               = non_trading_of tc).
  { unfold non_trading_of, _credit, _debit. rewrite Er. cbn.
    rewrite Ha, Hm. reflexivity. }
  unfold generate_ct600_mapping. rewrite Hp, E1.
  cbn [mbind Result_bind]. rewrite Hc1, Ht.
  unfold calculate_corporation_tax. rewrite Hp1.
  cbn [mbind Result_bind]. fold tc2.
  unfold calculate_management_expenses.
  destruct (calculate_interest_relief tc2) as [r tc3] eqn:E3.
  cbn [fst snd] in *. destruct Hf as (Ha3 & Hs3 & Hm3 & Hp3 & Hc3).
  unfold calculate_capital_gains. rewrite Hs3. cbn [tc2 set_corporation_tax
    _section_104]. rewrite Hs, Hg. cbn [mbind Result_bind].
  eexists _, _, p. split; [reflexivity|].
  cbn [box_13_non_trading_profits box_16_chargeable_gains
       box_46_taxable_total_profit box_500_corporation_tax].
  split; [reflexivity|]. split; [rewrite Hp3; exact Hp1|].
  split.
  - rewrite Hn. subst p. apply quantize_on_grid.
    apply on_grid_plus; [apply quantize_is_on_grid|exact Hgrid].
  - rewrite Hc3. reflexivity.
Qed.

Lemma ct600_boxes_add_up_witness :
  fresh mock_with_gain /\
  exists m tc',
    generate_ct600_mapping mock_with_gain = Ok (m, tc') /\
    box_46_taxable_total_profit m = Some 2338.98 /\
    box_500_corporation_tax m = Some 444.41.
Proof.
  assert (Hf : fresh mock_with_gain) by (split; reflexivity).
  assert (Hd : Pooling._disposals (_section_104 mock_with_gain) <> [])
    by (vm_compute; discriminate).
  destruct (ct600_boxes_add_up mock_with_gain Hf Hd)
    as (m & tc' & p & E & _).
  split; [exact Hf|]. exists m, tc'. split; [exact E|].
  revert E. vm_compute. intros E. injection E as <- _. split; reflexivity.
Defined.

End Ct600Mapping.

(** ** Trial balance generation: properties *)

(** Case analysis on the first computation of a bind that returned. *)
Ltac step_case H E :=
  match type of H with
  | mbind _ ?m = Books.Done _ =>
      destruct m eqn:E; cbn [mbind Books.Outcome_bind] in H;
      [|discriminate H]
  end.

Section Sums.

Lemma sum_perm {A} (f : A -> Q) (l l' : list A) :
  l ≡ₚ l' ->
  fold_right (fun x acc => f x + acc) 0 l
  == fold_right (fun x acc => f x + acc) 0 l'.
Proof.
  induction 1 as [|x l l' _ IH|x y l|l l' l'' _ IH1 _ IH2]; cbn.
  - reflexivity.
  - rewrite IH. reflexivity.
  - ring.
  - rewrite IH1. exact IH2.
Qed.

Lemma sum_app {A} (f : A -> Q) (l l' : list A) :
  fold_right (fun x acc => f x + acc) 0 (l ++ l')
  == fold_right (fun x acc => f x + acc) 0 l
     + fold_right (fun x acc => f x + acc) 0 l'.
Proof. induction l as [|x l IH]; cbn; [ring|rewrite IH; ring]. Qed.

(** Replacing the value under a key changes a sum over a map by the
    difference of the two values. *)
Lemma sum_map_insert {A} (f : string * A -> Q) (m : gmap string A)
    (k : string) (a a' : A) :
  m !! k = Some a ->
  fold_right (fun x acc => f x + acc) 0 (map_to_list (<[k := a']> m))
  == fold_right (fun x acc => f x + acc) 0 (map_to_list m)
     - f (k, a) + f (k, a').
Proof.
  intros Hk.
  assert (Hn : delete k m !! k = None) by apply lookup_delete_eq.
  rewrite <- (insert_delete_eq m k a').
  rewrite (sum_perm f _ _ (map_to_list_insert (delete k m) k a' Hn)).
  rewrite <- (insert_delete_id m k a Hk) at 2.
  rewrite (sum_perm f _ _ (map_to_list_insert (delete k m) k a Hn)).
  cbn. ring.
Qed.

Lemma sum_map_insert_new {A} (f : string * A -> Q) (m : gmap string A)
    (k : string) (a' : A) :
  m !! k = None ->
  fold_right (fun x acc => f x + acc) 0 (map_to_list (<[k := a']> m))
  == fold_right (fun x acc => f x + acc) 0 (map_to_list m) + f (k, a').
Proof.
  intros Hk. rewrite (sum_perm f _ _ (map_to_list_insert m k a' Hk)).
  cbn. ring.
Qed.

End Sums.

Section Postings.
Import Books.

Lemma sum_accounts_insert f (m : gmap string TrialBalanceAccount) k a a' :
  m !! k = Some a ->
  sum_accounts f (<[k := a']> m) == sum_accounts f m - f a + f a'.
Proof.
  intros Hk. unfold sum_accounts.
  exact (sum_map_insert (fun ka => f (snd ka)) m k a a' Hk).
Qed.

Lemma lots_at_cost_insert (g : TrialBalanceGenerator) symbol lots :
  lots_at_cost (set_holdings g (<[symbol := lots]> (holdings g)))
  == lots_at_cost g
     - Ledger.held_cost (default [] (holdings g !! symbol))
     + Ledger.held_cost lots.
Proof.
  unfold lots_at_cost. cbn [holdings set_holdings].
  destruct (holdings g !! symbol) as [old|] eqn:Hk; cbn [default].
  - exact (sum_map_insert (fun kl => Ledger.held_cost (snd kl))
             (holdings g) symbol old lots Hk).
  - rewrite (sum_map_insert_new (fun kl => Ledger.held_cost (snd kl))
               (holdings g) symbol lots Hk).
    cbn [snd]. change (Ledger.held_cost []) with 0. ring.
Qed.

Lemma post_posted side account_code a memo g g' :
  0 <= a ->
  post side account_code a memo g = Done g' ->
  posted account_code (match side with Dr => a | Cr => - a end) g g'.
Proof.
  intros Ha H. unfold post in H.
  destruct (accounts g !! account_code) as [acc|] eqn:Hk; [|discriminate].
  injection H as <-.
  unfold posted, journal_debits, journal_credits, total_debits,
    total_credits, balance_of, accounts_ok.
  cbn [trades cash_transactions rate_cache holdings section_104
       journal_entries accounts set_ledger].
  do 5 (split; [reflexivity|]).
  split; [|split; [|split; [|split]]].
  - rewrite (sum_app je_debit), (sum_app je_credit).
    destruct side; cbn; lra.
  - rewrite !(sum_accounts_insert _ _ _ _ _ Hk).
    destruct side; cbn; lra.
  - intros c. destruct (String.eqb_spec c account_code) as [->|Hne].
    + rewrite lookup_insert_eq, Hk. unfold balance.
      destruct side; cbn; lra.
    + rewrite lookup_insert_ne by congruence.
      destruct (accounts g !! c); lra.
  - intros Hj. apply Forall_app. split; [exact Hj|].
    constructor; [|constructor]. unfold entry_ok.
    destruct side; cbn; [left|right]; split; auto.
  - intros Hacc. apply map_Forall_insert_2; [|exact Hacc].
    destruct (Hacc _ _ Hk) as [Hd Hc].
    destruct side; cbn; split; lra.
Qed.

Lemma Qabs_not_negative a : dlt (Qabs a) 0 = false.
Proof. apply dlt_false, Qabs_nonneg. Qed.

Lemma _debit_posted account_code a memo g g' :
  _debit account_code a memo g = Done g' -> posted account_code a g g'.
Proof.
  unfold _debit. destruct (dlt a 0) eqn:E; intros H.
  - apply dlt_true in E.
    apply post_posted in H; [|apply Qabs_nonneg].
    assert (Ea : - Qabs a == a) by (rewrite Qabs_neg; lra).
    unfold posted in *. destruct H as (?&?&?&?&?&Hj&Ht&Hb&?&?).
    do 5 (split; [assumption|]).
    split; [lra|]. split; [lra|]. split; [|split; assumption].
    intros c. rewrite (Hb c). destruct (String.eqb c account_code); lra.
  - apply dlt_false in E. apply (post_posted Dr) in H; assumption.
Qed.

Lemma _credit_posted account_code a memo g g' :
  _credit account_code a memo g = Done g' -> posted account_code (- a) g g'.
Proof.
  unfold _credit. destruct (dlt a 0) eqn:E; intros H.
  - apply dlt_true in E.
    apply post_posted in H; [|apply Qabs_nonneg].
    assert (Ea : Qabs a == - a) by (rewrite Qabs_neg; lra).
    unfold posted in *. destruct H as (?&?&?&?&?&Hj&Ht&Hb&?&?).
    do 5 (split; [assumption|]).
    split; [lra|]. split; [lra|]. split; [|split; assumption].
    intros c. rewrite (Hb c). destruct (String.eqb c account_code); lra.
  - apply dlt_false in E. apply (post_posted Cr) in H; assumption.
Qed.

End Postings.

Section TradeBooks.
Import Books.

Lemma lots_at_cost_holdings g g' :
  holdings g' = holdings g -> lots_at_cost g' = lots_at_cost g.
Proof. unfold lots_at_cost. now intros ->. Qed.

(** Two postings of opposite sign keep the books in order when account
    1200 still carries the lots at cost. *)
Lemma posted_twice c1 c2 d g g1 g2 :
  posted c1 d g g1 -> posted c2 (- d) g1 g2 ->
  journal_debits g == journal_credits g ->
  total_debits g == total_credits g ->
  Forall entry_ok (journal_entries g) -> accounts_ok g ->
  balance_of g "1200"
    + (if String.eqb "1200" c1 then d else 0)
    + (if String.eqb "1200" c2 then - d else 0) == lots_at_cost g ->
  books_ok g2 /\ section_104 g2 = section_104 g /\ same_inputs g g2 /\
  holdings g2 = holdings g.
Proof.
  intros (T1&C1&R1&H1&S1&J1&A1&B1&E1&O1) (T2&C2&R2&H2&S2&J2&A2&B2&E2&O2)
    Hj Ha He Ho Hl.
  split; [|split; [congruence|split; [repeat split; congruence|congruence]]].
  unfold books_ok. split; [lra|]. split; [lra|]. split; [auto|].
  split; [auto|].
  rewrite (B2 "1200"%string), (B1 "1200"%string).
  rewrite (lots_at_cost_holdings g g2) by congruence.
  lra.
Qed.

Lemma fifo_cost_moves symbol q h cost h' :
  Ledger._calculate_fifo_cost symbol q h = Ok (cost, h') ->
  exists left,
    h' = <[symbol := left]> h /\
    cost + Ledger.held_cost left
      == Ledger.held_cost (default [] (h !! symbol)).
Proof.
  unfold Ledger._calculate_fifo_cost. intros H. bind_case H E.
  injection H as <- <-. eexists. split; [reflexivity|].
  destruct (fifo_loop_moves _ _ _ E) as [Hc _]. cbn in Hc. lra.
Qed.

(** The three postings of a sale. *)
Lemma sale_books g1 g2 g3 net cost :
  posted "1101" net g1 g2 -> posted "1200" (- cost) g2 g3 ->
  journal_debits g1 == journal_credits g1 ->
  total_debits g1 == total_credits g1 ->
  Forall entry_ok (journal_entries g1) -> accounts_ok g1 ->
  balance_of g1 "1200" - cost == lots_at_cost g1 ->
  (section_104 g3 = section_104 g1 /\ same_inputs g1 g3) /\
  (net - cost == 0 -> books_ok g3) /\
  (forall c d g', String.eqb "1200" c = false -> d == cost - net ->
     posted c d g3 g' ->
     books_ok g' /\ section_104 g' = section_104 g3 /\ same_inputs g3 g').
Proof.
  intros (T1&C1&R1&H1&S1&J1&A1&B1&E1&O1) (T2&C2&R2&H2&S2&J2&A2&B2&E2&O2)
    Hj Ha He Ho Hl.
  pose proof (B1 "1200"%string) as B1'. pose proof (B2 "1200"%string) as B2'.
  cbn in B1', B2'.
  assert (El : lots_at_cost g3 = lots_at_cost g1)
    by (apply lots_at_cost_holdings; congruence).
  split; [split; [congruence|repeat split; congruence]|]. split.
  - intros Hz. unfold books_ok. split; [lra|]. split; [lra|].
    split; [auto|]. split; [auto|]. rewrite El. lra.
  - intros c d g' Hc Hd (T3&C3&R3&H3&S3&J3&A3&B3&E3&O3).
    split; [|split; [congruence|repeat split; congruence]].
    pose proof (B3 "1200"%string) as B3'. rewrite Hc in B3'.
    unfold books_ok. split; [lra|]. split; [lra|].
    split; [auto|]. split; [auto|].
    rewrite (lots_at_cost_holdings g3 g') by congruence. rewrite El. lra.
Qed.

Lemma _process_trade_books trade g g' :
  _process_trade trade g = Done g' ->
  books_ok g ->
  books_ok g' /\ section_104 g' = section_104 g /\ same_inputs g g'.
Proof.
  intros H (Hj & Ha & He & Ho & Hl). unfold _process_trade in H.
  destruct (is_buy trade).
  - assert (H' :
      (cost_gbp ← to_gbp (rate_cache g)
                    (Qabs (proceeds trade) + commission trade)
                    (t_currency trade) (t_date trade);
       let g1 :=
         set_holdings g
           (<[t_symbol trade :=
                default [] (holdings g !! t_symbol trade) ++
                [{| Ledger.lot_date := t_date trade;
                    Ledger.lot_symbol := t_symbol trade;
                    Ledger.quantity := t_quantity trade;
                    Ledger.cost_gbp := cost_gbp;
                    Ledger.asset_class := t_asset_class trade |}]]>
              (holdings g)) in
       g2 ← _debit "1200" cost_gbp
              (Buy (t_quantity trade) (t_symbol trade)) g1;
       _credit "1101" cost_gbp
         (Buy (t_quantity trade) (t_symbol trade)) g2) = Done g').
    { destruct (String.eqb (t_asset_class trade) "CASH"); exact H. }
    clear H. step_case H' Ec. cbn zeta in H'. step_case H' E1.
    apply _debit_posted in E1. apply _credit_posted in H'.
    match type of E1 with posted _ _ ?x _ => set (g1 := x) in * end.
    destruct (posted_twice _ _ _ g1 _ _ E1 H') as (Hb & Hs & Hi & _);
      try assumption.
    + cbn [String.eqb Ascii.eqb Bool.eqb]. subst g1.
      rewrite lots_at_cost_insert, held_cost_app.
      change (balance_of (set_holdings g ?h) "1200")
        with (balance_of g "1200").
      cbn. lra.
    + split; [exact Hb|]. split; [exact Hs|exact Hi].
  - set (gain_account :=
           if String.eqb (t_asset_class trade) "CASH"
           then "4300"%string else "4200"%string).
    set (loss_account :=
           if String.eqb (t_asset_class trade) "CASH"
           then "5500"%string else "5400"%string).
    assert (Hg : String.eqb "1200" gain_account = false)
      by (subst gain_account;
          destruct (String.eqb (t_asset_class trade) "CASH"); reflexivity).
    assert (Hlo : String.eqb "1200" loss_account = false)
      by (subst loss_account;
          destruct (String.eqb (t_asset_class trade) "CASH"); reflexivity).
    assert (H' :
      (net_proceeds_gbp ← to_gbp (rate_cache g)
                            (Qabs (proceeds trade) - commission trade)
                            (t_currency trade) (t_date trade);
       '(cost_of_sold, holdings') ←
         lift (Ledger._calculate_fifo_cost (t_symbol trade)
                 (t_quantity trade) (holdings g));
       let g1 := set_holdings g holdings' in
       g2 ← _debit "1101" net_proceeds_gbp
              (Sell (t_quantity trade) (t_symbol trade)) g1;
       g3 ← _credit "1200" cost_of_sold
              (CostOfSold (t_quantity trade) (t_symbol trade)) g2;
       let gain_loss := net_proceeds_gbp - cost_of_sold in
       if dlt 0 gain_loss then
         _credit gain_account gain_loss (GainOn (t_symbol trade)) g3
       else if dlt gain_loss 0 then
         _debit loss_account (Qabs gain_loss) (LossOn (t_symbol trade)) g3
       else Done g3) = Done g').
    { subst gain_account loss_account.
      destruct (String.eqb (t_asset_class trade) "CASH"); exact H. }
    clear H. step_case H' Ep. rename a into net.
    destruct (Ledger._calculate_fifo_cost (t_symbol trade)
                (t_quantity trade) (holdings g)) as [[cost h']|] eqn:Ef;
      cbn [lift mbind Outcome_bind] in H'; [|discriminate].
    apply fifo_cost_moves in Ef as (left & -> & Hleft).
    cbn zeta in H'. step_case H' E1. step_case H' E2.
    apply _debit_posted in E1. apply _credit_posted in E2.
    match type of E1 with posted _ _ ?x _ => set (g1 := x) in * end.
    destruct (sale_books g1 _ _ net cost E1 E2) as ((Hs & Hi) & Hz & Hp);
      try assumption.
    { subst g1. rewrite lots_at_cost_insert.
      change (balance_of (set_holdings g ?h) "1200")
        with (balance_of g "1200").
      lra. }
    assert (Hg1 : section_104 g1 = section_104 g /\ trades g1 = trades g /\
                  cash_transactions g1 = cash_transactions g /\
                  rate_cache g1 = rate_cache g) by (repeat split).
    destruct Hg1 as (?&?&?&?).
    destruct (dlt 0 (net - cost)) eqn:G1.
    + apply _credit_posted in H'.
      assert (Eq : - (net - cost) == cost - net) by lra.
      destruct (Hp _ _ _ Hg Eq H') as (Hb & Hs' & (?&?&?)).
      destruct Hi as (?&?&?).
      split; [exact Hb|]. split; [congruence|repeat split; congruence].
    + destruct (dlt (net - cost) 0) eqn:G2.
      * apply _debit_posted in H'. apply dlt_true in G2.
        assert (Eq : Qabs (net - cost) == cost - net)
          by (rewrite Qabs_neg; lra).
        destruct (Hp _ _ _ Hlo Eq H') as (Hb & Hs' & (?&?&?)).
        destruct Hi as (?&?&?).
        split; [exact Hb|]. split; [congruence|repeat split; congruence].
      * injection H' as <-. apply dlt_false in G1, G2.
        split; [apply Hz; lra|]. split; [exact Hs|exact Hi].
Qed.

End TradeBooks.

Section ProcessBooks.
Import Books.

Lemma books_ok_ext g g' :
  accounts g' = accounts g -> journal_entries g' = journal_entries g ->
  holdings g' = holdings g -> books_ok g -> books_ok g'.
Proof.
  intros Ea Ej Eh.
  unfold books_ok, journal_debits, journal_credits, total_debits,
    total_credits, accounts_ok, balance_of, lots_at_cost.
  now rewrite Ea, Ej, Eh.
Qed.

Lemma _process_cash_transaction_books tx g g' :
  _process_cash_transaction tx g = Done g' ->
  books_ok g ->
  books_ok g' /\ section_104 g' = section_104 g /\ same_inputs g g'.
Proof.
  intros H (Hj & Ha & He & Ho & Hl). unfold _process_cash_transaction in H.
  step_case H Ea. cbn zeta in H.
  repeat match type of H with
         | (if ?b then _ else _) = _ => destruct b
         end;
    step_case H E1; apply _debit_posted in E1; apply _credit_posted in H;
    destruct (posted_twice _ _ _ _ _ _ E1 H) as (Hb & Hs & Hi & _);
    try assumption; try (cbn; lra);
    (split; [exact Hb|]; split; [exact Hs|exact Hi]).
Qed.

Lemma _process_trade_section_104_frame trade g g' :
  _process_trade_section_104 trade g = Done g' ->
  accounts g' = accounts g /\ journal_entries g' = journal_entries g /\
  holdings g' = holdings g /\ same_inputs g g'.
Proof.
  unfold _process_trade_section_104, same_inputs. intros H.
  destruct (section_104 g) as [s|]; [|injection H as <-; repeat split].
  destruct (is_buy trade); step_case H Ec; step_case H Es;
    injection H as <-; repeat split.
Qed.

Lemma process_trade_books trade g g' :
  process_trade trade g = Done g' ->
  books_ok g -> books_ok g' /\ same_inputs g g'.
Proof.
  unfold process_trade. intros H Hb. step_case H E1.
  destruct (_process_trade_books _ _ _ E1 Hb) as (Hb1 & _ & (T1&C1&R1)).
  match type of H with (if ?b then _ else _) = _ => destruct b end.
  - destruct (_process_trade_section_104_frame _ _ _ H)
      as (Ea & Ej & Eh & (T2&C2&R2)).
    split; [now apply (books_ok_ext a)|]. repeat split; congruence.
  - injection H as <-. split; [exact Hb1|]. repeat split; assumption.
Qed.

Lemma process_trades_books l g g' :
  process_trades l g = Done g' ->
  books_ok g -> books_ok g' /\ same_inputs g g'.
Proof.
  revert g. induction l as [|t l IH]; intros g H Hb; cbn in H.
  - injection H as <-. split; [exact Hb|]. repeat split.
  - step_case H E1.
    destruct (process_trade_books _ _ _ E1 Hb) as (Hb1 & (T1&C1&R1)).
    destruct (IH _ H Hb1) as (Hb2 & (T2&C2&R2)).
    split; [exact Hb2|]. repeat split; congruence.
Qed.

Lemma process_cash_books l g g' :
  process_cash l g = Done g' -> books_ok g -> books_ok g'.
Proof.
  revert g. induction l as [|t l IH]; intros g H Hb; cbn in H.
  - now injection H as <-.
  - step_case H E1.
    destruct (_process_cash_transaction_books _ _ _ E1 Hb) as (Hb1 & _).
    exact (IH _ H Hb1).
Qed.

Lemma process_books order g g' :
  process order g = Done g' -> books_ok g -> books_ok g'.
Proof.
  unfold process. intros H Hb. step_case H E1. step_case H E2.
  destruct (process_trades_books _ _ _ E1 Hb) as (Hb1 & _).
  apply (process_cash_books _ _ _ H).
  destruct (section_104 a) as [s|].
  - step_case E2 Ef. injection E2 as <-.
    now apply (books_ok_ext a).
  - now injection E2 as <-.
Qed.

Lemma init_accounts b tr cash rc pe k acc :
  accounts (init b tr cash rc pe) !! k = Some acc ->
  debit acc = 0 /\ credit acc = 0.
Proof.
  cbn [accounts init]. intros H.
  apply elem_of_list_to_map_2, list_elem_of_fmap in H
    as ([c n] & E & _).
  injection E as _ ->. split; reflexivity.
Qed.

Lemma sum_accounts_zero f (m : gmap string TrialBalanceAccount) :
  map_Forall (fun _ acc => f acc = 0) m -> sum_accounts f m == 0.
Proof.
  intros H. unfold sum_accounts.
  assert (Hl : Forall (fun ka => f (snd ka) = 0) (map_to_list m)).
  { apply Forall_forall. intros [k a] Hin.
    apply elem_of_map_to_list in Hin. exact (H k a Hin). }
  induction Hl as [|ka l E _ IH]; cbn; [reflexivity|].
  rewrite E, IH. reflexivity.
Qed.

Lemma init_books_ok b tr cash rc pe : books_ok (init b tr cash rc pe).
Proof.
  unfold books_ok. split; [reflexivity|]. split; [|split; [|split]].
  - unfold total_debits, total_credits.
    rewrite !sum_accounts_zero; [reflexivity| |];
      intros k acc Hk; now apply init_accounts in Hk.
  - constructor.
  - intros k acc Hk. apply init_accounts in Hk as [-> ->]. split; lra.
  - unfold balance_of, lots_at_cost, balance.
    cbn [holdings init]. rewrite map_to_list_empty. cbn [fold_right].
    destruct (accounts (init b tr cash rc pe) !! "1200"%string)
      as [acc|] eqn:Hk; [|reflexivity].
    apply init_accounts in Hk as [-> ->]. lra.
Qed.

End ProcessBooks.

Section BooksTheorems.
Import Books.

(** X17. The books balance.  Whatever the trades, the cash transactions
    and the exchange rates, when [process] returns on a new generator the
    debits written to the journal add up to the credits, and so do the
    debit and credit totals of the accounts: the trial balance is never out
    of balance. *)
Theorem books_balance (order : list string) (pooling_imported : bool)
    (parser_trades : list Trade) (parser_cash : list CashTransaction)
    (rc : HMRCRateCache) (period_end0 : date) (g' : TrialBalanceGenerator) :
  process order
    (init pooling_imported parser_trades parser_cash rc period_end0)
    = Done g' ->
  journal_debits g' == journal_credits g' /\
  total_debits g' == total_credits g'.
Proof.
  intros H. apply process_books in H; [|apply init_books_ok].
  destruct H as (Hj & Ha & _). split; assumption.
Qed.

Lemma books_balance_witness :
  process ["AAPL"%string] BookSamples.sample = Done BookSamples.sample_done /\
  journal_debits BookSamples.sample_done
    == journal_credits BookSamples.sample_done /\
  total_debits BookSamples.sample_done == 16814.5 /\
  total_credits BookSamples.sample_done == 16814.5.
Proof.
  assert (E : process ["AAPL"%string] BookSamples.sample
              = Done BookSamples.sample_done) by (vm_compute; reflexivity).
  destruct (books_balance ["AAPL"%string] true
              BookSamples.sample_trades BookSamples.sample_cash
              BookSamples.usd_rates 739616%Z BookSamples.sample_done E)
    as [Hj Ha].
  split; [exact E|]. split; [exact Hj|].
  assert (Ed : total_debits BookSamples.sample_done == 16814.5)
    by (vm_compute; reflexivity).
  split; [exact Ed|]. rewrite <- Ha. exact Ed.
Defined.

(** X18. Nothing negative is written.  After [process] on a new generator
    every journal entry has a debit or a credit that is not negative and a
    zero on the other side, and no account carries a negative debit or
    credit total: [_debit] and [_credit] turn a negative amount into a
    posting on the other side. *)
Theorem postings_never_negative (order : list string)
    (pooling_imported : bool) (parser_trades : list Trade)
    (parser_cash : list CashTransaction) (rc : HMRCRateCache)
    (period_end0 : date) (g' : TrialBalanceGenerator) :
  process order
    (init pooling_imported parser_trades parser_cash rc period_end0)
    = Done g' ->
  Forall entry_ok (journal_entries g') /\ accounts_ok g'.
Proof.
  intros H. apply process_books in H; [|apply init_books_ok].
  destruct H as (_ & _ & He & Ho & _). split; assumption.
Qed.

Lemma postings_never_negative_witness :
  process ["AAPL"%string] BookSamples.sample = Done BookSamples.sample_done /\
  length (journal_entries BookSamples.sample_done) = 14%nat /\
  Forall entry_ok (journal_entries BookSamples.sample_done) /\
  accounts_ok BookSamples.sample_done.
Proof.
  assert (E : process ["AAPL"%string] BookSamples.sample
              = Done BookSamples.sample_done) by (vm_compute; reflexivity).
  split; [exact E|].
  split; [vm_compute; reflexivity|].
  exact (postings_never_negative ["AAPL"%string] true
              BookSamples.sample_trades BookSamples.sample_cash
              BookSamples.usd_rates 739616%Z BookSamples.sample_done E).
Defined.

(** X19. Account 1200 carries the lots at cost.  After [process] on a new
    generator the balance of "Listed Investments at Cost" is the cost of
    all the FIFO lots still held, every instrument and asset class
    included. *)
Theorem investments_at_cost (order : list string) (pooling_imported : bool)
    (parser_trades : list Trade) (parser_cash : list CashTransaction)
    (rc : HMRCRateCache) (period_end0 : date) (g' : TrialBalanceGenerator) :
  process order
    (init pooling_imported parser_trades parser_cash rc period_end0)
    = Done g' ->
  balance_of g' "1200" == lots_at_cost g'.
Proof.
  intros H. apply process_books in H; [|apply init_books_ok].
  destruct H as (_ & _ & _ & _ & Hl). exact Hl.
Qed.

Lemma investments_at_cost_witness :
  process ["AAPL"%string] BookSamples.sample = Done BookSamples.sample_done /\
  balance_of BookSamples.sample_done "1200"
    == lots_at_cost BookSamples.sample_done /\
  lots_at_cost BookSamples.sample_done == 0.
Proof.
  assert (E : process ["AAPL"%string] BookSamples.sample
              = Done BookSamples.sample_done) by (vm_compute; reflexivity).
  split; [exact E|].
  split; [exact (investments_at_cost ["AAPL"%string] true
              BookSamples.sample_trades BookSamples.sample_cash
              BookSamples.usd_rates 739616%Z BookSamples.sample_done E)|].
  vm_compute. reflexivity.
Defined.

End BooksTheorems.

(** ** The pool as the generator feeds it *)

Section PoolDates.
Import Pooling PoolFacts.

(** An acquisition that finds no pending disposal of its own date only
    appends thirty_day records. *)
Lemma add_acquisition_thirty_day acq_date symbol q c s s' :
  add_acquisition acq_date symbol q c s = Ok s' ->
  Forall (fun p => dr_date p <> acq_date) (_pending_disposals s) ->
  exists new,
    _disposals s' = _disposals s ++ new /\
    Forall (fun md => matching_rule md = thirty_day) new.
Proof.
  unfold add_acquisition. intros H Hall.
  destruct (dle q 0).
  { injection H as <-. exists []. split; [now rewrite app_nil_r|constructor]. }
  bind_case H Ec. bind_case H El. injection H as <-. cbn [_disposals].
  apply match_loop_records in El as (_ & new & Hn & Hr).
  cbn [m_disposals m_pending] in Hn, Hr.
  exists new. split; [exact Hn|].
  eapply Forall_impl; [exact Hr|]. cbn.
  intros md (_ & _ & idx & dt & _ & Hdt & _ & Hrule).
  rewrite list_lookup_fmap in Hdt.
  destruct (_pending_disposals s !! idx) as [p|] eqn:Ep; [|discriminate].
  injection Hdt as <-.
  pose proof (Forall_lookup_1 _ _ _ _ Hall Ep) as Hne. cbn in Hne.
  apply Z.eqb_neq in Hne. now rewrite Hne in Hrule.
Qed.

(** An acquisition leaves the dates of the pending disposals as they
    are. *)
Lemma add_acquisition_pending_dates (P : date -> Prop)
    acq_date symbol q c s s' :
  add_acquisition acq_date symbol q c s = Ok s' ->
  Forall (fun p => P (dr_date p)) (_pending_disposals s) ->
  Forall (fun p => P (dr_date p)) (_pending_disposals s').
Proof.
  unfold add_acquisition. intros H Hall.
  destruct (dle q 0); [now injection H as <-|].
  bind_case H Ec. bind_case H El. injection H as <-.
  cbn [_pending_disposals].
  apply match_loop_records in El as (Hd & _). cbn [m_pending] in Hd.
  apply filter_Forall.
  apply (proj1 (List.Forall_map dr_date P _)). rewrite Hd.
  apply (proj2 (List.Forall_map dr_date P _)). exact Hall.
Qed.

(** A disposal only removes pending disposals and adds its own. *)
Lemma remove_disposal_pending (P : DisposalRecord -> Prop)
    disp_date symbol q p s s' :
  remove_disposal disp_date symbol q p s = Ok s' ->
  (forall r, dr_date r = disp_date -> P r) ->
  Forall P (_pending_disposals s) -> Forall P (_pending_disposals s').
Proof.
  unfold remove_disposal. intros H Hnew Hall.
  destruct (dle q 0); [now injection H as <-|].
  bind_case H Ef. injection H as <-. cbn [_pending_disposals].
  apply Forall_app. split.
  - eapply flush_sub; eassumption.
  - constructor; [|constructor]. now apply Hnew.
Qed.

End PoolDates.

Section SameDay.
Import Books.

Lemma key_le_trans a b c :
  key_le a b = true -> key_le b c = true -> key_le a c = true.
Proof. unfold key_le. lia. Qed.

Lemma key_le_total a b : key_le a b = false -> key_le b a = true.
Proof. unfold key_le. lia. Qed.

Lemma insert_by_key_Forall (P : Trade -> Prop) x l :
  P x -> Forall P l -> Forall P (insert_by_key x l).
Proof.
  intros Hx Hl. induction Hl as [|y l Hy Hl IH]; cbn.
  - constructor; [exact Hx|constructor].
  - destruct (key_le (sort_key y) (sort_key x)).
    + constructor; assumption.
    + constructor; [exact Hx|]. constructor; assumption.
Qed.

Lemma insert_by_key_ordered x l : ordered l -> ordered (insert_by_key x l).
Proof.
  induction l as [|y l IH]; cbn; intros H.
  - split; [constructor|exact I].
  - destruct H as [Hy Hl].
    destruct (key_le (sort_key y) (sort_key x)) eqn:E; cbn.
    + split; [|now apply IH]. now apply insert_by_key_Forall.
    + apply key_le_total in E. split; [|split; assumption].
      constructor; [exact E|].
      eapply Forall_impl; [exact Hy|]. intros z Hz.
      unfold goes_before in *. eapply key_le_trans; eassumption.
Qed.

(** [sorted] returns the trades by date, the purchases of a day before
    its sales. *)
Lemma sorted_by_key_ordered l : ordered (sorted_by_key l).
Proof.
  unfold sorted_by_key. induction (rev l) as [|x r IH]; cbn.
  - exact I.
  - now apply insert_by_key_ordered.
Qed.

Lemma pool_before_mono k k' g :
  key_le k k' = true -> pool_before k g -> pool_before k' g.
Proof.
  unfold pool_before. intros Hk. destruct (section_104 g); [|auto].
  intros H. eapply Forall_impl; [exact H|]. intros p Hp.
  unfold pending_before in *. eapply key_le_trans; eassumption.
Qed.

Lemma _process_trade_section_104_pool trade g g' :
  _process_trade_section_104 trade g = Done g' ->
  pool_before (sort_key trade) g -> never_same_day g ->
  never_same_day g' /\ pool_before (sort_key trade) g'.
Proof.
  unfold _process_trade_section_104, pool_before, never_same_day, sort_key.
  intros H Hp Hn.
  destruct (section_104 g) as [s|] eqn:Es.
  2:{ injection H as <-. rewrite Es. split; exact I. }
  destruct (is_buy trade).
  - step_case H Ec.
    destruct (Pooling.add_acquisition (t_date trade) (t_symbol trade)
                (t_quantity trade) a s) as [s'|] eqn:Ea;
      cbn [lift mbind Outcome_bind] in H; [|discriminate].
    injection H as <-. cbn [section_104 set_section_104].
    assert (Hlt : Forall (fun p => (Pooling.dr_date p < t_date trade)%Z)
                    (Pooling._pending_disposals s)).
    { eapply Forall_impl; [exact Hp|]. intros p.
      unfold pending_before, key_le. cbn [fst snd]. lia. }
    split.
    + apply add_acquisition_thirty_day in Ea as (new & -> & Hnew).
      * apply Forall_app. split; [exact Hn|].
        eapply Forall_impl; [exact Hnew|]. cbn. intros md ->. discriminate.
      * eapply Forall_impl; [exact Hlt|]. cbn. lia.
    + apply (add_acquisition_pending_dates
               (fun d => (d < t_date trade)%Z)) in Ea; [|exact Hlt].
      eapply Forall_impl; [exact Ea|]. intros p.
      unfold pending_before, key_le. cbn [fst snd]. lia.
  - step_case H Ec.
    destruct (Pooling.remove_disposal (t_date trade) (t_symbol trade)
                (t_quantity trade) a s) as [s'|] eqn:Er;
      cbn [lift mbind Outcome_bind] in H; [|discriminate].
    injection H as <-. cbn [section_104 set_section_104].
    split.
    + apply remove_disposal_records in Er as (new & w & -> & _ & Hnew).
      apply Forall_app. split; [exact Hn|].
      eapply Forall_impl; [exact Hnew|]. cbn.
      intros md (_ & -> & _). discriminate.
    + eapply remove_disposal_pending; [exact Er| |exact Hp].
      intros r Hr. unfold pending_before, key_le. cbn [fst snd]. lia.
Qed.

Lemma pool_ext g g' :
  section_104 g' = section_104 g ->
  (forall k, pool_before k g -> pool_before k g') /\
  (never_same_day g -> never_same_day g').
Proof. unfold pool_before, never_same_day. now intros ->. Qed.

Lemma process_trade_pool trade g g' :
  process_trade trade g = Done g' ->
  books_ok g -> pool_before (sort_key trade) g -> never_same_day g ->
  books_ok g' /\ never_same_day g' /\ pool_before (sort_key trade) g'.
Proof.
  intros H Hb Hp Hn.
  destruct (process_trade_books _ _ _ H Hb) as (Hb' & _).
  split; [exact Hb'|].
  unfold process_trade in H. step_case H E1.
  destruct (_process_trade_books _ _ _ E1 Hb) as (_ & Hs & _).
  destruct (pool_ext g a Hs) as [Hp1 Hn1].
  match type of H with (if ?b then _ else _) = _ => destruct b end.
  - eapply _process_trade_section_104_pool; eauto.
  - injection H as <-. split; auto.
Qed.

Lemma process_trades_pool l :
  ordered l ->
  forall k g g',
    Forall (fun t => key_le k (sort_key t) = true) l ->
    process_trades l g = Done g' ->
    books_ok g -> pool_before k g -> never_same_day g ->
    books_ok g' /\ never_same_day g'.
Proof.
  induction l as [|t l IH]; cbn; intros Ho k g g' Hk H Hb Hp Hn.
  - injection H as <-. split; assumption.
  - destruct Ho as [Ht Ho]. inversion Hk as [|? ? Hkt Hkl]; subst.
    step_case H E1.
    destruct (process_trade_pool _ _ _ E1 Hb
                (pool_before_mono _ _ _ Hkt Hp) Hn) as (Hb1 & Hn1 & Hp1).
    exact (IH Ho (sort_key t) a g' Ht H Hb1 Hp1 Hn1).
Qed.

Lemma process_cash_pool l g g' :
  process_cash l g = Done g' -> books_ok g ->
  section_104 g' = section_104 g.
Proof.
  revert g. induction l as [|t l IH]; intros g H Hb; cbn in H.
  - now injection H as <-.
  - step_case H E1.
    destruct (_process_cash_transaction_books _ _ _ E1 Hb) as (Hb1 & Hs & _).
    rewrite (IH _ H Hb1). exact Hs.
Qed.

(** X20. The generator never produces a same-day match.  [process] sorts
    the purchases of a day before its sales, so when the pool receives an
    acquisition every pending disposal is of an earlier day: after
    [process] on a new generator no MatchedDisposal of the pool carries
    the rule same_day, whatever the trades. *)
Theorem process_never_same_day (order : list string)
    (pooling_imported : bool) (parser_trades : list Trade)
    (parser_cash : list CashTransaction) (rc : HMRCRateCache)
    (period_end0 : date) (g' : TrialBalanceGenerator)
    (s' : Pooling.Section104Pool) :
  process order
    (init pooling_imported parser_trades parser_cash rc period_end0)
    = Done g' ->
  section_104 g' = Some s' ->
  Forall (fun md => Pooling.matching_rule md <> Pooling.same_day)
    (Pooling._disposals s').
Proof.
  intros H Hs'. unfold process in H. step_case H E1. step_case H E2.
  set (g0 := init pooling_imported parser_trades parser_cash rc period_end0)
    in *.
  assert (Hp0 : forall k, pool_before k g0).
  { intros k. unfold pool_before. subst g0. cbn.
    destruct pooling_imported; [constructor|exact I]. }
  assert (Hn0 : never_same_day g0).
  { unfold never_same_day. subst g0. cbn.
    destruct pooling_imported; [constructor|exact I]. }
  pose proof (sorted_by_key_ordered (trades g0)) as Ho.
  assert (Hr : books_ok a /\ never_same_day a).
  { destruct (sorted_by_key (trades g0)) as [|t l] eqn:El.
    - cbn in E1. injection E1 as <-. split; [apply init_books_ok|exact Hn0].
    - apply (process_trades_pool (t :: l) Ho (sort_key t) g0 a); auto.
      + destruct Ho as [Ht _]. constructor; [|exact Ht].
        unfold key_le. lia.
      + apply init_books_ok. }
  destruct Hr as [Hb1 Hn1].
  assert (Hb2 : books_ok a0 /\ never_same_day a0).
  { unfold never_same_day in *.
    destruct (section_104 a) as [s|] eqn:Es.
    - destruct (Pooling.flush_all_pending order s) as [s1|] eqn:Ef;
        cbn [lift mbind Outcome_bind] in E2; [|discriminate].
      injection E2 as <-. split; [now apply (books_ok_ext a)|].
      cbn [section_104 set_section_104].
      apply flush_symbols_records in Ef as (new & w & -> & _ & Hnew).
      apply Forall_app. split; [exact Hn1|].
      eapply Forall_impl; [exact Hnew|]. cbn. intros md [-> _]. discriminate.
    - injection E2 as <-. rewrite Es. split; [exact Hb1|exact I]. }
  destruct Hb2 as [Hb2 Hn2].
  pose proof (process_cash_pool _ _ _ H Hb2) as Hs.
  unfold never_same_day in Hn2. rewrite <- Hs, Hs' in Hn2. exact Hn2.
Qed.

Lemma process_never_same_day_witness :
  (exists s' md,
     BookSamples.pool_in_listed_order = Ok s' /\
     md ∈ Pooling._disposals s' /\
     Pooling.matching_rule md = Pooling.same_day) /\
  exists s',
    process ["AAPL"%string] BookSamples.sample
      = Done BookSamples.sample_done /\
    section_104 BookSamples.sample_done = Some s' /\
    length (Pooling._disposals s') = 2%nat /\
    Forall (fun md => Pooling.matching_rule md <> Pooling.same_day)
      (Pooling._disposals s').
Proof.
  split.
  - destruct BookSamples.pool_in_listed_order as [s'|] eqn:E;
      [|vm_compute in E; discriminate E].
    vm_compute in E. injection E as <-.
    eexists _, _. split; [reflexivity|]. split; [apply list_elem_of_here|].
    reflexivity.
  - assert (E : process ["AAPL"%string] BookSamples.sample
                = Done BookSamples.sample_done) by (vm_compute; reflexivity).
    destruct (section_104 BookSamples.sample_done) as [s'|] eqn:Es;
      [|vm_compute in Es; discriminate Es].
    exists s'. split; [exact E|]. split; [reflexivity|].
    split.
    + vm_compute in Es. injection Es as <-. reflexivity.
    + exact (process_never_same_day ["AAPL"%string] true
               BookSamples.sample_trades BookSamples.sample_cash
               BookSamples.usd_rates 739616%Z BookSamples.sample_done s'
               E Es).
Defined.

End SameDay.

(** ** When [process] returns *)

Section PoolReturns.
Import Pooling PoolFacts.

Lemma add_acquisition_returns acq_date symbol q c s :
  Forall pending_ok (_pending_disposals s) ->
  exists s', add_acquisition acq_date symbol q c s = Ok s'.
Proof.
  intros Hok. unfold add_acquisition.
  destruct (dle q 0) eqn:E0; [eauto|]. apply dle_false in E0.
  assert (E1 : deq q 0 = false) by (apply deq_false; lra).
  rewrite E1, ddiv_ok by lra. cbn [mbind Result_bind].
  match goal with
  | |- exists s', (match_loop ?a ?b ?c ?d ?e ≫= _) = _ =>
      destruct (match_loop_total a b c d e) as [st Hst]
  end.
  { cbn [m_pending]. now apply pending_ok_original_qty. }
  rewrite Hst. cbn [mbind Result_bind]. eauto.
Qed.

Lemma pending_ready s :
  well_formed s -> Forall window_in_range (_pending_disposals s) ->
  Forall (fun d => pending_ok d /\ window_in_range d) (_pending_disposals s).
Proof.
  intros [Hok _] Hw. rewrite Forall_forall in Hok, Hw. apply Forall_forall.
  intros d Hd. split; [apply (Hok d Hd)|apply (Hw d Hd)].
Qed.

Lemma remove_disposal_returns disp_date symbol q p s :
  well_formed s -> Forall window_in_range (_pending_disposals s) ->
  exists s', remove_disposal disp_date symbol q p s = Ok s'.
Proof.
  intros Hwf Hw. unfold remove_disposal.
  destruct (dle q 0); [eauto|].
  destruct (flush_total symbol disp_date s (pending_ready s Hwf Hw))
    as [s1 H1].
  rewrite H1. cbn [mbind Result_bind]. eauto.
Qed.

End PoolReturns.

Section LedgerReturns.
Import Books.

Lemma to_gbp_returns rc a currency d :
  rate_ok rc currency d -> exists x, to_gbp rc a currency d = Done x.
Proof.
  intros (rate & Hr & Hnz). unfold to_gbp. rewrite Hr.
  cbn [mbind Outcome_bind]. rewrite ddiv_ok by exact Hnz.
  cbn [lift mbind Outcome_bind]. eauto.
Qed.

Lemma post_returns side account_code a memo g :
  chart_ok g -> account_code ∈ chart_codes ->
  returns_ledger g (post side account_code a memo g).
Proof.
  intros Hc Hin. unfold post, returns_ledger.
  destruct (Hc _ Hin) as [acc Hacc]. rewrite Hacc.
  eexists. split; [reflexivity|]. split; [|split; reflexivity].
  intros c Hcin. cbn [accounts set_ledger].
  destruct (decide (c = account_code)) as [->|Hne].
  - rewrite lookup_insert_eq. eauto.
  - rewrite lookup_insert_ne by congruence. now apply Hc.
Qed.

Lemma _debit_returns account_code a memo g :
  chart_ok g -> account_code ∈ chart_codes ->
  returns_ledger g (_debit account_code a memo g).
Proof.
  intros Hc Hin. unfold _debit. destruct (dlt a 0); now apply post_returns.
Qed.

Lemma _credit_returns account_code a memo g :
  chart_ok g -> account_code ∈ chart_codes ->
  returns_ledger g (_credit account_code a memo g).
Proof.
  intros Hc Hin. unfold _credit. destruct (dlt a 0); now apply post_returns.
Qed.

(** A debit followed by a credit, as every branch of the generator
    writes them. *)
Lemma debit_credit_returns c1 a1 m1 c2 a2 m2 g :
  chart_ok g -> c1 ∈ chart_codes -> c2 ∈ chart_codes ->
  returns_ledger g
    (g1 ← _debit c1 a1 m1 g; _credit c2 a2 m2 g1).
Proof.
  intros Hc H1 H2.
  destruct (_debit_returns c1 a1 m1 g Hc H1) as (g1 & E1 & Hc1 & R1 & S1).
  rewrite E1. cbn [mbind Outcome_bind].
  destruct (_credit_returns c2 a2 m2 g1 Hc1 H2) as (g2 & E2 & Hc2 & R2 & S2).
  exists g2. split; [exact E2|]. split; [exact Hc2|]. split; congruence.
Qed.

Lemma in_chart c : bool_decide (c ∈ chart_codes) = true -> c ∈ chart_codes.
Proof. apply bool_decide_eq_true_1. Qed.

Lemma init_chart_ok b tr cash rc pe : chart_ok (init b tr cash rc pe).
Proof.
  intros c Hc. cbn [accounts init].
  destruct (list_to_map _ !! c) as [acc|] eqn:E; [eauto|].
  apply not_elem_of_list_to_map in E. exfalso. apply E.
  rewrite <- list_fmap_compose. exact Hc.
Qed.

Lemma _process_cash_transaction_returns tx g :
  chart_ok g -> cash_ok (rate_cache g) tx ->
  returns_ledger g (_process_cash_transaction tx g).
Proof.
  intros Hc Hr. unfold _process_cash_transaction.
  destruct (to_gbp_returns (rate_cache g) (Qabs (amount tx)) _ _ Hr)
    as [x Hx].
  rewrite Hx. cbn [mbind Outcome_bind].
  repeat match goal with
         | |- returns_ledger _ (if ?b then _ else _) => destruct b
         end;
    (apply debit_credit_returns; [exact Hc|apply in_chart; reflexivity..]).
Qed.

Lemma _process_trade_returns trade g :
  chart_ok g -> rate_ok (rate_cache g) (t_currency trade) (t_date trade) ->
  returns_ledger g (_process_trade trade g).
Proof.
  intros Hc Hr. unfold _process_trade.
  assert (Hg : (if String.eqb (t_asset_class trade) "CASH"
                then "4300"%string else "4200"%string) ∈ chart_codes)
    by (destruct (String.eqb (t_asset_class trade) "CASH");
        apply in_chart; reflexivity).
  assert (Hl : (if String.eqb (t_asset_class trade) "CASH"
                then "5500"%string else "5400"%string) ∈ chart_codes)
    by (destruct (String.eqb (t_asset_class trade) "CASH");
        apply in_chart; reflexivity).
  destruct (is_buy trade).
  - destruct (to_gbp_returns (rate_cache g)
                (Qabs (proceeds trade) + commission trade) _ _ Hr)
      as [x Hx].
    destruct (String.eqb (t_asset_class trade) "CASH");
      rewrite Hx; cbn [mbind Outcome_bind]; cbn zeta;
      match goal with
      | |- returns_ledger _ (mbind _ (_debit _ _ _ ?g1)) =>
          destruct (debit_credit_returns "1200" x
                      (Buy (t_quantity trade) (t_symbol trade)) "1101" x
                      (Buy (t_quantity trade) (t_symbol trade)) g1)
            as (g' & E & Hc' & R & S);
          [exact Hc|apply in_chart; reflexivity..|];
          exists g'; split; [exact E|]; split; [exact Hc'|];
          split; [exact R|exact S]
      end.
  - destruct (to_gbp_returns (rate_cache g)
                (Qabs (proceeds trade) - commission trade) _ _ Hr)
      as [net Hx].
    destruct (fifo_loop_total
                (default [] (holdings g !! t_symbol trade))
                {| Ledger.remaining := t_quantity trade;
                   Ledger.total_cost := 0; Ledger.new_lots := [] |})
      as [st Hst].
    assert (Hf : Ledger._calculate_fifo_cost (t_symbol trade)
                   (t_quantity trade) (holdings g)
                 = Ok (Ledger.total_cost st,
                       <[t_symbol trade := Ledger.new_lots st]> (holdings g))).
    { unfold Ledger._calculate_fifo_cost. now rewrite Hst. }
    set (g1 := set_holdings g
                 (<[t_symbol trade := Ledger.new_lots st]> (holdings g))).
    assert (Hc1 : chart_ok g1) by exact Hc.
    destruct (_debit_returns "1101" net
                (Sell (t_quantity trade) (t_symbol trade)) g1 Hc1)
      as (g2 & E2 & Hc2 & R2 & S2); [apply in_chart; reflexivity|].
    destruct (_credit_returns "1200" (Ledger.total_cost st)
                (CostOfSold (t_quantity trade) (t_symbol trade)) g2 Hc2)
      as (g3 & E3 & Hc3 & R3 & S3); [apply in_chart; reflexivity|].
    assert (Hend : returns_ledger g
      (if dlt 0 (net - Ledger.total_cost st) then
         _credit (if String.eqb (t_asset_class trade) "CASH"
                  then "4300"%string else "4200"%string)
           (net - Ledger.total_cost st) (GainOn (t_symbol trade)) g3
       else if dlt (net - Ledger.total_cost st) 0 then
         _debit (if String.eqb (t_asset_class trade) "CASH"
                 then "5500"%string else "5400"%string)
           (Qabs (net - Ledger.total_cost st)) (LossOn (t_symbol trade)) g3
       else Done g3)).
    { assert (Hg3 : rate_cache g3 = rate_cache g /\
                    section_104 g3 = section_104 g)
        by (split; [rewrite R3, R2|rewrite S3, S2]; reflexivity).
      destruct Hg3 as [R S].
      destruct (dlt 0 (net - Ledger.total_cost st)).
      - destruct (_credit_returns _ (net - Ledger.total_cost st)
                    (GainOn (t_symbol trade)) g3 Hc3 Hg)
          as (g4 & E4 & Hc4 & R4 & S4).
        exists g4. split; [exact E4|]. split; [exact Hc4|].
        split; congruence.
      - destruct (dlt (net - Ledger.total_cost st) 0).
        + destruct (_debit_returns _ (Qabs (net - Ledger.total_cost st))
                      (LossOn (t_symbol trade)) g3 Hc3 Hl)
            as (g4 & E4 & Hc4 & R4 & S4).
          exists g4. split; [exact E4|]. split; [exact Hc4|].
          split; congruence.
        + exists g3. split; [reflexivity|]. split; [exact Hc3|].
          split; assumption. }
    destruct (String.eqb (t_asset_class trade) "CASH");
      rewrite Hx; cbn [mbind Outcome_bind]; rewrite Hf;
      cbn [lift mbind Outcome_bind]; cbn zeta; fold g1;
      rewrite E2; cbn [mbind Outcome_bind];
      rewrite E3; cbn [mbind Outcome_bind]; exact Hend.
Qed.

End LedgerReturns.

Section ProcessReturns.
Import Books.

Lemma _process_trade_section_104_returns trade g :
  trade_ok (rate_cache g) trade -> pool_ready g -> chart_ok g ->
  exists g',
    _process_trade_section_104 trade g = Done g' /\
    chart_ok g' /\ rate_cache g' = rate_cache g /\ pool_ready g'.
Proof.
  intros [Hr Hw] Hp Hc. unfold _process_trade_section_104, pool_ready in *.
  destruct (section_104 g) as [s|] eqn:Es.
  2:{ exists g. rewrite Es. repeat split; auto. }
  destruct Hp as [Hwf Hwin].
  destruct (is_buy trade).
  - destruct (to_gbp_returns (rate_cache g)
                (Qabs (proceeds trade) + commission trade) _ _ Hr)
      as [x Hx].
    rewrite Hx. cbn [mbind Outcome_bind].
    destruct (add_acquisition_returns (t_date trade) (t_symbol trade)
                (t_quantity trade) x s (proj1 Hwf)) as [s' Hs'].
    rewrite Hs'. cbn [lift mbind Outcome_bind].
    eexists. split; [reflexivity|]. split; [exact Hc|].
    split; [reflexivity|]. cbn [section_104 set_section_104]. split.
    + eapply add_acquisition_well_formed; eassumption.
    + exact (add_acquisition_pending_dates
               (fun d => (MINORDINAL <= d + Pooling.THIRTY_DAYS
                          <= MAXORDINAL)%Z) _ _ _ _ _ _ Hs' Hwin).
  - destruct (to_gbp_returns (rate_cache g)
                (Qabs (proceeds trade) - commission trade) _ _ Hr)
      as [x Hx].
    rewrite Hx. cbn [mbind Outcome_bind].
    destruct (remove_disposal_returns (t_date trade) (t_symbol trade)
                (t_quantity trade) x s Hwf Hwin) as [s' Hs'].
    rewrite Hs'. cbn [lift mbind Outcome_bind].
    eexists. split; [reflexivity|]. split; [exact Hc|].
    split; [reflexivity|]. cbn [section_104 set_section_104]. split.
    + eapply remove_disposal_well_formed; eassumption.
    + eapply remove_disposal_pending; [exact Hs'| |exact Hwin].
      intros r Er. unfold PoolFacts.window_in_range. now rewrite Er.
Qed.

Lemma pool_ready_ext g g' :
  section_104 g' = section_104 g -> pool_ready g -> pool_ready g'.
Proof. unfold pool_ready. now intros ->. Qed.

Lemma process_trade_returns trade g :
  trade_ok (rate_cache g) trade -> pool_ready g -> chart_ok g ->
  exists g',
    process_trade trade g = Done g' /\
    chart_ok g' /\ rate_cache g' = rate_cache g /\ pool_ready g'.
Proof.
  intros Ht Hp Hc. unfold process_trade.
  destruct (_process_trade_returns trade g Hc (proj1 Ht))
    as (g1 & E1 & Hc1 & R1 & S1).
  rewrite E1. cbn [mbind Outcome_bind].
  pose proof (pool_ready_ext g g1 S1 Hp) as Hp1.
  match goal with |- context [if ?b then _ else _] => destruct b end.
  - rewrite <- R1 in Ht.
    destruct (_process_trade_section_104_returns trade g1 Ht Hp1 Hc1)
      as (g2 & E2 & Hc2 & R2 & Hp2).
    exists g2. split; [exact E2|]. split; [exact Hc2|].
    split; [congruence|exact Hp2].
  - exists g1. repeat split; assumption.
Qed.

Lemma process_trades_returns l g :
  Forall (trade_ok (rate_cache g)) l -> pool_ready g -> chart_ok g ->
  exists g',
    process_trades l g = Done g' /\
    chart_ok g' /\ rate_cache g' = rate_cache g /\ pool_ready g'.
Proof.
  revert g. induction l as [|t l IH]; intros g Hl Hp Hc; cbn.
  - exists g. repeat split; assumption.
  - inversion Hl as [|? ? Ht Hl']; subst.
    destruct (process_trade_returns t g Ht Hp Hc)
      as (g1 & E1 & Hc1 & R1 & Hp1).
    rewrite E1. cbn [mbind Outcome_bind]. rewrite <- R1 in Hl'.
    destruct (IH g1 Hl' Hp1 Hc1) as (g2 & E2 & Hc2 & R2 & Hp2).
    exists g2. split; [exact E2|]. split; [exact Hc2|].
    split; [congruence|exact Hp2].
Qed.

Lemma process_cash_returns l g :
  Forall (cash_ok (rate_cache g)) l -> chart_ok g ->
  exists g', process_cash l g = Done g'.
Proof.
  revert g. induction l as [|t l IH]; intros g Hl Hc; cbn.
  - eauto.
  - inversion Hl as [|? ? Ht Hl']; subst.
    destruct (_process_cash_transaction_returns t g Hc Ht)
      as (g1 & E1 & Hc1 & R1 & _).
    rewrite E1. cbn [mbind Outcome_bind]. rewrite <- R1 in Hl'.
    exact (IH g1 Hl' Hc1).
Qed.

Lemma sorted_by_key_Forall (P : Trade -> Prop) l :
  Forall P l -> Forall P (sorted_by_key l).
Proof.
  intros H. unfold sorted_by_key. apply Forall_rev in H.
  induction H as [|x r Hx _ IH]; cbn; [constructor|].
  now apply insert_by_key_Forall.
Qed.

(** X21. When [process] returns.  On a new generator, if the rate cache
    has a rate other than zero for the currency and month of every trade
    and cash transaction, and every trade is dated so that the day 30 days
    later exists, then [process] returns: no account code is missing from
    the chart, the FIFO ledger and the pool divide by no zero, and no date
    overflows. *)
Theorem process_returns (order : list string) (pooling_imported : bool)
    (parser_trades : list Trade) (parser_cash : list CashTransaction)
    (rc : HMRCRateCache) (period_end0 : date) :
  Forall (trade_ok rc) parser_trades ->
  Forall (cash_ok rc) parser_cash ->
  exists g',
    process order
      (init pooling_imported parser_trades parser_cash rc period_end0)
    = Done g'.
Proof.
  intros Ht Hcash. unfold process.
  set (g0 := init pooling_imported parser_trades parser_cash rc period_end0).
  assert (Hp0 : pool_ready g0).
  { unfold pool_ready. subst g0. cbn.
    destruct pooling_imported; [|exact I].
    split; [apply init_well_formed|constructor]. }
  destruct (process_trades_returns (sorted_by_key (trades g0)) g0)
    as (g1 & E1 & Hc1 & R1 & Hp1).
  { apply sorted_by_key_Forall. exact Ht. }
  { exact Hp0. }
  { apply init_chart_ok. }
  rewrite E1. cbn [mbind Outcome_bind].
  assert (H2 : exists g2,
             match section_104 g1 with
             | Some s =>
                 s' ← lift (Pooling.flush_all_pending order s);
                 Done (set_section_104 g1 s')
             | None => Done g1
             end = Done g2 /\
             chart_ok g2 /\ rate_cache g2 = rate_cache g1).
  { unfold pool_ready in Hp1. destruct (section_104 g1) as [s|].
    - destruct Hp1 as [Hwf Hw].
      destruct (flush_symbols_total order s (pending_ready s Hwf Hw))
        as [s' Hs'].
      unfold Pooling.flush_all_pending. rewrite Hs'.
      cbn [lift mbind Outcome_bind]. eexists. split; [reflexivity|].
      split; [exact Hc1|reflexivity].
    - exists g1. repeat split. exact Hc1. }
  destruct H2 as (g2 & E2 & Hc2 & R2). rewrite E2. cbn [mbind Outcome_bind].
  apply process_cash_returns; [|exact Hc2].
  rewrite R2, R1. exact Hcash.
Qed.

Lemma process_returns_witness :
  Forall (trade_ok BookSamples.usd_rates) BookSamples.sample_trades /\
  Forall (cash_ok BookSamples.usd_rates) BookSamples.sample_cash /\
  exists g', process ["AAPL"%string] BookSamples.sample = Done g'.
Proof.
  assert (Hr : forall d, rate_ok BookSamples.usd_rates "USD" d).
  { intros d. exists 1.25. split; [reflexivity|]. vm_compute. discriminate. }
  assert (Ht : Forall (trade_ok BookSamples.usd_rates)
                 BookSamples.sample_trades).
  { repeat constructor; try apply Hr; vm_compute; discriminate. }
  assert (Hc : Forall (cash_ok BookSamples.usd_rates)
                 BookSamples.sample_cash).
  { repeat constructor; apply Hr. }
  split; [exact Ht|]. split; [exact Hc|].
  exact (process_returns ["AAPL"%string] true BookSamples.sample_trades
           BookSamples.sample_cash BookSamples.usd_rates 739616%Z Ht Hc).
Defined.

End ProcessReturns.

(** ** The accounts [process] writes *)

Section PostedAccounts.
Import Books.

Lemma touches_only_refl g : touches_only g g.
Proof.
  split; [|reflexivity].
  exists []. split; [now rewrite app_nil_r|constructor].
Qed.

Lemma touches_only_trans g1 g2 g3 :
  touches_only g1 g2 -> touches_only g2 g3 -> touches_only g1 g3.
Proof.
  intros [(n1 & J1 & F1) A1] [(n2 & J2 & F2) A2]. split.
  - exists (n1 ++ n2). split; [now rewrite J2, J1, app_assoc|].
    apply Forall_app. split; assumption.
  - intros c Hc. rewrite (A2 c Hc). exact (A1 c Hc).
Qed.

Lemma touches_only_ext g g' :
  accounts g' = accounts g -> journal_entries g' = journal_entries g ->
  touches_only g g'.
Proof.
  intros Ea Ej. split; [|now rewrite Ea].
  exists []. split; [now rewrite Ej, app_nil_r|constructor].
Qed.

Lemma post_touches side account_code a memo g g' :
  account_code ∈ posted_codes ->
  post side account_code a memo g = Done g' -> touches_only g g'.
Proof.
  intros Hin H. unfold post in H.
  destruct (accounts g !! account_code) as [acc|]; [|discriminate].
  injection H as <-. split; cbn [journal_entries accounts set_ledger].
  - eexists [_]. split; [reflexivity|].
    constructor; [|constructor]. destruct side; exact Hin.
  - intros c Hc. apply lookup_insert_ne. intros ->. contradiction.
Qed.

Lemma _debit_touches account_code a memo g g' :
  account_code ∈ posted_codes ->
  _debit account_code a memo g = Done g' -> touches_only g g'.
Proof.
  unfold _debit. intros Hin. destruct (dlt a 0); now apply post_touches.
Qed.

Lemma _credit_touches account_code a memo g g' :
  account_code ∈ posted_codes ->
  _credit account_code a memo g = Done g' -> touches_only g g'.
Proof.
  unfold _credit. intros Hin. destruct (dlt a 0); now apply post_touches.
Qed.

Lemma in_posted c :
  bool_decide (c ∈ posted_codes) = true -> c ∈ posted_codes.
Proof. apply bool_decide_eq_true_1. Qed.

Lemma _process_cash_transaction_touches tx g g' :
  _process_cash_transaction tx g = Done g' -> touches_only g g'.
Proof.
  intros H. unfold _process_cash_transaction in H.
  step_case H Ea. cbn zeta in H.
  repeat match type of H with
         | (if ?b then _ else _) = _ => destruct b
         end;
    (step_case H E1;
     (apply _debit_touches in E1; [|apply in_posted; reflexivity]);
     (apply _credit_touches in H; [|apply in_posted; reflexivity]);
     exact (touches_only_trans _ _ _ E1 H)).
Qed.

Lemma _process_trade_touches trade g g' :
  _process_trade trade g = Done g' -> touches_only g g'.
Proof.
  intros H. unfold _process_trade in H.
  assert (Hg : (if String.eqb (t_asset_class trade) "CASH"
                then "4300"%string else "4200"%string) ∈ posted_codes)
    by (destruct (String.eqb (t_asset_class trade) "CASH");
        apply in_posted; reflexivity).
  assert (Hl : (if String.eqb (t_asset_class trade) "CASH"
                then "5500"%string else "5400"%string) ∈ posted_codes)
    by (destruct (String.eqb (t_asset_class trade) "CASH");
        apply in_posted; reflexivity).
  destruct (is_buy trade).
  - assert (H' : exists x g1 g2,
               accounts g1 = accounts g /\
               journal_entries g1 = journal_entries g /\
               _debit "1200" x (Buy (t_quantity trade) (t_symbol trade)) g1
                 = Done g2 /\
               _credit "1101" x (Buy (t_quantity trade) (t_symbol trade)) g2
                 = Done g').
    { destruct (String.eqb (t_asset_class trade) "CASH");
        (step_case H Ec; cbn zeta in H; step_case H E1;
         eexists _, _, _; (split; [|split; [|split; [exact E1|exact H]]]);
         reflexivity). }
    destruct H' as (x & g1 & g2 & Ea & Ej & E1 & E2).
    apply _debit_touches in E1; [|apply in_posted; reflexivity].
    apply _credit_touches in E2; [|apply in_posted; reflexivity].
    eapply touches_only_trans; [apply (touches_only_ext g g1 Ea Ej)|].
    eapply touches_only_trans; eassumption.
  - assert (H' : exists net cost g1 g2 g3,
               accounts g1 = accounts g /\
               journal_entries g1 = journal_entries g /\
               _debit "1101" net
                 (Sell (t_quantity trade) (t_symbol trade)) g1 = Done g2 /\
               _credit "1200" cost
                 (CostOfSold (t_quantity trade) (t_symbol trade)) g2
                 = Done g3 /\
               (if dlt 0 (net - cost) then
                  _credit (if String.eqb (t_asset_class trade) "CASH"
                           then "4300"%string else "4200"%string)
                    (net - cost) (GainOn (t_symbol trade)) g3
                else if dlt (net - cost) 0 then
                  _debit (if String.eqb (t_asset_class trade) "CASH"
                          then "5500"%string else "5400"%string)
                    (Qabs (net - cost)) (LossOn (t_symbol trade)) g3
                else Done g3) = Done g').
    { destruct (String.eqb (t_asset_class trade) "CASH");
        (step_case H Ep;
         (destruct (Ledger._calculate_fifo_cost (t_symbol trade)
                      (t_quantity trade) (holdings g)) as [[cost h']|];
          cbn [lift mbind Outcome_bind] in H; [|discriminate]);
         cbn zeta in H; step_case H E1; step_case H E2;
         eexists _, _, _, _, _;
         (split; [|split; [|split; [exact E1|split; [exact E2|exact H]]]]);
         reflexivity). }
    destruct H' as (net & cost & g1 & g2 & g3 & Ea & Ej & E1 & E2 & E3).
    apply _debit_touches in E1; [|apply in_posted; reflexivity].
    apply _credit_touches in E2; [|apply in_posted; reflexivity].
    eapply touches_only_trans; [apply (touches_only_ext g g1 Ea Ej)|].
    eapply touches_only_trans; [exact E1|].
    eapply touches_only_trans; [exact E2|].
    destruct (dlt 0 (net - cost)).
    + now apply _credit_touches in E3.
    + destruct (dlt (net - cost) 0).
      * now apply _debit_touches in E3.
      * injection E3 as <-. apply touches_only_refl.
Qed.

Lemma process_trades_touches l g g' :
  process_trades l g = Done g' -> touches_only g g'.
Proof.
  revert g. induction l as [|t l IH]; intros g H; cbn in H.
  - injection H as <-. apply touches_only_refl.
  - step_case H E1. apply IH in H.
    eapply touches_only_trans; [|exact H].
    unfold process_trade in E1. step_case E1 E0.
    apply _process_trade_touches in E0.
    eapply touches_only_trans; [exact E0|].
    match type of E1 with (if ?b then _ else _) = _ => destruct b end.
    + apply _process_trade_section_104_frame in E1 as (Ea & Ej & _).
      now apply touches_only_ext.
    + injection E1 as <-. apply touches_only_refl.
Qed.

Lemma process_cash_touches l g g' :
  process_cash l g = Done g' -> touches_only g g'.
Proof.
  revert g. induction l as [|t l IH]; intros g H; cbn in H.
  - injection H as <-. apply touches_only_refl.
  - step_case H E1. apply IH in H.
    apply _process_cash_transaction_touches in E1.
    eapply touches_only_trans; eassumption.
Qed.

(** X22. The accounts [process] writes.  After [process] on a new
    generator every journal entry is on one of twelve accounts (1101,
    1200, 3000, 4000, 4100, 4200, 4300, 5000, 5200, 5400, 5500, 5600), and
    every other account has a zero debit and a zero credit total.  So
    cash in any currency goes through 1101 "Cash at Bank - USD", no
    commission reaches 5100 "Broker Commissions", and 3200 "Profit/(Loss)
    for Period" receives nothing: [_calculate_retained_earnings] is not
    called. *)
Theorem process_posted_accounts (order : list string)
    (pooling_imported : bool) (parser_trades : list Trade)
    (parser_cash : list CashTransaction) (rc : HMRCRateCache)
    (period_end0 : date) (g' : TrialBalanceGenerator) :
  process order
    (init pooling_imported parser_trades parser_cash rc period_end0)
    = Done g' ->
  Forall (fun e => je_account e ∈ posted_codes) (journal_entries g') /\
  forall c acc,
    c ∉ posted_codes -> accounts g' !! c = Some acc ->
    debit acc = 0 /\ credit acc = 0.
Proof.
  intros H. unfold process in H. step_case H E1. step_case H E2.
  apply process_trades_touches in E1. apply process_cash_touches in H.
  assert (E2' : touches_only a a0).
  { destruct (section_104 a) as [s|].
    - step_case E2 Ef. injection E2 as <-. now apply touches_only_ext.
    - injection E2 as <-. apply touches_only_refl. }
  destruct (touches_only_trans _ _ _ E1 (touches_only_trans _ _ _ E2' H))
    as [(new & Hj & Hnew) Hacc].
  split.
  - rewrite Hj. exact Hnew.
  - intros c acc Hc Hlook. rewrite (Hacc c Hc) in Hlook.
    exact (init_accounts _ _ _ _ _ _ _ Hlook).
Qed.

Lemma process_posted_accounts_witness :
  process ["AAPL"%string] BookSamples.sample = Done BookSamples.sample_done /\
  Forall (fun e => je_account e ∈ posted_codes)
    (journal_entries BookSamples.sample_done) /\
  exists acc,
    accounts BookSamples.sample_done !! "5100"%string = Some acc /\
    debit acc = 0 /\ credit acc = 0.
Proof.
  assert (E : process ["AAPL"%string] BookSamples.sample
              = Done BookSamples.sample_done) by (vm_compute; reflexivity).
  destruct (process_posted_accounts ["AAPL"%string] true
              BookSamples.sample_trades BookSamples.sample_cash
              BookSamples.usd_rates 739616%Z BookSamples.sample_done E)
    as [Hj Hacc].
  split; [exact E|]. split; [exact Hj|].
  destruct (accounts BookSamples.sample_done !! "5100"%string)
    as [acc|] eqn:Ea; [|vm_compute in Ea; discriminate Ea].
  exists acc. split; [reflexivity|].
  apply (Hacc "5100"%string acc); [|exact Ea].
  apply (proj1 (bool_decide_eq_false ("5100"%string ∈ posted_codes))).
  reflexivity.
Defined.

End PostedAccounts.
